(** * Agentic RAG system: the ingestion and search pipeline of [tools.py]

    A shallow embedding of [create_collection], [qdrant_search],
    [extract_text] and [create_embeddings].  The Python functions talk to
    three outside parties: the file system with the format back ends, the
    Gemini embedding service, and the Qdrant vector store.  Everything the
    outside decides is read from a [World]; everything the calls change is
    threaded through a [State] (the store, a call counter, and the list of
    requests issued).  Exceptions are values of a result type, and an
    exception never rolls the state back. *)

From Stdlib Require Import Ascii String ZArith.
From stdpp Require Import gmap strings list fin_maps pretty.

Local Open Scope stdpp_scope.

(** ** Python values *)

(** An exception: its class name and what [str(e)] prints. *)
Record exn := Exn { exn_class : string; exn_str : string }.

Inductive result (A : Type) : Type :=
  | Ok (a : A)
  | Raise (e : exn).
Arguments Ok {A} a.
Arguments Raise {A} e.

#[global] Instance result_ret : MRet result := λ A a, Ok a.
#[global] Instance result_bind : MBind result := λ A B f r,
  match r with
  | Ok a => f a
  | Raise e => Raise e
  end.

(** [try: r except Exception as e: h e] on a pure computation. *)
Definition result_try {A} (r : result A) (h : exn → result A) : result A :=
  match r with
  | Ok a => Ok a
  | Raise e => h e
  end.

(** A [Dict[str, str]]. *)
Abbreviation dict := (gmap string string).

(** [x or ""] for an optional string: [None] and the empty string are
    both falsy. *)
Definition or_empty (x : option string) : string :=
  match x with
  | Some s => if decide (s = "") then "" else s
  | None => ""
  end.

(** ** [str.strip] *)

(** A Python [str] is a sequence of code points; a [string] here holds
    its UTF-8 encoding, one byte per character. *)

(** [str.isspace] of one code point: the white space of the Unicode
    database, which is also what [str.strip()] removes. *)
Definition isspace (c : N) : bool :=
  ((9 <=? c) && (c <=? 13) || (28 <=? c) && (c <=? 32)
   || (c =? 133) || (c =? 160) || (c =? 5760)
   || (8192 <=? c) && (c <=? 8202) || (c =? 8232) || (c =? 8233)
   || (c =? 8239) || (c =? 8287) || (c =? 12288))%N.

(** A continuation byte of a UTF-8 sequence. *)
Definition continuation (b : ascii) : bool :=
  ((128 <=? N_of_ascii b) && (N_of_ascii b <? 192))%N.

(** The code point a one-byte, two-byte or three-byte sequence encodes,
    if it is well formed.  (No code point of four bytes is white
    space.) *)
Definition code1 (b1 : ascii) : option N :=
  if (N_of_ascii b1 <? 128)%N then Some (N_of_ascii b1) else None.

Definition code2 (b1 b2 : ascii) : option N :=
  if ((194 <=? N_of_ascii b1) && (N_of_ascii b1 <? 224))%N && continuation b2
  then Some ((N_of_ascii b1 - 192) * 64 + (N_of_ascii b2 - 128))%N
  else None.

Definition code3 (b1 b2 b3 : ascii) : option N :=
  let c := ((N_of_ascii b1 - 224) * 4096 + (N_of_ascii b2 - 128) * 64
            + (N_of_ascii b3 - 128))%N in
  if ((224 <=? N_of_ascii b1) && (N_of_ascii b1 <? 240))%N
     && continuation b2 && continuation b3 && (2048 <=? c)%N
  then Some c
  else None.

Definition space_code (c : option N) : bool :=
  match c with
  | Some c => isspace c
  | None => false
  end.

(** [s.lstrip()]: the white space code points at the front go. *)
Fixpoint lstrip (s : string) : string :=
  match s with
  | EmptyString => EmptyString
  | String b1 s1 =>
      if space_code (code1 b1) then lstrip s1
      else
        match s1 with
        | EmptyString => s
        | String b2 s2 =>
            if space_code (code2 b1 b2) then lstrip s2
            else
              match s2 with
              | EmptyString => s
              | String b3 s3 =>
                  if space_code (code3 b1 b2 b3) then lstrip s3 else s
              end
        end
  end.

(** Every code point of [s] is white space. *)
Fixpoint all_space (s : string) : bool :=
  match s with
  | EmptyString => true
  | String b1 s1 =>
      if space_code (code1 b1) then all_space s1
      else
        match s1 with
        | EmptyString => false
        | String b2 s2 =>
            if space_code (code2 b1 b2) then all_space s2
            else
              match s2 with
              | EmptyString => false
              | String b3 s3 =>
                  space_code (code3 b1 b2 b3) && all_space s3
              end
        end
  end.

(** [s.rstrip()]: what is left once the white space at the end is
    gone.  A suffix that starts inside a code point begins with a
    continuation byte, so it is never all white space. *)
Fixpoint rstrip (s : string) : string :=
  match s with
  | EmptyString => EmptyString
  | String b s' => if all_space s then EmptyString else String b (rstrip s')
  end.

Definition strip (s : string) : string := rstrip (lstrip s).

(** [needle in s] *)
Fixpoint contains (needle s : string) : bool :=
  String.prefix needle s ||
  match s with
  | EmptyString => false
  | String _ s' => contains needle s'
  end.

(** ** The vector store *)

Inductive Distance := COSINE | EUCLID | DOT | MANHATTAN.
Inductive PayloadSchemaType := KEYWORD | INTEGER | FLOAT | TEXT | BOOL.

#[global] Instance Distance_eq_dec : EqDecision Distance.
Proof. solve_decision. Defined.
#[global] Instance PayloadSchemaType_eq_dec : EqDecision PayloadSchemaType.
Proof. solve_decision. Defined.

(** The components of an embedding are never inspected by the code. *)
Abbreviation vector := (list Z).

(** [PointStruct(id, vector, payload)] *)
Record Point := {
  pt_id : string;
  pt_vector : vector;
  pt_payload : dict;
}.

(** A point as [query_points] hands it back; the payload is optional. *)
Record ScoredPoint := {
  sp_id : string;
  sp_payload : option dict;
}.

Record Collection := {
  vec_size : nat;
  vec_distance : Distance;
  payload_schema : gmap string PayloadSchemaType;
  points : gmap string Point;
}.

(** A collection as [create_collection] makes it: no index, no point. *)
Definition new_collection (size : nat) (distance : Distance) : Collection :=
  {| vec_size := size; vec_distance := distance;
     payload_schema := ∅; points := ∅ |}.

Definition add_index
    (c : Collection) (field : string) (schema : PayloadSchemaType) : Collection :=
  {| vec_size := vec_size c; vec_distance := vec_distance c;
     payload_schema := <[field := schema]> (payload_schema c);
     points := points c |}.

Definition set_points (c : Collection) (m : gmap string Point) : Collection :=
  {| vec_size := vec_size c; vec_distance := vec_distance c;
     payload_schema := payload_schema c; points := m |}.

(** ["\n"] *)
Definition newline : string := String "010" EmptyString.

(** The requests [qdrant_client] sends. *)
Inductive Request :=
  | GetCollections
  | CreateCollection (name : string) (size : nat) (distance : Distance)
  | GetCollection (name : string)
  | CreatePayloadIndex (name field : string) (schema : PayloadSchemaType)
  | Delete (name key value : string)
  | Upsert (name : string) (pts : list Point)
  | QueryPoints (name : string) (query : vector) (limit : Z).

(** Calls that leave the process. *)
Inductive Event :=
  | Qdrant (r : Request)
  | Embed (model content : string) (task_type : option string)
  | Split (text : string).

Definition is_create (ev : Event) : bool :=
  match ev with
  | Qdrant (CreateCollection _ _ _) | Qdrant (CreatePayloadIndex _ _ _) => true
  | _ => false
  end.

Definition is_delete (ev : Event) : bool :=
  match ev with
  | Qdrant (Delete _ _ _) => true
  | _ => false
  end.

Definition is_upsert (ev : Event) : bool :=
  match ev with
  | Qdrant (Upsert _ _) => true
  | _ => false
  end.

Definition is_index_op (ev : Event) : bool :=
  match ev with
  | Qdrant _ => true
  | _ => false
  end.

Definition is_chunk_or_embed (ev : Event) : bool :=
  match ev with
  | Embed _ _ _ | Split _ => true
  | _ => false
  end.

(** ** The outside world

    The file system and the format back ends are fixed for the length of
    one call.  The remote services and the identifier generator are asked
    with the number of the call, so the same request may be answered
    differently each time. *)
Record World := {
  COLLECTION_NAME : string;
  EMBED_MODEL : string;
  CHUNK_SIZE : Z;
  CHUNK_OVERLAP : Z;
  (** [os.path.exists] *)
  path_exists : string → bool;
  (** [magic.from_file(path, mime=True)] *)
  magic_from_file : string → result string;
  (** [PyPDF2.PdfReader(path).pages], each page by what its
      [extract_text()] does *)
  PdfReader_pages : string → result (list (result (option string)));
  (** [docx2txt.process] *)
  docx2txt_process : string → result string;
  (** [pytesseract.image_to_string(Image.open(path))] *)
  image_to_string : string → result string;
  (** [textract.process] and [bytes.decode("utf-8", errors="ignore")],
      which never raises *)
  textract_process : string → result (list Byte.byte);
  decode_utf8_ignore : list Byte.byte → string;
  (** [MarkdownTextSplitter(chunk_size, chunk_overlap).split_text] *)
  split_text : Z → Z → string → result (list string);
  (** [genai.embed_content]; the response is a dictionary *)
  embed_content :
    nat → string → string → option string → result (gmap string vector);
  (** [str(uuid.uuid4())] *)
  uuid4 : nat → string;
  (** a failure of the store on a request: network, validation, ... *)
  qdrant_fault : nat → Request → option exn;
  (** the ranking [query_points] computes *)
  nearest : nat → gmap string Point → vector → Z → list ScoredPoint;
}.

Record State := {
  qdrant : gmap string Collection;
  clock : nat;
  trace : list Event;
}.

(** ** Computations: state and exceptions *)

Definition M (A : Type) : Type := State → result A * State.

#[global] Instance M_ret : MRet M := λ A a s, (Ok a, s).
#[global] Instance M_bind : MBind M := λ A B f m s,
  match m s with
  | (Ok a, s') => f a s'
  | (Raise e, s') => (Raise e, s')
  end.

Definition raise {A} (e : exn) : M A := λ s, (Raise e, s).

(** [try: m except Exception as e: h e]; what [m] did before raising
    stays done. *)
Definition try_except {A} (m : M A) (h : exn → M A) : M A := λ s,
  match m s with
  | (Ok a, s') => (Ok a, s')
  | (Raise e, s') => h e s'
  end.

Definition lift {A} (r : result A) : M A := λ s, (r, s).

(** Take the number of the next outside call. *)
Definition tick : M nat := λ s,
  (Ok (clock s),
   {| qdrant := qdrant s; clock := S (clock s); trace := trace s |}).

Definition emit (ev : Event) : M unit := λ s,
  (Ok tt,
   {| qdrant := qdrant s; clock := clock s; trace := trace s ++ [ev] |}).

Definition get_store : M (gmap string Collection) := λ s, (Ok (qdrant s), s).

Definition put_store (q : gmap string Collection) : M unit := λ s,
  (Ok tt, {| qdrant := q; clock := clock s; trace := trace s |}).

Section Tools.
Context (w : World).

(** *** [qdrant_client]

    The store as section 4.6 of the specification describes it: a
    request is sent, the store may fail on it, and otherwise it is
    carried out as a whole.  A failed request changes nothing. *)

Definition request (r : Request) : M nat :=
  emit (Qdrant r);;
  t ← tick;
  match qdrant_fault w t r with
  | Some e => raise e
  | None => mret t
  end.

Definition not_found {A} (name : string) : M A :=
  raise (Exn "UnexpectedResponse"
             ("Not found: Collection `" +:+ name +:+ "` doesn't exist!")).

Definition client_get_collections : M (list string) :=
  request GetCollections;;
  q ← get_store;
  mret (elements (dom q)).

Definition client_create_collection
    (name : string) (size : nat) (distance : Distance) : M unit :=
  request (CreateCollection name size distance);;
  q ← get_store;
  match q !! name with
  | Some _ =>
      raise (Exn "UnexpectedResponse"
                 ("Conflict: Collection `" +:+ name +:+ "` already exists!"))
  | None =>
      put_store (<[name := new_collection size distance]> q)
  end.

Definition client_get_collection (name : string) : M Collection :=
  request (GetCollection name);;
  q ← get_store;
  match q !! name with
  | Some c => mret c
  | None => not_found name
  end.

Definition client_create_payload_index
    (name field : string) (schema : PayloadSchemaType) : M unit :=
  request (CreatePayloadIndex name field schema);;
  q ← get_store;
  match q !! name with
  | Some c =>
      put_store (<[name := add_index c field schema]> q)
  | None => not_found name
  end.

(** [Filter(must=[FieldCondition(key, match=MatchValue(value))])] *)
Definition matches (key value : string) (p : Point) : Prop :=
  pt_payload p !! key = Some value.

#[global] Instance matches_dec key value p : Decision (matches key value p).
Proof. unfold matches. apply _. Defined.

Definition delete_points
    (key value : string) (m : gmap string Point) : gmap string Point :=
  filter (λ kv, ¬ matches key value kv.2) m.

Definition client_delete (name key value : string) : M unit :=
  request (Delete name key value);;
  q ← get_store;
  match q !! name with
  | Some c =>
      put_store (<[name := set_points c (delete_points key value (points c))]> q)
  | None => not_found name
  end.

(** Points are written by identifier, later ones over earlier ones. *)
Definition upsert_points
    (pts : list Point) (m : gmap string Point) : gmap string Point :=
  foldl (λ acc p, <[pt_id p := p]> acc) m pts.

Definition client_upsert (name : string) (pts : list Point) : M unit :=
  request (Upsert name pts);;
  q ← get_store;
  match q !! name with
  | Some c =>
      put_store (<[name := set_points c (upsert_points pts (points c))]> q)
  | None => not_found name
  end.

Definition client_query_points
    (name : string) (query : vector) (limit : Z) : M (list ScoredPoint) :=
  t ← request (QueryPoints name query limit);
  q ← get_store;
  match q !! name with
  | Some c => mret (nearest w t (points c) query limit)
  | None => not_found name
  end.

(** *** [genai] *)

Definition genai_embed_content
    (model content : string) (task_type : option string)
    : M (gmap string vector) :=
  emit (Embed model content task_type);;
  t ← tick;
  lift (embed_content w t model content task_type).

(** [d[key]] *)
Definition getitem {A} (d : gmap string A) (key : string) : M A :=
  match d !! key with
  | Some v => mret v
  | None => raise (Exn "KeyError" ("'" +:+ key +:+ "'"))
  end.

(** *** tools.py, lines 40-67 *)

(** The body of the [try]. *)
Definition create_collection_try : M unit :=
  collections ← client_get_collections;
  (if negb (bool_decide (COLLECTION_NAME w ∈ collections))
   then client_create_collection (COLLECTION_NAME w) 768 COSINE
   else mret tt);;
  collection_info ← client_get_collection (COLLECTION_NAME w);
  if negb (bool_decide ("file_path" ∈ dom (payload_schema collection_info)))
  then client_create_payload_index (COLLECTION_NAME w) "file_path" KEYWORD
  else mret tt.

(** [except Exception as e: ...; raise] *)
Definition create_collection : M unit :=
  try_except create_collection_try (λ e, raise e).

(** *** tools.py, lines 70-82 *)

(** [{"text": p.payload.get("text", "")}] *)
Definition retrieved_entry (p : ScoredPoint) : M dict :=
  match sp_payload p with
  | Some payload => mret {[ "text" := default "" (payload !! "text") ]}
  | None =>
      raise (Exn "AttributeError"
                 "'NoneType' object has no attribute 'get'")
  end.

Definition qdrant_search_try (query : string) (top_k : Z) : M (list dict) :=
  resp ← genai_embed_content (EMBED_MODEL w) query (Some "SEMANTIC_SIMILARITY");
  embedding ← getitem resp "embedding";
  results ← client_query_points (COLLECTION_NAME w) embedding top_k;
  retrieved ← mapM retrieved_entry results;
  mret retrieved.

Definition search_error (e : exn) : list dict :=
  [ {[ "text" := "Error searching documents: " +:+ exn_str e ]} ].

Definition qdrant_search (query : string) (top_k : Z) : M (list dict) :=
  try_except (qdrant_search_try query top_k)
             (λ e, mret (search_error e)).

(** *** tools.py, lines 84-103 *)

Definition word_mimes : list string :=
  [ "application/vnd.openxmlformats-officedocument.wordprocessingml.document";
    "application/msword" ].

(** ["\n".join(page.extract_text() or "" for page in reader.pages)];
    the generator is consumed in page order and the first page that
    raises ends it. *)
Definition pdf_text (pages : list (result (option string))) : result string :=
  texts ← mapM (λ page : result (option string), t ← page; mret (or_empty t)) pages;
  mret (String.concat newline texts).

Definition extract_text (file_path : string) : result string :=
  if negb (path_exists w file_path)
  then Raise (Exn "FileNotFoundError" ("File not found: " +:+ file_path))
  else
    mime ← magic_from_file w file_path;
    result_try
      (if bool_decide (mime = "application/pdf") then
         pages ← PdfReader_pages w file_path;
         pdf_text pages
       else if bool_decide (mime ∈ word_mimes) then
         docx2txt_process w file_path
       else if String.prefix "image/" mime then
         image_to_string w file_path
       else
         raw ← textract_process w file_path;
         mret (decode_utf8_ignore w raw))
      (λ e, Raise (Exn "ValueError"
               ("Unsupported file type or extraction error: " +:+ exn_str e))).

(** *** tools.py, lines 105-140 *)

Definition error_result (message : string) : dict :=
  {[ "status" := "error"; "message" := message ]}.

Definition success_result (n : nat) : dict :=
  {[ "status" := "success";
     "message" := "Document added with " +:+ pretty n +:+ " chunks" ]}.

(** One element of the list comprehension of lines 127-134: the
    identifier is drawn first, then the chunk is embedded. *)
Definition make_point (file_path chunk : string) : M Point :=
  t ← tick;
  resp ← genai_embed_content (EMBED_MODEL w) chunk None;
  embedding ← getitem resp "embedding";
  mret {| pt_id := uuid4 w t;
          pt_vector := embedding;
          pt_payload := {[ "text" := chunk; "file_path" := file_path ]} |}.

(** Lines 122-137, what follows the scoped delete. *)
Definition ingest_steps (file_path : string) : M dict :=
  text ← lift (extract_text file_path);
  if decide (strip text = "")
  then mret (error_result "No text extracted from the file")
  else
    emit (Split text);;
    chunks ← lift (split_text w (CHUNK_SIZE w) (CHUNK_OVERLAP w) text);
    pts ← mapM (make_point file_path) chunks;
    client_upsert (COLLECTION_NAME w) pts;;
    mret (success_result (length pts)).

(** Lines 113-121, the scoped delete. *)
Definition scoped_delete (file_path : string) (overwrite : bool) : M unit :=
  if overwrite
  then client_delete (COLLECTION_NAME w) "file_path" file_path
  else mret tt.

Definition create_embeddings (file_path : string) (overwrite : bool) : M dict :=
  if negb (path_exists w file_path)
  then mret (error_result "File not found")
  else
    try_except
      (scoped_delete file_path overwrite;;
       ingest_steps file_path)
      (λ e, mret (error_result (exn_str e))).

End Tools.

(** ** A small world to run the code on *)

Definition demo_files : list (string * string) :=
  [ ("a.txt", "alpha"); ("b.txt", "beta"); ("blank.txt", "  " +:+ newline) ].

Definition demo_world : World := {|
  COLLECTION_NAME := "gemini-embeddings";
  EMBED_MODEL := "models/embedding-001";
  CHUNK_SIZE := 800;
  CHUNK_OVERLAP := 160;
  path_exists := λ p,
    bool_decide (p ∈ ["a.txt"; "b.txt"; "blank.txt"; "two.pdf"; "bad.pdf"]);
  magic_from_file := λ p,
    if bool_decide (p ∈ ["two.pdf"; "bad.pdf"])
    then Ok "application/pdf" else Ok "text/plain";
  PdfReader_pages := λ p,
    if bool_decide (p = "two.pdf") then Ok [Ok (Some "a"); Ok (Some "b")]
    else Ok [Ok (Some "a"); Raise (Exn "PdfReadError" "broken stream")];
  docx2txt_process := λ _, Ok "";
  image_to_string := λ _, Ok "";
  textract_process := λ p,
    match (list_to_map demo_files : gmap string string) !! p with
    | Some content => Ok (String.list_byte_of_string content)
    | None => Raise (Exn "ShellError" "no such file")
    end;
  decode_utf8_ignore := String.string_of_list_byte;
  split_text := λ _ _ text, Ok [text];
  embed_content := λ _ _ _ _, Ok {[ "embedding" := [1%Z; 2%Z] ]};
  uuid4 := λ t, "uuid-" +:+ pretty t;
  qdrant_fault := λ _ _, None;
  nearest := λ _ _ _ _, [];
|}.

(** [w] with other remote services. *)
Definition with_services (w : World)
    (embed : nat → string → string → option string → result (gmap string vector))
    (fault : nat → Request → option exn) : World := {|
  COLLECTION_NAME := COLLECTION_NAME w;
  EMBED_MODEL := EMBED_MODEL w;
  CHUNK_SIZE := CHUNK_SIZE w;
  CHUNK_OVERLAP := CHUNK_OVERLAP w;
  path_exists := path_exists w;
  magic_from_file := magic_from_file w;
  PdfReader_pages := PdfReader_pages w;
  docx2txt_process := docx2txt_process w;
  image_to_string := image_to_string w;
  textract_process := textract_process w;
  decode_utf8_ignore := decode_utf8_ignore w;
  split_text := split_text w;
  embed_content := embed;
  uuid4 := uuid4 w;
  qdrant_fault := fault;
  nearest := nearest w;
|}.

(** The embedding service is down. *)
Definition embed_down_world : World :=
  with_services demo_world
    (λ _ _ _ _, Raise (Exn "ServiceUnavailable" "503 backend down"))
    (qdrant_fault demo_world).

(** The store refuses every upsert and every query. *)
Definition store_down_world : World :=
  with_services demo_world
    (embed_content demo_world)
    (λ _ r,
       match r with
       | Upsert _ _ | QueryPoints _ _ _ =>
           Some (Exn "ResponseHandlingException" "timed out")
       | _ => None
       end).

Definition demo_point (id text file_path : string) : Point :=
  {| pt_id := id; pt_vector := [1%Z; 2%Z];
     pt_payload := {[ "text" := text; "file_path" := file_path ]} |}.

Definition demo_collection : Collection := {|
  vec_size := 768;
  vec_distance := COSINE;
  payload_schema := {[ "file_path" := KEYWORD ]};
  points := {[ "id-a" := demo_point "id-a" "old alpha" "a.txt";
               "id-b" := demo_point "id-b" "beta" "b.txt" ]};
|}.

Definition demo_state : State := {|
  qdrant := {[ "gemini-embeddings" := demo_collection ]};
  clock := 0;
  trace := [];
|}.

Definition empty_state : State := {| qdrant := ∅; clock := 0; trace := [] |}.

(** The points of the pipeline's collection. *)
Definition points_of (w : World) (s : State) : gmap string Point :=
  match qdrant s !! COLLECTION_NAME w with
  | Some c => points c
  | None => ∅
  end.

(** The points indexed for one source path. *)
Definition points_for (w : World) (file_path : string) (s : State)
    : gmap string Point :=
  filter (λ kv, matches "file_path" file_path kv.2) (points_of w s).

(** The state once request [r] has been sent. *)
Definition sent (s : State) (r : Request) : State :=
  {| qdrant := qdrant s; clock := S (clock s); trace := trace s ++ [Qdrant r] |}.

Definition with_store (s : State) (q : gmap string Collection) : State :=
  {| qdrant := q; clock := clock s; trace := trace s |}.

(** The payload line 131 gives a chunk. *)
Definition chunk_payload (file_path chunk : string) : dict :=
  {[ "text" := chunk; "file_path" := file_path ]}.

(** What a call added to the trace. *)
Definition issued (s s' : State) (evs : list Event) : Prop :=
  trace s' = trace s ++ evs.

(** [uuid.uuid4()] is taken to hand out identifiers that are not in use:
    none of those it may still produce is the identifier of a stored
    point. *)
Definition fresh_ids (w : World) (s : State) : Prop :=
  ∀ t, clock s ≤ t → points_of w s !! uuid4 w t = None.

(** ... and never the same one twice. *)
Definition distinct_ids (w : World) : Prop :=
  ∀ t1 t2, uuid4 w t1 = uuid4 w t2 → t1 = t2.

(** The collection is there and has an index on [file_path]. *)
Definition provisioned (w : World) (s : State) : Prop :=
  ∃ c, qdrant s !! COLLECTION_NAME w = Some c ∧
       is_Some (payload_schema c !! "file_path").

(** ** More names for what the calls send and leave *)
(** What line 77 makes of a retrieved point that has a payload. *)
Definition entry_of (p : ScoredPoint) : dict :=
  {[ "text" := default "" (default ∅ (sp_payload p) !! "text") ]}.

(** The request line 130 sends for a chunk. *)
Definition embed_event (w : World) (chunk : string) : Event :=
  Embed (EMBED_MODEL w) chunk None.

(** What lines 122-126 leave behind when the splitter is called. *)
Definition split_state (s : State) (text : string) : State :=
  {| qdrant := qdrant s; clock := clock s; trace := trace s ++ [Split text] |}.

(** The delete request of lines 113-121, when [overwrite] asks for it. *)
Definition delete_prefix (w : World) (file_path : string) (overwrite : bool)
    : list Event :=
  if overwrite
  then [Qdrant (Delete (COLLECTION_NAME w) "file_path" file_path)]
  else [].

(** What the scoped delete leaves of the stored points. *)
Definition kept_points (file_path : string) (overwrite : bool)
    (m : gmap string Point) : gmap string Point :=
  if overwrite then delete_points "file_path" file_path m else m.

(** The back end that lines 90-100 pick for [mime] raises [e0]. *)
Definition backend_raises (w : World) (file_path mime : string) (e0 : exn)
    : Prop :=
  if bool_decide (mime = "application/pdf") then
    PdfReader_pages w file_path = Raise e0 ∨
    ∃ before after,
      PdfReader_pages w file_path = Ok (map Ok before ++ Raise e0 :: after)
  else if bool_decide (mime ∈ word_mimes) then
    docx2txt_process w file_path = Raise e0
  else if String.prefix "image/" mime then
    image_to_string w file_path = Raise e0
  else
    textract_process w file_path = Raise e0.

(** A world whose index ranks two points: one with a text, one whose
    payload has no "text" key. *)
Definition ranked_world : World := {|
  COLLECTION_NAME := COLLECTION_NAME demo_world;
  EMBED_MODEL := EMBED_MODEL demo_world;
  CHUNK_SIZE := CHUNK_SIZE demo_world;
  CHUNK_OVERLAP := CHUNK_OVERLAP demo_world;
  path_exists := path_exists demo_world;
  magic_from_file := magic_from_file demo_world;
  PdfReader_pages := PdfReader_pages demo_world;
  docx2txt_process := docx2txt_process demo_world;
  image_to_string := image_to_string demo_world;
  textract_process := textract_process demo_world;
  decode_utf8_ignore := decode_utf8_ignore demo_world;
  split_text := split_text demo_world;
  embed_content := embed_content demo_world;
  uuid4 := uuid4 demo_world;
  qdrant_fault := qdrant_fault demo_world;
  nearest := λ _ _ _ _,
    [ {| sp_id := "id-a";
         sp_payload := Some {[ "text" := "old alpha"; "file_path" := "a.txt" ]} |};
      {| sp_id := "id-x"; sp_payload := Some {[ "file_path" := "x.txt" ]} |} ];
|}.

(** ** tools.py, lines 143-166: the live web search *)

(** The names tools.py binds at module level: the imports of lines
    1-17, the assignments of lines 24-38 and the functions. *)
Definition tools_globals : list string :=
  [ "os"; "logging"; "requests"; "load_dotenv"; "genai";
    "List"; "Dict"; "Union"; "QdrantClient";
    "Distance"; "VectorParams"; "PointStruct"; "Filter"; "FieldCondition";
    "MatchValue"; "PayloadSchemaType"; "MarkdownTextSplitter"; "magic";
    "docx2txt"; "Image"; "pytesseract"; "textract"; "uuid"; "function_tool";
    "PyPDF2";
    "GEMINI_API_KEY"; "QDRANT_URL"; "QDRANT_API_KEY"; "COLLECTION_NAME";
    "EMBED_MODEL"; "CHUNK_SIZE"; "CHUNK_OVERLAP"; "qdrant_client";
    "create_collection"; "qdrant_search"; "extract_text"; "create_embeddings";
    "search_everything" ].

(** Reading a global name that is neither bound in the module nor a
    builtin. *)
Definition load_global (name : string) : result unit :=
  if bool_decide (name ∈ tools_globals) then Ok tt
  else Raise (Exn "NameError" ("name '" +:+ name +:+ "' is not defined")).

(** A decoded JSON value. *)
#[local] Set Warnings "-register-all".
Inductive json :=
  | JNull
  | JBool (b : bool)
  | JInt (n : Z)
  | JStr (s : string)
  | JList (l : list json)
  | JDict (d : list (string * json)).

(** What [requests.post] hands back: [raise_for_status()] and [json()]. *)
Record Response := {
  raise_for_status : option exn;
  json_body : result json;
}.

Record Web := {
  (** [os.getenv] *)
  getenv : string → option string;
  (** [requests.post(url, json=payload, timeout=5)] *)
  requests_post : string → list (string * json) → Z → result Response;
  (** [isinstance(e, requests.exceptions.RequestException)] *)
  is_RequestException : exn → bool;
}.

Fixpoint json_get (key : string) (d : list (string * json)) : option json :=
  match d with
  | [] => None
  | (k, v) :: d' => if decide (k = key) then Some v else json_get key d'
  end.

Definition no_attribute {A} (type attr : string) : result A :=
  Raise (Exn "AttributeError"
             ("'" +:+ type +:+ "' object has no attribute '" +:+ attr +:+ "'")).

Definition type_name (v : json) : string :=
  match v with
  | JNull => "NoneType" | JBool _ => "bool" | JInt _ => "int"
  | JStr _ => "str" | JList _ => "list" | JDict _ => "dict"
  end.

(** [v.get(key, default)] *)
Definition py_get (v : json) (key : string) (default : json) : result json :=
  match v with
  | JDict d => Ok (from_option id default (json_get key d))
  | _ => no_attribute (type_name v) "get"
  end.

(** [v.strip()] *)
Definition py_strip (v : json) : result string :=
  match v with
  | JStr s => Ok (strip s)
  | _ => no_attribute (type_name v) "strip"
  end.

(** [for item in v] *)
Definition py_iter (v : json) : result (list json) :=
  match v with
  | JList l => Ok l
  | JDict d => Ok (map (λ kv, JStr kv.1) d)
  | JStr s => Ok (map (λ c, JStr (String c EmptyString)) (list_ascii_of_string s))
  | _ => Raise (Exn "TypeError"
                    ("'" +:+ type_name v +:+ "' object is not iterable"))
  end.

(** [try: r except requests.exceptions.RequestException as e: h e] *)
Definition try_request (net : Web) {A} (r : result A) (h : exn → result A)
    : result A :=
  match r with
  | Ok a => Ok a
  | Raise e => if is_RequestException net e then h e else Raise e
  end.

(** Lines 158-161, one element of the comprehension. *)
Definition search_item (item : json) : result dict :=
  title ← py_get item "title" (JStr "");
  title ← py_strip title;
  content ← py_get item "content" (JStr "");
  snippet ← py_strip content;
  mret ({[ "title" := title; "snippet" := snippet ]} : dict).

(** The tool returns a list of results or one error dictionary. *)
Definition search_everything (net : Web) (query : string)
    : result (list dict + dict) :=
  (* start_time = time.time() *)
  load_global "time";;
  match getenv net "TAVILY_API_KEY" with
  | None | Some "" =>
      Ok (inr {[ "error" := "No API key provided for search" ]})
  | Some api_key =>
      try_request net
        (resp ← requests_post net "https://api.tavily.com/search"
                  [ ("api_key", JStr api_key); ("query", JStr query);
                    ("search_depth", JStr "basic"); ("max_results", JInt 5) ]
                  5;
         match raise_for_status resp with
         | Some e => Raise e
         | None =>
             data ← json_body resp;
             found ← py_get data "results" (JList []);
             items ← py_iter found;
             results ← mapM search_item items;
             (* the log line reads time.time() again *)
             load_global "time";;
             mret (inl results)
         end)
        (λ e, Ok (inr {[ "error" := "Search failed: " +:+ exn_str e ]}))
  end.

(** ** main.py: the user profile and its tools

    The tools receive the profile as [wrapper.context], one object
    shared by all calls of a run; a tool is a function from the profile
    to its reply and the profile afterwards.  Python's [repr] of a
    string is taken as given. *)
Module main_py.

(** [@dataclass class UserInfo]; [preferences] is a dictionary, which
    keeps its keys in the order they were first set. *)
Record UserInfo := {
  name : string;
  age : Z;
  location : string;
  interests : list string;
  preferences : list (string * string);
}.

(** [d[key] = value] *)
Fixpoint setitem (key value : string) (d : list (string * string))
    : list (string * string) :=
  match d with
  | [] => [(key, value)]
  | (k, v) :: d' =>
      if decide (k = key) then (k, value) :: d'
      else (k, v) :: setitem key value d'
  end.

(** [d.get(key)] *)
Fixpoint getitem (key : string) (d : list (string * string)) : option string :=
  match d with
  | [] => None
  | (k, v) :: d' => if decide (k = key) then Some v else getitem key d'
  end.

(** [str(l)] for a list of strings and [str(d)] for a dictionary. *)
Definition str_list (repr : string → string) (l : list string) : string :=
  "[" +:+ String.concat ", " (map repr l) +:+ "]".

Definition str_dict (repr : string → string) (d : list (string * string))
    : string :=
  "{" +:+ String.concat ", " (map (λ kv, repr kv.1 +:+ ": " +:+ repr kv.2) d)
  +:+ "}".

(** Lines 22-33 *)
Definition get_user_info (repr : string → string) (u : UserInfo)
    : string * UserInfo :=
  ("User Info:" +:+ newline +:+
   "- Name: " +:+ name u +:+ newline +:+
   "- Age: " +:+ pretty (age u) +:+ newline +:+
   "- Location: " +:+ location u +:+ newline +:+
   "- Interests: " +:+ str_list repr (interests u) +:+ newline +:+
   "- Preferences: " +:+ str_dict repr (preferences u),
   u).

(** Lines 35-38 *)
Definition set_user_name (name' : string) (u : UserInfo) : string * UserInfo :=
  ("Okay, I’ll remember that your name is " +:+ name' +:+ ".",
   {| name := name'; age := age u; location := location u;
      interests := interests u; preferences := preferences u |}).

(** Lines 40-43 *)
Definition set_user_age (age' : Z) (u : UserInfo) : string * UserInfo :=
  ("Got it—your age is now set to " +:+ pretty age' +:+ ".",
   {| name := name u; age := age'; location := location u;
      interests := interests u; preferences := preferences u |}).

(** Lines 45-48 *)
Definition set_user_location (location' : string) (u : UserInfo)
    : string * UserInfo :=
  ("Sure—your location is now " +:+ location' +:+ ".",
   {| name := name u; age := age u; location := location';
      interests := interests u; preferences := preferences u |}).

(** Lines 50-53: [interests.append(interest)] *)
Definition add_user_interest (interest : string) (u : UserInfo)
    : string * UserInfo :=
  ("Added interest: " +:+ interest +:+ ".",
   {| name := name u; age := age u; location := location u;
      interests := interests u ++ [interest]; preferences := preferences u |}).

(** Lines 55-58: [preferences[key] = value] *)
Definition set_user_preference (key value : string) (u : UserInfo)
    : string * UserInfo :=
  ("Set preference " +:+ key +:+ " to " +:+ value +:+ ".",
   {| name := name u; age := age u; location := location u;
      interests := interests u;
      preferences := setitem key value (preferences u) |}).

(** Lines 65-71, and line 18 of ui.py *)
Definition default_user_info : UserInfo :=
  {| name := "Unknown"; age := 0; location := "Unknown";
     interests := []; preferences := [] |}.

(** An invocation of one of the six tools, as the agent decides it. *)
Inductive ToolCall :=
  | GetUserInfo
  | SetUserName (name' : string)
  | SetUserAge (age' : Z)
  | SetUserLocation (location' : string)
  | AddUserInterest (interest : string)
  | SetUserPreference (key value : string).

Definition call (repr : string → string) (c : ToolCall) (u : UserInfo)
    : string * UserInfo :=
  match c with
  | GetUserInfo => get_user_info repr u
  | SetUserName n => set_user_name n u
  | SetUserAge a => set_user_age a u
  | SetUserLocation l => set_user_location l u
  | AddUserInterest i => add_user_interest i u
  | SetUserPreference k v => set_user_preference k v u
  end.

(** The profile after a run of calls on the same object. *)
Definition run_calls (repr : string → string) (cs : list ToolCall)
    (u : UserInfo) : UserInfo :=
  foldl (λ u c, (call repr c u).2) u cs.

Definition names_set (cs : list ToolCall) : list string :=
  omap (λ c, match c with SetUserName n => Some n | _ => None end) cs.
Definition ages_set (cs : list ToolCall) : list Z :=
  omap (λ c, match c with SetUserAge a => Some a | _ => None end) cs.
Definition locations_set (cs : list ToolCall) : list string :=
  omap (λ c, match c with SetUserLocation l => Some l | _ => None end) cs.
Definition interests_added (cs : list ToolCall) : list string :=
  omap (λ c, match c with AddUserInterest i => Some i | _ => None end) cs.
Definition values_set (key : string) (cs : list ToolCall) : list string :=
  omap (λ c, match c with
             | SetUserPreference k v => if decide (k = key) then Some v else None
             | _ => None
             end) cs.

End main_py.

(** ** main.py, lines 61-177: [agentic_system] *)

(** The three agents line 75-175 build; no code reads their prompts. *)
Inductive Agent := RagAssistant | LiveSearchAssistant | OrchestrationAssistant.

Definition agent_name (a : Agent) : string :=
  match a with
  | RagAssistant => "RAG Assistant"
  | LiveSearchAssistant => "Live Search Assistant"
  | OrchestrationAssistant => "Orchestration Assistant"
  end.

Definition agent_tools (a : Agent) : list string :=
  match a with
  | RagAssistant => ["create_embeddings"; "qdrant_search"]
  | LiveSearchAssistant => ["search_everything"]
  | OrchestrationAssistant =>
      ["get_user_info"; "set_user_name"; "set_user_age"; "set_user_location";
       "add_user_interest"; "set_user_preference"]
  end.

Definition agent_handoffs (a : Agent) : list Agent :=
  match a with
  | OrchestrationAssistant => [RagAssistant; LiveSearchAssistant]
  | _ => []
  end.

(** The collection is provisioned first (line 63, outside any [try]);
    then the profile and the agents are built anew. *)
Definition agentic_system (w : World)
    : M (Agent * main_py.UserInfo * Agent * Agent) :=
  create_collection w;;
  mret (OrchestrationAssistant, main_py.default_user_info,
        RagAssistant, LiveSearchAssistant).

(** ** ui.py: the chat handlers *)
Module ui_py.

(** An attachment of a message: [isinstance(element, cl.File)], its
    [name], [content] and [path]. *)
Record Element := {
  is_File : bool;
  el_name : string;
  el_content : option (list Byte.byte);
  el_path : string;
}.

(** [cl.Message] as the handler receives it. *)
Record Message := {
  content : string;
  elements : list Element;
}.

(** An event of [response.stream_events()]: its [type], and
    [event.data.delta] when [event.data] has one. *)
Record StreamEvent := {
  ev_type : string;
  ev_delta : option string;
}.

(** What the handlers do not decide themselves. *)
Record Desk := {
  (** [os.path.abspath(r"C:\temp_uploads")] *)
  temp_dir : string;
  (** [os.path.join] *)
  path_join : string → string → string;
  (** [os.makedirs(temp_dir, exist_ok=True)] *)
  makedirs : nat → string → option exn;
  (** lines 39-44: writing [element.content], or copying [element.path],
      to the destination *)
  save_upload : nat → string → Element → option exn;
  (** a failure of [cl.Message.send] or [update] *)
  transport : nat → option exn;
  (** [Runner.run_streamed(agent, input, context)] and the events of
      its stream, with what the run does to the vector store *)
  run_streamed :
    nat → Agent → list dict → main_py.UserInfo → State →
    result (list StreamEvent) * State;
  (** [isinstance(e, cls)] *)
  isinstance : exn → string → bool;
}.

(** The session, the messages on the screen, and the vector store. *)
Record Chat := {
  chat_history : option (list dict);
  user_info : option main_py.UserInfo;
  screen : list string;
  ticks : nat;
  store : State;
}.

Definition UI (A : Type) : Type := Chat → result A * Chat.

Definition ret {A} (a : A) : UI A := λ c, (Ok a, c).
Definition bind {A B} (m : UI A) (f : A → UI B) : UI B := λ c,
  match m c with
  | (Ok a, c') => f a c'
  | (Raise e, c') => (Raise e, c')
  end.
Definition fail {A} (e : exn) : UI A := λ c, (Raise e, c).

(** [try: m except Exception as e: h e] *)
Definition try_ {A} (m : UI A) (h : exn → UI A) : UI A := λ c,
  match m c with
  | (Ok a, c') => (Ok a, c')
  | (Raise e, c') => h e c'
  end.

Definition tick_ui : UI nat := λ c,
  (Ok (ticks c),
   {| chat_history := chat_history c; user_info := user_info c;
      screen := screen c; ticks := S (ticks c); store := store c |}).

(** A computation on the vector store, run inside the handler. *)
Definition on_store {A} (m : M A) : UI A := λ c,
  let '(r, s) := m (store c) in
  (r, {| chat_history := chat_history c; user_info := user_info c;
         screen := screen c; ticks := ticks c; store := s |}).

Definition set_chat_history (h : list dict) : UI unit := λ c,
  (Ok tt, {| chat_history := Some h; user_info := user_info c;
             screen := screen c; ticks := ticks c; store := store c |}).


Definition set_screen (l : list string) : UI unit := λ c,
  (Ok tt, {| chat_history := chat_history c; user_info := user_info c;
             screen := l; ticks := ticks c; store := store c |}).

Section Handlers.
Context (w : World) (d : Desk).

Notation "x ← m ; k" := (bind m (λ x, k))
  (at level 20, m at level 100, k at level 200, only parsing).
Notation "m ;; k" := (bind m (λ _, k))
  (at level 100, k at level 200, right associativity, only parsing).

(** [msg = await cl.Message(content=...).send()]: the message appears at
    the end of the screen; its place is the handle. *)
Definition send (text : string) : UI nat :=
  t ← tick_ui;
  match transport d t with
  | Some e => fail e
  | None => λ c, (set_screen (screen c ++ [text]);; ret (length (screen c))) c
  end.

(** [msg.content = text; await msg.update()] *)
Definition update (msg : nat) (text : string) : UI unit :=
  t ← tick_ui;
  match transport d t with
  | Some e => fail e
  | None => λ c, set_screen (<[msg := text]> (screen c)) c
  end.


(** [history.append(entry)]: when the list came out of the session it is
    the session's own list that grows. *)
Definition append_history (aliased : bool) (history : list dict) (entry : dict)
    : UI (list dict) :=
  if aliased
  then set_chat_history (history ++ [entry]);; ret (history ++ [entry])
  else ret (history ++ [entry]).

(** Lines 34-50: the attachments, in order.  [inr] is the text with the
    markers of the saved files; [inl] means the handler has returned
    after telling the user which file could not be saved. *)
Fixpoint save_elements (temp : string) (els : list Element)
    (full_content : string) : UI (unit + string) :=
  match els with
  | [] => ret (inr full_content)
  | element :: els' =>
      if is_File element then
        let dest_path := path_join d temp (el_name element) in
        t ← tick_ui;
        match save_upload d t dest_path element with
        | None =>
            save_elements temp els'
              (full_content +:+ " [Attachment: '" +:+ dest_path +:+ "']")
        | Some e =>
            send ("Error saving file " +:+ el_name element +:+ ": "
                  +:+ exn_str e);;
            ret (inl tt)
        end
      else save_elements temp els' full_content
  end.

(** Lines 29-50 *)
Definition uploads (message : Message) : UI (unit + string) :=
  match elements message with
  | [] => ret (inr (content message))
  | els =>
      t ← tick_ui;
      match makedirs d t (temp_dir d) with
      | Some e => fail e
      | None => save_elements (temp_dir d) els (content message)
      end
  end.

(** The text the stream adds up to (lines 73-76). *)
Definition full_response (events : list StreamEvent) : string :=
  foldl (λ acc event,
           if bool_decide (ev_type event = "raw_response_event")
           then match ev_delta event with
                | Some delta => acc +:+ delta
                | None => acc
                end
           else acc)
        "" events.

Definition sorry_connection : string :=
  "Sorry, there was an issue connecting to the AI service. Please try again later.".
Definition sorry_rephrase : string :=
  "Sorry, I couldn’t process that request. Could you try rephrasing it?".
Definition sorry_generic : string :=
  "An error occurred. Please try again later.".

(** Lines 59-78, the body of the [try]; the result is [msg.content].
    The local [user_info], read from the session at line 26, is bound
    anew at line 64; the check of line 62 holds of every value
    [agentic_system] returns. *)
Definition respond (msg : nat) (history : list dict)
    (user_info : option main_py.UserInfo) : UI string :=
  result ← on_store (agentic_system w);
  let '(orchestration_agent, user_info, rag_agent, live_search_agent) := result in
  t ← tick_ui;
  events ← on_store (λ s, run_streamed d t orchestration_agent history user_info s);
  update msg (full_response events);;
  ret (full_response events).

(** The text the [except] clauses of lines 81-94 choose for [e]. *)
Definition apology (e : exn) : string :=
  if isinstance d e "litellm.exceptions.InternalServerError" then
    sorry_connection
  else if isinstance d e "ModelBehaviorError" then sorry_rephrase
  else sorry_generic.

(** Lines 81-94, the three [except] clauses. *)
Definition apologise (msg : nat) (e : exn) : UI string :=
  if isinstance d e "litellm.exceptions.InternalServerError" then
    update msg sorry_connection;; ret sorry_connection
  else if isinstance d e "ModelBehaviorError" then
    update msg sorry_rephrase;; ret sorry_rephrase
  else
    update msg sorry_generic;; ret sorry_generic.

(** ui.py, lines 22-100 *)
Definition main (message : Message) : UI unit :=
  λ c,
  (let aliased := bool_decide (is_Some (chat_history c)) in
   let history := default [] (chat_history c) in
   let user_info := user_info c in
   saved ← uploads message;
   match saved with
   | inl _ => ret tt
   | inr full_content =>
       history ← append_history aliased history
                   {[ "role" := "user"; "content" := full_content ]};
       msg ← send "Processing your request...";
       reply ← try_ (respond msg history user_info) (apologise msg);
       history ← append_history aliased history
                   {[ "role" := "assistant"; "content" := reply ]};
       set_chat_history history
   end) c.

(** The markers line 46 adds for the attachments that are files. *)
Definition attachment_markers (els : list Element) : string :=
  String.concat ""
    (map (λ element,
            " [Attachment: '" +:+ path_join d (temp_dir d) (el_name element)
            +:+ "']")
         (filter (λ element, is_File element = true) els)).

(** The deltas [full_response] is made of. *)
Definition deltas (events : list StreamEvent) : list string :=
  omap (λ event,
          if bool_decide (ev_type event = "raw_response_event")
          then ev_delta event else None)
       events.

End Handlers.

(** An entry of the history (lines 52 and 98). *)
Definition chat_entry (role text : string) : dict :=
  {[ "role" := role; "content" := text ]}.

(** The attachments that are files. *)
Definition files (els : list Element) : list Element :=
  filter (λ element, is_File element = true) els.

(** The oracle calls lines 31-46 make when every file is saved: one for
    [makedirs], one for each file. *)
Definition upload_ticks (message : Message) : nat :=
  match elements message with
  | [] => 0
  | els => S (length (files els))
  end.

(** A desk with another runner. *)
Definition with_runner
    (run : nat → Agent → list dict → main_py.UserInfo → State →
           result (list StreamEvent) * State)
    (d : Desk) : Desk := {|
  temp_dir := temp_dir d;
  path_join := path_join d;
  makedirs := makedirs d;
  save_upload := save_upload d;
  transport := transport d;
  run_streamed := run;
  isinstance := isinstance d;
|}.

(** A desk whose runner is handed the default profile whatever the
    caller passes. *)
Definition with_default_context (d : Desk) : Desk :=
  with_runner (λ t _ history _ s,
                 run_streamed d t OrchestrationAssistant history
                              main_py.default_user_info s) d.

(** The session with another profile in it. *)
Definition put_profile (u : option main_py.UserInfo) (c : Chat) : Chat :=
  {| chat_history := chat_history c; user_info := u;
     screen := screen c; ticks := ticks c; store := store c |}.

(** *** A small desk to run the handlers on *)

(** A stream: two deltas, a raw event without one, and an event of
    another type. *)
Definition demo_events : list StreamEvent :=
  [ {| ev_type := "raw_response_event"; ev_delta := Some "The report " |};
    {| ev_type := "raw_response_event"; ev_delta := None |};
    {| ev_type := "run_item_stream_event"; ev_delta := Some "tool output" |};
    {| ev_type := "raw_response_event"; ev_delta := Some "is short." |} ].

Definition desk_of
    (save : nat → string → Element → option exn)
    (sending : nat → option exn)
    (run : nat → Agent → list dict → main_py.UserInfo → State →
           result (list StreamEvent) * State)
    : Desk := {|
  temp_dir := "C:\temp_uploads";
  path_join := λ dir file, dir +:+ "\" +:+ file;
  makedirs := λ _ _, None;
  save_upload := save;
  transport := sending;
  run_streamed := run;
  isinstance := λ e cls, bool_decide (exn_class e = cls);
|}.

(** Everything works. *)
Definition demo_desk : Desk :=
  desk_of (λ _ _ _, None) (λ _, None) (λ _ _ _ _ s, (Ok demo_events, s)).

(** One file cannot be written. *)
Definition locked_desk : Desk :=
  desk_of (λ _ _ element,
             if bool_decide (el_name element = "locked.pdf")
             then Some (Exn "PermissionError" "[Errno 13] Permission denied")
             else None)
          (λ _, None) (λ _ _ _ _ s, (Ok demo_events, s)).

(** No message reaches the user. *)
Definition offline_desk : Desk :=
  desk_of (λ _ _ _, None)
          (λ _, Some (Exn "ConnectionError" "connection lost"))
          (λ _ _ _ _ s, (Ok demo_events, s)).

(** The model misbehaves. *)
Definition failing_desk : Desk :=
  with_runner
    (λ _ _ _ _ s, (Raise (Exn "ModelBehaviorError" "Tool not found"), s))
    demo_desk.

Definition file_element (file : string) : Element :=
  {| is_File := true; el_name := file; el_content := Some [];
     el_path := "" |}.

Definition demo_message : Message :=
  {| content := "What does the report say?";
     elements := [ file_element "report.pdf";
                   {| is_File := false; el_name := "plot";
                      el_content := None; el_path := "" |} ] |}.

Definition locked_message : Message :=
  {| content := "Add these";
     elements := [ file_element "report.pdf"; file_element "locked.pdf";
                   file_element "notes.txt" ] |}.

(** A session after one exchange, with a profile that is not the
    default one. *)
Definition demo_chat : Chat :=
  {| chat_history := Some [chat_entry "user" "Hi"; chat_entry "assistant" "Hello!"];
     user_info :=
       Some {| main_py.name := "Ada"; main_py.age := 36;
               main_py.location := "London"; main_py.interests := ["engines"];
               main_py.preferences := [("units", "metric")] |};
     screen := ["Hello! I'm your AI assistant. Upload documents or ask for real-time info!";
                "Hello!"];
     ticks := 4;
     store := empty_state |}.

End ui_py.

(** A world whose vector store cannot be reached at all. *)
Definition unreachable_world : World :=
  with_services demo_world
    (embed_content demo_world)
    (λ _ _, Some (Exn "ResponseHandlingException" "connection refused")).

(** ** Auxiliary facts *)

Section Strip.

Lemma rstrip_empty_iff s : rstrip s = "" ↔ all_space s = true.
Proof.
  destruct s as [|b s]; [done|].
  cbn [rstrip]. by destruct (all_space (String b s)).
Qed.

Lemma all_space_lstrip_upto n s :
  String.length s ≤ n → all_space (lstrip s) = all_space s.
Proof.
  revert s. induction n as [n H] using lt_wf_ind. intros s Hlen.
  destruct s as [|b1 s1]; [done|].
  cbn [lstrip all_space].
  destruct (space_code (code1 b1)) eqn:H1.
  { simpl in Hlen. apply (H (String.length s1)); lia. }
  destruct s1 as [|b2 s2].
  { cbn [all_space]. by rewrite H1. }
  destruct (space_code (code2 b1 b2)) eqn:H2.
  { simpl in Hlen. apply (H (String.length s2)); lia. }
  destruct s2 as [|b3 s3].
  { cbn [all_space]. by rewrite H1, H2. }
  destruct (space_code (code3 b1 b2 b3)) eqn:H3.
  { simpl in Hlen. rewrite andb_true_l. apply (H (String.length s3)); lia. }
  cbn [all_space]. by rewrite H1, H2, H3.
Qed.

Lemma all_space_lstrip s : all_space (lstrip s) = all_space s.
Proof. by apply (all_space_lstrip_upto (String.length s)). Qed.

Lemma strip_empty_iff s : strip s = "" ↔ all_space s = true.
Proof. unfold strip. by rewrite rstrip_empty_iff, all_space_lstrip. Qed.

(** White space beyond ASCII: an ideographic space and an em space are
    stripped; the byte 160 alone, which encodes no code point, is not. *)
Lemma strip_unicode_space :
  all_space ("　" +:+ " " +:+ " ") = true ∧
  strip (" " +:+ "x" +:+ "　") = "x" ∧
  all_space (String (ascii_of_N 160) "") = false.
Proof. vm_compute. done. Qed.

End Strip.

Section StoreFacts.

Lemma upsert_points_lookup_ne pts m id :
  id ∉ map pt_id pts → upsert_points pts m !! id = m !! id.
Proof.
  revert m. induction pts as [|p pts IH]; intros m Hid; simpl; [done|].
  apply not_elem_of_cons in Hid as [Hne Hid].
  rewrite (IH _ Hid). by apply lookup_insert_ne.
Qed.

Lemma delete_points_lookup key value m id :
  delete_points key value m !! id =
  match m !! id with
  | Some p => if decide (matches key value p) then None else Some p
  | None => None
  end.
Proof.
  unfold delete_points. rewrite map_lookup_filter.
  destruct (m !! id) as [p|]; simpl; [|done].
  case_decide; by rewrite ?option_guard_True, ?option_guard_False by tauto.
Qed.

(** Writing points with fresh, pairwise distinct identifiers that all
    satisfy [P] grows the [P]-part of the map by their number. *)
Lemma upsert_points_filter_size (P : string * Point → Prop)
    `{!∀ kv, Decision (P kv)} pts m :
  NoDup (map pt_id pts) →
  Forall (λ p, m !! pt_id p = None) pts →
  Forall (λ p, P (pt_id p, p)) pts →
  size (filter P (upsert_points pts m)) = size (filter P m) + length pts.
Proof.
  revert m. induction pts as [|p pts IH]; intros m Hnd Hfresh HP; simpl.
  { lia. }
  apply NoDup_cons in Hnd as [Hp Hnd].
  apply Forall_cons in Hfresh as [Hm Hfresh].
  apply Forall_cons in HP as [HPp HP].
  rewrite IH; [|done| |done].
  - rewrite map_filter_insert_True by done.
    rewrite map_size_insert_None; [lia|].
    apply map_lookup_filter_None. by left.
  - apply Forall_forall. intros q Hq.
    rewrite lookup_insert_ne.
    + by eapply Forall_forall in Hfresh.
    + intros Heq. apply Hp. rewrite Heq. by apply list_elem_of_fmap_2.
Qed.

End StoreFacts.

Section Runs.
Context (w : World).

Lemma bind_run {A B} (m : M A) (f : A → M B) s :
  (m ≫= f) s =
  match m s with
  | (Ok a, s') => f a s'
  | (Raise e, s') => (Raise e, s')
  end.
Proof. reflexivity. Qed.

Lemma request_run r s :
  request w r s =
  (match qdrant_fault w (clock s) r with
   | Some e => Raise e
   | None => Ok (clock s)
   end, sent s r).
Proof.
  unfold request, emit, tick. rewrite !bind_run. simpl.
  by destruct (qdrant_fault w (clock s) r).
Qed.

Lemma client_delete_run name key value s :
  client_delete w name key value s =
  match qdrant_fault w (clock s) (Delete name key value), qdrant s !! name with
  | Some e, _ => (Raise e, sent s (Delete name key value))
  | None, None =>
      (Raise (Exn "UnexpectedResponse"
                  ("Not found: Collection `" +:+ name +:+ "` doesn't exist!")),
       sent s (Delete name key value))
  | None, Some c =>
      (Ok tt,
       with_store (sent s (Delete name key value))
         (<[name := set_points c (delete_points key value (points c))]>
            (qdrant s)))
  end.
Proof.
  unfold client_delete. rewrite bind_run, request_run.
  destruct (qdrant_fault w (clock s) _); [done|].
  unfold get_store. rewrite bind_run. simpl.
  by destruct (qdrant s !! name).
Qed.

Lemma client_upsert_run name pts s :
  client_upsert w name pts s =
  match qdrant_fault w (clock s) (Upsert name pts), qdrant s !! name with
  | Some e, _ => (Raise e, sent s (Upsert name pts))
  | None, None =>
      (Raise (Exn "UnexpectedResponse"
                  ("Not found: Collection `" +:+ name +:+ "` doesn't exist!")),
       sent s (Upsert name pts))
  | None, Some c =>
      (Ok tt,
       with_store (sent s (Upsert name pts))
         (<[name := set_points c (upsert_points pts (points c))]> (qdrant s)))
  end.
Proof.
  unfold client_upsert. rewrite bind_run, request_run.
  destruct (qdrant_fault w (clock s) _); [done|].
  unfold get_store. rewrite bind_run. simpl.
  by destruct (qdrant s !! name).
Qed.

Lemma make_point_run file_path chunk s :
  make_point w file_path chunk s =
  (match embed_content w (S (clock s)) (EMBED_MODEL w) chunk None with
   | Ok resp =>
       match resp !! "embedding" with
       | Some v => Ok {| pt_id := uuid4 w (clock s); pt_vector := v;
                         pt_payload := chunk_payload file_path chunk |}
       | None => Raise (Exn "KeyError" "'embedding'")
       end
   | Raise e => Raise e
   end,
   {| qdrant := qdrant s; clock := S (S (clock s));
      trace := trace s ++ [Embed (EMBED_MODEL w) chunk None] |}).
Proof.
  unfold make_point, genai_embed_content, emit, tick, lift, getitem.
  rewrite !bind_run. simpl.
  destruct (embed_content w _ _ _ _) as [resp|e]; [|done].
  by destruct (resp !! "embedding").
Qed.

(** The list comprehension of lines 127-134. *)
Lemma make_points_run file_path chunks s r s' :
  mapM (make_point w file_path) chunks s = (r, s') →
  qdrant s' = qdrant s ∧ clock s ≤ clock s' ∧
  (∃ evs, issued s s' evs ∧ Forall (λ ev, is_index_op ev = false) evs) ∧
  ∀ pts, r = Ok pts →
    clock s' = clock s + 2 * length chunks ∧
    Forall2 (λ chunk p, pt_payload p = chunk_payload file_path chunk)
            chunks pts ∧
    map pt_id pts =
      map (λ i, uuid4 w (clock s + 2 * i)) (seq 0 (length chunks)).
Proof.
  revert s r s'. induction chunks as [|chunk chunks IH]; intros s r s' Hrun.
  - injection Hrun as <- <-. split_and!; [done|done| |].
    + exists []. unfold issued. by rewrite app_nil_r.
    + intros pts [= <-]. simpl. split_and!; [lia|constructor|done].
  - simpl in Hrun. rewrite bind_run, make_point_run in Hrun.
    set (s1 := {| qdrant := qdrant s; clock := S (S (clock s));
                  trace := trace s ++ [Embed (EMBED_MODEL w) chunk None] |})
      in Hrun.
    assert (issued s s1 [Embed (EMBED_MODEL w) chunk None]) as Hs1 by done.
    destruct (embed_content w _ _ _ _) as [resp|e]; cycle 1.
    { injection Hrun as <- <-. split_and!; [done|simpl; lia| |done].
      eexists. split; [exact Hs1|]. by repeat constructor. }
    destruct (resp !! "embedding") as [v|]; cycle 1.
    { injection Hrun as <- <-. split_and!; [done|simpl; lia| |done].
      eexists. split; [exact Hs1|]. by repeat constructor. }
    rewrite bind_run in Hrun.
    destruct (mapM (make_point w file_path) chunks s1) as [r1 s2] eqn:Hrest.
    apply IH in Hrest as (Hq & Hclk & (evs & Hevs & Hidx) & Hok).
    set (p := {| pt_id := uuid4 w (clock s); pt_vector := v;
                 pt_payload := chunk_payload file_path chunk |}) in Hrun.
    assert (s' = s2 ∧ r = match r1 with
                          | Ok k => Ok (p :: k) | Raise e => Raise e end)
      as [-> ->].
    { destruct r1; by injection Hrun as <- <-. }
    split_and!.
    + by rewrite Hq.
    + simpl in Hclk. lia.
    + exists (Embed (EMBED_MODEL w) chunk None :: evs). split.
      * unfold issued in *. rewrite Hevs. simpl. by rewrite <- app_assoc.
      * by constructor.
    + intros pts Hpts. destruct r1 as [k|]; [|done]. injection Hpts as <-.
      destruct (Hok k eq_refl) as (Hc & Hpay & Hids). split_and!.
      * rewrite Hc. simpl. lia.
      * by constructor.
      * simpl. rewrite Nat.add_0_r. f_equal.
        rewrite Hids, <- fmap_S_seq. simpl.
        rewrite <- list_fmap_compose. apply list_fmap_ext.
        intros _ i _. simpl. f_equal. lia.
Qed.

(** Lines 122-137 either stop early and leave the store as it was, or
    run to the upsert and return the success dictionary. *)
Lemma ingest_steps_run file_path s r s' :
  ingest_steps w file_path s = (r, s') →
  clock s ≤ clock s' ∧
  (∃ evs, issued s s' evs ∧
          Forall (λ ev, is_delete ev = false ∧ is_create ev = false) evs) ∧
  ((qdrant s' = qdrant s ∧
    ((∃ e, r = Raise e) ∨
     (∃ text, extract_text w file_path = Ok text ∧ strip text = "" ∧
              r = Ok (error_result "No text extracted from the file") ∧
              s' = s)))
   ∨
   (∃ text chunks pts c evs,
      extract_text w file_path = Ok text ∧ strip text ≠ "" ∧
      split_text w (CHUNK_SIZE w) (CHUNK_OVERLAP w) text = Ok chunks ∧
      Forall2 (λ chunk p, pt_payload p = chunk_payload file_path chunk)
              chunks pts ∧
      map pt_id pts =
        map (λ i, uuid4 w (clock s + 2 * i)) (seq 0 (length chunks)) ∧
      qdrant s !! COLLECTION_NAME w = Some c ∧
      qdrant s' =
        <[COLLECTION_NAME w := set_points c (upsert_points pts (points c))]>
          (qdrant s) ∧
      clock s' = S (clock s + 2 * length chunks) ∧
      issued s s'
        (Split text :: evs ++ [Qdrant (Upsert (COLLECTION_NAME w) pts)]) ∧
      Forall (λ ev, is_index_op ev = false) evs ∧
      r = Ok (success_result (length pts)))).
Proof.
  unfold ingest_steps, lift. rewrite bind_run.
  destruct (extract_text w file_path) as [text|e] eqn:Htext; cycle 1.
  { intros [= <- <-]. split_and!; [done| |left; eauto].
    exists []. split; [unfold issued; by rewrite app_nil_r|constructor]. }
  case_decide as Hstrip.
  { intros [= <- <-]. split_and!; [done| |left].
    - exists []. split; [unfold issued; by rewrite app_nil_r|constructor].
    - split; [done|]. right. by exists text. }
  rewrite bind_run. unfold emit at 1. simpl. rewrite bind_run.
  set (s1 := {| qdrant := qdrant s; clock := clock s;
                trace := trace s ++ [Split text] |}).
  destruct (split_text w _ _ text) as [chunks|e] eqn:Hsplit; cycle 1.
  { intros [= <- <-]. split_and!; [done| |left; eauto].
    exists [Split text]. split; [done|]. by repeat constructor. }
  rewrite bind_run.
  destruct (mapM (make_point w file_path) chunks s1) as [rp s2] eqn:Hloop.
  apply make_points_run in Hloop as (Hq & Hclk & (evs & Hevs & Hidx) & Hok).
  unfold issued in Hevs. simpl in Hq, Hclk, Hevs.
  assert (Forall (λ ev, is_delete ev = false ∧ is_create ev = false) evs)
    as Hevs'.
  { eapply Forall_impl; [exact Hidx|]. by intros []. }
  destruct rp as [pts|e]; cycle 1.
  { intros [= <- <-]. split_and!; [done| |left; eauto].
    exists (Split text :: evs). split.
    - unfold issued. rewrite Hevs. by rewrite <- app_assoc.
    - by constructor. }
  destruct (Hok pts eq_refl) as (Hc & Hpay & Hids). simpl in Hc, Hids.
  rewrite bind_run, client_upsert_run, Hq.
  destruct (qdrant_fault w _ _) as [e|].
  { intros [= <- <-]. split_and!; [simpl; lia| |left; eauto].
    exists (Split text :: evs ++ [Qdrant (Upsert (COLLECTION_NAME w) pts)]).
    split.
    - unfold issued. simpl. rewrite Hevs. by rewrite <- !app_assoc.
    - constructor; [done|]. apply Forall_app. split; [done|].
      by repeat constructor. }
  destruct (qdrant s !! COLLECTION_NAME w) as [c|] eqn:Hcoll; cycle 1.
  { intros [= <- <-]. split_and!; [simpl; lia| |left; eauto].
    exists (Split text :: evs ++ [Qdrant (Upsert (COLLECTION_NAME w) pts)]).
    split.
    - unfold issued. simpl. rewrite Hevs. by rewrite <- !app_assoc.
    - constructor; [done|]. apply Forall_app. split; [done|].
      by repeat constructor. }
  intros [= <- <-]. split_and!; [simpl; lia| |right].
  - exists (Split text :: evs ++ [Qdrant (Upsert (COLLECTION_NAME w) pts)]).
    split.
    + unfold issued. simpl. rewrite Hevs. by rewrite <- !app_assoc.
    + constructor; [done|]. apply Forall_app. split; [done|].
      by repeat constructor.
  - exists text, chunks, pts, c, evs. split_and!; try done.
    + simpl. lia.
    + unfold issued. simpl. rewrite Hevs. by rewrite <- !app_assoc.
Qed.

Lemma points_of_insert s c m q :
  qdrant s = <[COLLECTION_NAME w := set_points c m]> q → points_of w s = m.
Proof. unfold points_of. intros ->. by rewrite lookup_insert_eq. Qed.

Lemma points_of_lookup s c :
  qdrant s !! COLLECTION_NAME w = Some c → points_of w s = points c.
Proof. unfold points_of. by intros ->. Qed.

Lemma points_of_same s s' : qdrant s' = qdrant s → points_of w s' = points_of w s.
Proof. unfold points_of. by intros ->. Qed.

(** Lines 113-121: nothing at all without [overwrite]; otherwise one
    delete request, which removes exactly the points of the path when
    it succeeds and nothing when it fails. *)
Lemma scoped_delete_run file_path overwrite s x s1 :
  scoped_delete w file_path overwrite s = (x, s1) →
  clock s ≤ clock s1 ∧ clock s1 ≤ S (clock s) ∧
  issued s s1
    (if overwrite
     then [Qdrant (Delete (COLLECTION_NAME w) "file_path" file_path)]
     else []) ∧
  ((∃ e, x = Raise e ∧ overwrite = true ∧ qdrant s1 = qdrant s) ∨
   (x = Ok tt ∧ overwrite = false ∧ s1 = s) ∨
   (x = Ok tt ∧ overwrite = true ∧
    ∃ c, qdrant s !! COLLECTION_NAME w = Some c ∧
         qdrant s1 =
           <[COLLECTION_NAME w :=
               set_points c (delete_points "file_path" file_path (points c))]>
             (qdrant s))).
Proof.
  unfold scoped_delete. destruct overwrite.
  - rewrite client_delete_run.
    destruct (qdrant_fault w _ _) as [e|].
    { intros [= <- <-]. split_and!; [simpl; lia..|done|left; eauto]. }
    destruct (qdrant s !! COLLECTION_NAME w) as [c|] eqn:Hc.
    + intros [= <- <-]. split_and!; [simpl; lia..|done|].
      right; right. split_and!; [done..|]. by exists c.
    + intros [= <- <-]. split_and!; [simpl; lia..|done|left; eauto].
  - intros [= <- <-]. split_and!; [lia..| |right; left; done].
    unfold issued. by rewrite app_nil_r.
Qed.

(** [create_embeddings] on an existing path, phase by phase. *)
Lemma create_embeddings_run file_path overwrite s :
  path_exists w file_path = true →
  create_embeddings w file_path overwrite s =
  match scoped_delete w file_path overwrite s with
  | (Raise e, s1) => (Ok (error_result (exn_str e)), s1)
  | (Ok _, s1) =>
      match ingest_steps w file_path s1 with
      | (Ok d, s') => (Ok d, s')
      | (Raise e, s') => (Ok (error_result (exn_str e)), s')
      end
  end.
Proof.
  intros Hex. unfold create_embeddings, try_except. rewrite Hex. simpl.
  rewrite bind_run.
  destruct (scoped_delete w file_path overwrite s) as [[[]|e] s1]; [|done].
  by destruct (ingest_steps w file_path s1) as [[d|e] s'].
Qed.

(** The tool never raises. *)
Lemma create_embeddings_returns file_path overwrite s :
  ∃ d s', create_embeddings w file_path overwrite s = (Ok d, s').
Proof.
  destruct (path_exists w file_path) eqn:Hex.
  - rewrite create_embeddings_run by done.
    destruct (scoped_delete w file_path overwrite s) as [[[]|e] s1]; [|eauto].
    destruct (ingest_steps w file_path s1) as [[d|e] s']; eauto.
  - unfold create_embeddings. rewrite Hex. simpl. eauto.
Qed.

Lemma extract_text_exists file_path text :
  extract_text w file_path = Ok text → path_exists w file_path = true.
Proof.
  unfold extract_text. by destruct (path_exists w file_path).
Qed.

Lemma success_result_status n : success_result n !! "status" = Some "success".
Proof. unfold success_result. by simplify_map_eq. Qed.

Lemma error_result_status msg : error_result msg !! "status" = Some "error".
Proof. unfold error_result. by simplify_map_eq. Qed.

Lemma error_result_message msg : error_result msg !! "message" = Some msg.
Proof. unfold error_result. by simplify_map_eq. Qed.

End Runs.

(** ** Ingestion: the missing file and the empty file *)

Section Rejections.
Context (w : World).

(** C5: for a path that does not exist, [create_embeddings] does not
    raise; it returns a dictionary whose status is "error" and whose
    message, "File not found", contains "not found". *)
Theorem create_embeddings_missing_file_error file_path overwrite s :
  path_exists w file_path = false →
  ∃ d msg,
    (create_embeddings w file_path overwrite s).1 = Ok d ∧
    d !! "status" = Some "error" ∧
    d !! "message" = Some msg ∧
    msg = "File not found" ∧
    contains "not found" msg = true.
Proof.
  intros Hex. exists (error_result "File not found"), "File not found".
  unfold create_embeddings. rewrite Hex. simpl.
  by rewrite error_result_status, error_result_message.
Qed.

(** C10: for a path that does not exist, [create_embeddings] sends no
    request at all, whatever [overwrite] is: the state after the call,
    store, call counter and list of issued requests, is the state before
    it. *)
Theorem create_embeddings_missing_file_no_op file_path overwrite s :
  path_exists w file_path = false →
  (create_embeddings w file_path overwrite s).2 = s ∧
  ∀ r s', create_embeddings w file_path overwrite s = (r, s') →
    qdrant s' = qdrant s ∧ issued s s' [] ∧
    points_of w s' = points_of w s.
Proof.
  intros Hex. unfold create_embeddings. rewrite Hex. simpl.
  split; [done|]. intros r s' [= <- <-]. split_and!; [done| |done].
  unfold issued. by rewrite app_nil_r.
Qed.

(** C3, as the code has it: when the text extracted from the file is
    empty or only white space, [create_embeddings] returns a dictionary
    with status "error"; no point is in the index afterwards that was
    not there before; no upsert is sent and neither the splitter nor the
    embedder is called.  The message is "No text extracted from the file"
    whenever the call gets as far as the extraction (no overwrite, or the
    scoped delete went through); when [overwrite] is set and the delete
    raises, the message is the text of that exception and the file is
    not read. *)
Theorem create_embeddings_empty_text file_path overwrite s text r s' :
  extract_text w file_path = Ok text →
  all_space text = true →
  create_embeddings w file_path overwrite s = (r, s') →
  (∃ d, r = Ok d ∧ d !! "status" = Some "error") ∧
  (∀ id p, points_of w s' !! id = Some p → points_of w s !! id = Some p) ∧
  (∃ evs, issued s s' evs ∧
          Forall (λ ev, is_upsert ev = false ∧ is_chunk_or_embed ev = false)
                 evs) ∧
  ((overwrite = false ∨
    ∃ s1, client_delete w (COLLECTION_NAME w) "file_path" file_path s
          = (Ok tt, s1)) →
   r = Ok (error_result "No text extracted from the file")) ∧
  (∀ e s1,
     overwrite = true →
     client_delete w (COLLECTION_NAME w) "file_path" file_path s
       = (Raise e, s1) →
     r = Ok (error_result (exn_str e)) ∧
     issued s s' [Qdrant (Delete (COLLECTION_NAME w) "file_path" file_path)]).
Proof.
  intros Htext Hspace%strip_empty_iff Hrun.
  rewrite create_embeddings_run in Hrun by by eapply extract_text_exists.
  destruct (scoped_delete w file_path overwrite s) as [x s1] eqn:Hdel.
  pose proof Hdel as Hdel'.
  apply scoped_delete_run in Hdel' as (_ & _ & Hiss & Hcases).
  assert (Forall (λ ev, is_upsert ev = false ∧ is_chunk_or_embed ev = false)
            (if overwrite
             then [Qdrant (Delete (COLLECTION_NAME w) "file_path" file_path)]
             else [])) as Hevs.
  { destruct overwrite; by repeat constructor. }
  assert (∀ id p, points_of w s1 !! id = Some p → points_of w s !! id = Some p)
    as Hsub.
  { destruct Hcases as [(e & _ & _ & Hq)|[(_ & _ & ->)|(_ & _ & c & Hc & Hq)]].
    - by rewrite (points_of_same w _ _ Hq).
    - done.
    - rewrite (points_of_insert w _ _ _ _ Hq), (points_of_lookup w _ _ Hc).
      intros id p. rewrite delete_points_lookup.
      destruct (points c !! id); [|done]. by case_decide. }
  destruct x as [[]|e].
  - unfold ingest_steps, lift in Hrun. rewrite bind_run, Htext in Hrun.
    rewrite decide_True in Hrun by done. simpl in Hrun.
    injection Hrun as <- <-. split_and!; [|done|by eauto|done|].
    + eexists. split; [done|]. apply error_result_status.
    + intros e s2 -> Hraise. unfold scoped_delete in Hdel.
      rewrite Hraise in Hdel. done.
  - injection Hrun as <- <-. split_and!; [|done|by eauto| |].
    + eexists. split; [done|]. apply error_result_status.
    + intros [->|[s2 Hok]]; [done|].
      unfold scoped_delete in Hdel. destruct overwrite; [|done].
      rewrite Hok in Hdel. done.
    + intros e' s2 -> Hraise. unfold scoped_delete in Hdel.
      rewrite Hraise in Hdel. injection Hdel as -> ->. done.
Qed.

End Rejections.

(** C3, as the claim has it, fails: with [overwrite] set, which is the
    default, and the store out of reach, a file whose text is only white
    space is answered with the text of the store's failure; the message
    says nothing about the text, which was never extracted. *)
Lemma create_embeddings_empty_text_other_message :
  extract_text unreachable_world "blank.txt" = Ok ("  " +:+ newline) ∧
  all_space ("  " +:+ newline) = true ∧
  (create_embeddings unreachable_world "blank.txt" true demo_state).1
    = Ok (error_result "connection refused") ∧
  error_result "connection refused" !! "message" = Some "connection refused" ∧
  contains "No text" "connection refused" = false ∧
  trace (create_embeddings unreachable_world "blank.txt" true demo_state).2
    = [Qdrant (Delete (COLLECTION_NAME unreachable_world) "file_path"
                      "blank.txt")].
Proof. vm_compute. done. Qed.

Lemma create_embeddings_missing_file_error_witness :
  path_exists demo_world "/no/such/file" = false ∧
  ∃ d msg,
    (create_embeddings demo_world "/no/such/file" true demo_state).1 = Ok d ∧
    d !! "status" = Some "error" ∧
    d !! "message" = Some msg ∧
    msg = "File not found" ∧
    contains "not found" msg = true.
Proof.
  split; [vm_compute; reflexivity|].
  apply (create_embeddings_missing_file_error demo_world).
  vm_compute; reflexivity.
Defined.

Lemma create_embeddings_missing_file_no_op_witness :
  path_exists demo_world "/no/such/file" = false ∧
  (create_embeddings demo_world "/no/such/file" true demo_state).2 = demo_state.
Proof.
  split; [vm_compute; reflexivity|].
  apply (create_embeddings_missing_file_no_op demo_world).
  vm_compute; reflexivity.
Defined.

Lemma create_embeddings_empty_text_witness :
  extract_text demo_world "blank.txt" = Ok ("  " +:+ newline) ∧
  all_space ("  " +:+ newline) = true ∧
  ∃ s',
    create_embeddings demo_world "blank.txt" true demo_state
      = (Ok (error_result "No text extracted from the file"), s') ∧
    ∀ id p, points_of demo_world s' !! id = Some p →
            points_of demo_world demo_state !! id = Some p.
Proof.
  assert (extract_text demo_world "blank.txt" = Ok ("  " +:+ newline)) as Htext
    by (vm_compute; reflexivity).
  assert (all_space ("  " +:+ newline) = true) as Hspace
    by (vm_compute; reflexivity).
  split; [exact Htext|]. split; [exact Hspace|].
  set (run := create_embeddings demo_world "blank.txt" true demo_state).
  set (del := client_delete demo_world (COLLECTION_NAME demo_world)
                            "file_path" "blank.txt" demo_state).
  assert (del = (Ok tt, del.2)) as Hdel by (vm_compute; reflexivity).
  destruct (create_embeddings_empty_text demo_world "blank.txt" true demo_state
              _ _ _ Htext Hspace (surjective_pairing run))
    as (_ & Hsub & _ & Hmsg & _).
  assert (run.1 = Ok (error_result "No text extracted from the file")) as Hres.
  { apply Hmsg. right. exists del.2. exact Hdel. }
  exists run.2. split; [|exact Hsub].
  rewrite <- Hres. apply surjective_pairing.
Defined.

(** ** Ingestion: what success returns, what failure leaves behind *)

Section Outcomes.
Context (w : World).

Lemma matching_after_delete key value (m : gmap string Point) :
  filter (λ kv, matches key value kv.2) (delete_points key value m) = ∅.
Proof.
  apply map_empty. intros id. apply map_lookup_filter_None. right.
  intros p Hp. rewrite delete_points_lookup in Hp. simpl.
  destruct (m !! id) as [q|]; [|done].
  case_decide; [done|]. by injection Hp as <-.
Qed.

(** C1, as the code has it: a successful [create_embeddings] returns a
    dictionary with exactly the two keys "status" and "message"; the
    status is "success" and the message is "Document added with N chunks",
    N being the decimal number of points in the upsert request the call
    sent last, one per chunk of the splitter, each carrying the path in
    its payload.  There is no "chunk_count" key. *)
Theorem create_embeddings_success_shape file_path overwrite s d s' :
  create_embeddings w file_path overwrite s = (Ok d, s') →
  d !! "status" = Some "success" →
  ∃ text chunks pts,
    extract_text w file_path = Ok text ∧
    split_text w (CHUNK_SIZE w) (CHUNK_OVERLAP w) text = Ok chunks ∧
    length pts = length chunks ∧
    Forall (λ p, pt_payload p !! "file_path" = Some file_path) pts ∧
    last (trace s') = Some (Qdrant (Upsert (COLLECTION_NAME w) pts)) ∧
    d = {[ "status" := "success";
           "message" :=
             "Document added with " +:+ pretty (length pts) +:+ " chunks" ]} ∧
    dom d = {[ "status"; "message" ]} ∧
    d !! "chunk_count" = None.
Proof.
  intros Hrun Hstatus.
  destruct (path_exists w file_path) eqn:Hex; cycle 1.
  { unfold create_embeddings in Hrun. rewrite Hex in Hrun.
    injection Hrun as <- <-. by rewrite error_result_status in Hstatus. }
  rewrite create_embeddings_run in Hrun by done.
  destruct (scoped_delete w file_path overwrite s) as [[[]|e] s1]; cycle 1.
  { injection Hrun as <- <-. by rewrite error_result_status in Hstatus. }
  destruct (ingest_steps w file_path s1) as [r1 s2] eqn:Hsteps.
  apply ingest_steps_run in Hsteps as (_ & _ & [(_ & Hfail)|Hok]).
  { destruct Hfail as [[e ->]|(text & _ & _ & -> & _)];
      injection Hrun as <- <-; by rewrite error_result_status in Hstatus. }
  destruct Hok as (text & chunks & pts & c & evs & Htext & _ & Hsplit & Hpay
                   & _ & _ & _ & _ & Hiss & _ & ->).
  injection Hrun as <- <-. exists text, chunks, pts.
  split_and!; [done|done| | | |done| |].
  - symmetry. by eapply Forall2_length.
  - clear -Hpay. induction Hpay as [|chunk p chunks pts Hp _ IH]; constructor.
    + rewrite Hp. unfold chunk_payload. by simplify_map_eq.
    + done.
  - unfold issued in Hiss. rewrite Hiss.
    change (Split text :: evs ++ [Qdrant (Upsert (COLLECTION_NAME w) pts)])
      with ((Split text :: evs) ++ [Qdrant (Upsert (COLLECTION_NAME w) pts)]).
    by rewrite app_assoc, last_snoc.
  - unfold success_result. rewrite dom_insert_L, dom_singleton_L. done.
  - unfold success_result. by simplify_map_eq.
Qed.

(** C6: with [overwrite] set and the file present, once the scoped delete
    has gone through, any exception in what follows (extraction,
    chunking, embedding, the upsert) makes [create_embeddings] return the
    error dictionary with that exception's text, and the index then holds
    no point at all for the path. *)
Theorem create_embeddings_failed_reingest file_path s s1 e s2 :
  path_exists w file_path = true →
  client_delete w (COLLECTION_NAME w) "file_path" file_path s = (Ok tt, s1) →
  ingest_steps w file_path s1 = (Raise e, s2) →
  create_embeddings w file_path true s = (Ok (error_result (exn_str e)), s2) ∧
  error_result (exn_str e) !! "status" = Some "error" ∧
  points_for w file_path s2 = ∅.
Proof.
  intros Hex Hdel Hsteps. split_and!.
  - rewrite create_embeddings_run by done.
    unfold scoped_delete. by rewrite Hdel, Hsteps.
  - apply error_result_status.
  - apply ingest_steps_run in Hsteps as (_ & _ & [(Hq & _)|Hok]); cycle 1.
    { by destruct Hok as (? & ? & ? & ? & ? & ? & ? & ? & ? & ? & ? & ? & ? & ? & ? & ?). }
    rewrite client_delete_run in Hdel.
    destruct (qdrant_fault w _ _); [done|].
    destruct (qdrant s !! COLLECTION_NAME w) as [c|]; [|done].
    injection Hdel as <-. simpl in Hq. unfold points_for.
    rewrite (points_of_insert w _ _ _ _ Hq). apply matching_after_delete.
Qed.

End Outcomes.

(** C1, as the claim has it, fails: a successful ingestion returns a
    dictionary without a "chunk_count" key; the count only appears inside
    the message. *)
Lemma create_embeddings_no_chunk_count :
  (create_embeddings demo_world "a.txt" true demo_state).1
    = Ok (success_result 1) ∧
  success_result 1 !! "status" = Some "success" ∧
  success_result 1 !! "message" = Some "Document added with 1 chunks" ∧
  success_result 1 !! "chunk_count" = None.
Proof. vm_compute. done. Qed.

Lemma create_embeddings_success_shape_witness :
  ∃ s',
    create_embeddings demo_world "a.txt" true demo_state
      = (Ok (success_result 1), s') ∧
    success_result 1 !! "status" = Some "success" ∧
    dom (success_result 1) = {[ "status"; "message" ]} ∧
    success_result 1 !! "chunk_count" = None.
Proof.
  set (run := create_embeddings demo_world "a.txt" true demo_state).
  assert (run = (Ok (success_result 1), run.2)) as Hrun
    by (vm_compute; reflexivity).
  exists run.2. split; [exact Hrun|].
  split; [exact (success_result_status 1)|].
  destruct (create_embeddings_success_shape demo_world "a.txt" true demo_state
              _ _ Hrun (success_result_status 1))
    as (text & chunks & pts & _ & _ & _ & _ & _ & _ & Hdom & Hnone).
  split; [exact Hdom|exact Hnone].
Defined.

(** The other ways lines 122-137 can fail: the extraction (a page of
    "bad.pdf" cannot be read) and the embedding service. *)
Example ingest_steps_extraction_fails :
  (ingest_steps demo_world "bad.pdf" demo_state).1
    = Raise (Exn "ValueError"
                 "Unsupported file type or extraction error: broken stream").
Proof. vm_compute. reflexivity. Qed.

Example ingest_steps_embedding_fails :
  (ingest_steps embed_down_world "a.txt" demo_state).1
    = Raise (Exn "ServiceUnavailable" "503 backend down").
Proof. vm_compute. reflexivity. Qed.

Lemma create_embeddings_failed_reingest_witness :
  ∃ s1 s2,
    path_exists store_down_world "a.txt" = true ∧
    client_delete store_down_world (COLLECTION_NAME store_down_world)
                  "file_path" "a.txt" demo_state = (Ok tt, s1) ∧
    ingest_steps store_down_world "a.txt" s1
      = (Raise (Exn "ResponseHandlingException" "timed out"), s2) ∧
    create_embeddings store_down_world "a.txt" true demo_state
      = (Ok (error_result "timed out"), s2) ∧
    points_for store_down_world "a.txt" s2 = ∅.
Proof.
  set (del := client_delete store_down_world (COLLECTION_NAME store_down_world)
                            "file_path" "a.txt" demo_state).
  assert (del = (Ok tt, del.2)) as Hdel by (vm_compute; reflexivity).
  set (steps := ingest_steps store_down_world "a.txt" del.2).
  assert (steps = (Raise (Exn "ResponseHandlingException" "timed out"), steps.2))
    as Hsteps by (vm_compute; reflexivity).
  assert (path_exists store_down_world "a.txt" = true) as Hex
    by (vm_compute; reflexivity).
  destruct (create_embeddings_failed_reingest store_down_world "a.txt"
              demo_state _ _ _ Hex Hdel Hsteps) as (Hrun & _ & Hempty).
  exists del.2, steps.2.
  split; [exact Hex|]. split; [exact Hdel|]. split; [exact Hsteps|].
  split; [exact Hrun|exact Hempty].
Defined.


(** ** Ingestion: which points a call touches *)

Section Frame.
Context (w : World).

Lemma issued_trans s s1 s' evs1 evs2 :
  issued s s1 evs1 → issued s1 s' evs2 → issued s s' (evs1 ++ evs2).
Proof. unfold issued. intros H1 H2. by rewrite H2, H1, app_assoc. Qed.

Lemma issued_inj s s' evs1 evs2 :
  issued s s' evs1 → issued s s' evs2 → evs1 = evs2.
Proof. unfold issued. intros H1 H2. rewrite H1 in H2. by apply app_inv_head in H2. Qed.

(** What one call sends: the scoped delete, if asked for, and then
    requests that are neither deletes nor creates. *)
Lemma create_embeddings_issued file_path overwrite s r s' :
  create_embeddings w file_path overwrite s = (r, s') →
  ∃ evs, issued s s' evs ∧
    Forall (λ ev, is_create ev = false ∧
                  (is_delete ev = true →
                   overwrite = true ∧
                   ev = Qdrant (Delete (COLLECTION_NAME w) "file_path" file_path)))
           evs.
Proof.
  intros Hrun. destruct (path_exists w file_path) eqn:Hex; cycle 1.
  { unfold create_embeddings in Hrun. rewrite Hex in Hrun.
    injection Hrun as <- <-. exists []. split; [|constructor].
    unfold issued. by rewrite app_nil_r. }
  rewrite create_embeddings_run in Hrun by done.
  destruct (scoped_delete w file_path overwrite s) as [x s1] eqn:Hdel.
  apply scoped_delete_run in Hdel as (_ & _ & Hiss1 & _).
  assert (Forall (λ ev, is_create ev = false ∧
                  (is_delete ev = true →
                   overwrite = true ∧
                   ev = Qdrant (Delete (COLLECTION_NAME w) "file_path" file_path)))
            (if overwrite
             then [Qdrant (Delete (COLLECTION_NAME w) "file_path" file_path)]
             else [])) as Hevs1.
  { destruct overwrite; by repeat constructor. }
  destruct x as [[]|e]; cycle 1.
  { injection Hrun as <- <-. eauto. }
  destruct (ingest_steps w file_path s1) as [r1 s2] eqn:Hsteps.
  apply ingest_steps_run in Hsteps as (_ & (evs2 & Hiss2 & Hevs2) & _).
  assert (s' = s2) as -> by (destruct r1; by injection Hrun as <- <-).
  eexists. split; [by eapply issued_trans|].
  apply Forall_app. split; [done|].
  eapply Forall_impl; [exact Hevs2|]. simpl. intros ev [Hd Hc].
  split; [done|]. by rewrite Hd.
Qed.

(** With fresh identifiers, a call keeps every stored point as it is,
    except those the scoped delete removes. *)
Lemma create_embeddings_frame file_path overwrite s r s' id p :
  fresh_ids w s →
  create_embeddings w file_path overwrite s = (r, s') →
  points_of w s !! id = Some p →
  overwrite = false ∨ ¬ matches "file_path" file_path p →
  points_of w s' !! id = Some p.
Proof.
  intros Hfresh Hrun Hp Hkeep.
  destruct (path_exists w file_path) eqn:Hex; cycle 1.
  { unfold create_embeddings in Hrun. rewrite Hex in Hrun.
    by injection Hrun as <- <-. }
  rewrite create_embeddings_run in Hrun by done.
  destruct (scoped_delete w file_path overwrite s) as [x s1] eqn:Hdel.
  apply scoped_delete_run in Hdel as (Hclk & _ & _ & Hcases).
  assert (points_of w s1 !! id = Some p) as Hp1.
  { destruct Hcases as [(e & _ & _ & Hq)|[(_ & _ & ->)|(_ & -> & c & Hc & Hq)]].
    - by rewrite (points_of_same w _ _ Hq).
    - done.
    - rewrite (points_of_insert w _ _ _ _ Hq), delete_points_lookup.
      rewrite (points_of_lookup w _ _ Hc) in Hp. rewrite Hp.
      destruct Hkeep as [?|Hkeep]; [done|]. by rewrite decide_False. }
  destruct x as [[]|e]; cycle 1.
  { by injection Hrun as <- <-. }
  destruct (ingest_steps w file_path s1) as [r1 s2] eqn:Hsteps.
  apply ingest_steps_run in Hsteps as (_ & _ & Hcases2).
  assert (s' = s2) as -> by (destruct r1; by injection Hrun as <- <-).
  destruct Hcases2 as [(Hq & _)|Hok].
  { by rewrite (points_of_same w _ _ Hq). }
  destruct Hok as (text & chunks & pts & c & evs & _ & _ & _ & _ & Hids & Hc
                   & Hq & _).
  rewrite (points_of_insert w _ _ _ _ Hq), upsert_points_lookup_ne.
  { by rewrite <- (points_of_lookup w _ _ Hc). }
  rewrite Hids. intros (i & -> & _)%list_elem_of_fmap.
  rewrite Hfresh in Hp; [done|lia].
Qed.

(** C2: re-ingesting path A with [overwrite] set, identifiers being
    fresh, leaves every point whose payload names another path B where it
    was and as it was; a stored point that is gone or changed afterwards
    had A as its payload path; and the only delete request sent is the
    one filtered on [file_path] = A.  A and B are arbitrary, so the same
    holds with the roles exchanged. *)
Theorem create_embeddings_dedup_scoping path_a path_b s r s' :
  path_a ≠ path_b →
  fresh_ids w s →
  create_embeddings w path_a true s = (r, s') →
  (∀ id p, points_of w s !! id = Some p →
           pt_payload p !! "file_path" = Some path_b →
           points_of w s' !! id = Some p) ∧
  (∀ id p, points_of w s !! id = Some p →
           points_of w s' !! id ≠ Some p →
           pt_payload p !! "file_path" = Some path_a) ∧
  (∀ evs ev, issued s s' evs → ev ∈ evs → is_delete ev = true →
             ev = Qdrant (Delete (COLLECTION_NAME w) "file_path" path_a)).
Proof.
  intros Hne Hfresh Hrun. split_and!.
  - intros id p Hp Hb. eapply create_embeddings_frame; [done..|].
    right. unfold matches. rewrite Hb. congruence.
  - intros id p Hp Hgone.
    destruct (decide (matches "file_path" path_a p)) as [Hm|Hm]; [done|].
    destruct Hgone. eapply create_embeddings_frame; [done..|]. by right.
  - intros evs ev Hiss Hin Hdel.
    destruct (create_embeddings_issued _ _ _ _ _ Hrun) as (evs' & Hiss' & Hall).
    rewrite (issued_inj _ _ _ _ Hiss Hiss') in Hin.
    eapply Forall_forall in Hall as [_ Hd]; [|exact Hin].
    by destruct (Hd Hdel).
Qed.

Lemma upsert_points_lookup_in pts (m : gmap string Point) p :
  NoDup (map pt_id pts) → p ∈ pts → upsert_points pts m !! pt_id p = Some p.
Proof.
  revert m. induction pts as [|q pts IH]; intros m Hnd Hin; [by inversion Hin|].
  apply NoDup_cons in Hnd as [Hq Hnd]. simpl.
  apply elem_of_cons in Hin as [->|Hin].
  - change (upsert_points pts (<[pt_id q:=q]> m) !! pt_id q = Some q).
    rewrite upsert_points_lookup_ne by done. apply lookup_insert_eq.
  - by apply IH.
Qed.

End Frame.

Lemma demo_fresh_ids : fresh_ids demo_world demo_state.
Proof.
  intros t _.
  change (points_of demo_world demo_state) with (points demo_collection).
  unfold demo_collection. simpl.
  rewrite lookup_insert_ne by (intros [=]).
  by rewrite lookup_singleton_ne by (intros [=]).
Qed.

Lemma demo_distinct_ids : distinct_ids demo_world.
Proof.
  intros t1 t2 Heq. simpl in Heq.
  apply (inj (String.app "uuid-")) in Heq. by apply (inj pretty) in Heq.
Qed.

Lemma create_embeddings_dedup_scoping_witness :
  "a.txt" ≠ "b.txt" ∧
  fresh_ids demo_world demo_state ∧
  points_of demo_world
    (create_embeddings demo_world "a.txt" true demo_state).2 !! "id-b"
    = Some (demo_point "id-b" "beta" "b.txt").
Proof.
  assert ("a.txt" ≠ "b.txt") as Hne by (intros [=]).
  split; [exact Hne|]. split; [exact demo_fresh_ids|].
  destruct (create_embeddings_dedup_scoping demo_world "a.txt" "b.txt"
              demo_state _ _ Hne demo_fresh_ids
              (surjective_pairing
                 (create_embeddings demo_world "a.txt" true demo_state)))
    as (Hkeep & _ & _).
  apply Hkeep; vm_compute; reflexivity.
Defined.

(** ** Search *)

Section Search.
Context (w : World).

Lemma genai_embed_content_run model content task_type s :
  genai_embed_content w model content task_type s =
  (embed_content w (clock s) model content task_type,
   {| qdrant := qdrant s; clock := S (clock s);
      trace := trace s ++ [Embed model content task_type] |}).
Proof.
  unfold genai_embed_content, emit, tick, lift. rewrite !bind_run. simpl.
  by destruct (embed_content w _ _ _ _).
Qed.

Lemma qdrant_search_run query top_k s :
  qdrant_search w query top_k s =
  match qdrant_search_try w query top_k s with
  | (Ok res, s') => (Ok res, s')
  | (Raise e, s') => (Ok (search_error e), s')
  end.
Proof.
  unfold qdrant_search, try_except.
  by destruct (qdrant_search_try w query top_k s) as [[res|e] s'].
Qed.

Lemma search_error_text e :
  search_error e = [ {[ "text" := "Error searching documents: " +:+ exn_str e ]} ] ∧
  "Error searching documents: " +:+ exn_str e ≠ "".
Proof. split; [done|]. intros [=]. Qed.

(** C4: [qdrant_search] never raises.  When the embedding call fails, when
    the index query fails, or when anything else inside the [try] raises,
    it returns a list of exactly one dictionary whose "text" is
    "Error searching documents: " followed by the text of the exception,
    which is not the empty string. *)
Theorem qdrant_search_degrades query top_k s :
  (∃ res s', qdrant_search w query top_k s = (Ok res, s')) ∧
  (∀ e,
     embed_content w (clock s) (EMBED_MODEL w) query (Some "SEMANTIC_SIMILARITY")
       = Raise e →
     (qdrant_search w query top_k s).1 = Ok (search_error e)) ∧
  (∀ resp s1 embedding e s2,
     genai_embed_content w (EMBED_MODEL w) query (Some "SEMANTIC_SIMILARITY") s
       = (Ok resp, s1) →
     resp !! "embedding" = Some embedding →
     client_query_points w (COLLECTION_NAME w) embedding top_k s1
       = (Raise e, s2) →
     qdrant_search w query top_k s = (Ok (search_error e), s2)) ∧
  (∀ e s', qdrant_search_try w query top_k s = (Raise e, s') →
           qdrant_search w query top_k s = (Ok (search_error e), s')) ∧
  (∀ e, length (search_error e) = 1 ∧
        ∃ msg, search_error e = [ {[ "text" := msg ]} ] ∧ msg ≠ "").
Proof.
  split_and!.
  - rewrite qdrant_search_run.
    destruct (qdrant_search_try w query top_k s) as [[res|e] s']; eauto.
  - intros e He. rewrite qdrant_search_run. unfold qdrant_search_try.
    rewrite bind_run, genai_embed_content_run, He. done.
  - intros resp s1 embedding e s2 Hresp Hemb Hquery.
    rewrite qdrant_search_run. unfold qdrant_search_try.
    rewrite bind_run, Hresp, bind_run. unfold getitem. rewrite Hemb. simpl.
    rewrite bind_run, Hquery. done.
  - intros e s' Htry. by rewrite qdrant_search_run, Htry.
  - intros e. split; [done|]. eexists. apply search_error_text.
Qed.

End Search.

Lemma qdrant_search_degrades_witness :
  embed_content embed_down_world (clock demo_state)
    (EMBED_MODEL embed_down_world) "what is alpha" (Some "SEMANTIC_SIMILARITY")
    = Raise (Exn "ServiceUnavailable" "503 backend down") ∧
  (qdrant_search embed_down_world "what is alpha" 5 demo_state).1
    = Ok [ {[ "text" := "Error searching documents: 503 backend down" ]} ].
Proof.
  split; [reflexivity|].
  destruct (qdrant_search_degrades embed_down_world "what is alpha" 5 demo_state)
    as (_ & Hembed & _).
  apply (Hembed (Exn "ServiceUnavailable" "503 backend down")). reflexivity.
Defined.

(** ** Extraction from a PDF *)

Section Pdf.
Context (w : World).

Lemma pdf_text_readable (texts : list (option string)) :
  pdf_text (map Ok texts) = Ok (String.concat newline (map or_empty texts)).
Proof.
  unfold pdf_text.
  assert (mapM (λ page : result (option string), t ← page; mret (or_empty t))
               (map Ok texts) = Ok (map or_empty texts)) as ->; [|done].
  induction texts as [|t texts IH]; [done|].
  simpl in *. by rewrite IH.
Qed.

Lemma pdf_text_raising (before : list (option string)) e after :
  pdf_text (map Ok before ++ Raise e :: after) = Raise e.
Proof.
  unfold pdf_text.
  assert (mapM (λ page : result (option string), t ← page; mret (or_empty t))
               (map Ok before ++ Raise e :: after) = Raise e) as ->; [|done].
  induction before as [|t before IH]; [done|].
  simpl in *. by rewrite IH.
Qed.

(** C8, as the code has it: for a PDF, [extract_text] returns the texts
    of the pages in page order joined by a newline between consecutive
    pages, a page whose extraction gives [None] or the empty string
    standing for the empty string, provided no page raises; if the
    extraction of some page raises, the whole call raises [ValueError]
    with the text of the first such exception. *)
Theorem extract_text_pdf file_path pages :
  path_exists w file_path = true →
  magic_from_file w file_path = Ok "application/pdf" →
  PdfReader_pages w file_path = Ok pages →
  (∀ texts, pages = map Ok texts →
     extract_text w file_path
       = Ok (String.concat newline (map or_empty texts))) ∧
  (or_empty None = "" ∧ or_empty (Some "") = "" ∧
   ∀ t, or_empty (Some t) = t) ∧
  (∀ before e after, pages = map Ok before ++ Raise e :: after →
     extract_text w file_path
       = Raise (Exn "ValueError"
                    ("Unsupported file type or extraction error: "
                     +:+ exn_str e))).
Proof.
  intros Hex Hmime Hpages.
  assert (extract_text w file_path
          = result_try (pdf_text pages)
              (λ e, Raise (Exn "ValueError"
                 ("Unsupported file type or extraction error: " +:+ exn_str e))))
    as Hrun.
  { unfold extract_text. rewrite Hex, Hmime. simpl. by rewrite Hpages. }
  split_and!.
  - intros texts ->. by rewrite Hrun, pdf_text_readable.
  - done.
  - done.
  - intros t. simpl. by destruct (decide (t = "")).
  - intros before e after ->. by rewrite Hrun, pdf_text_raising.
Qed.

End Pdf.

(** C8, as the claim has it, fails twice: two pages "a" and "b" give "a",
    a newline, "b", not the concatenation "ab"; and a document whose
    second page raises on extraction is not extracted at all. *)
Lemma extract_text_pdf_not_concatenation :
  (PdfReader_pages demo_world "two.pdf" = Ok [Ok (Some "a"); Ok (Some "b")] ∧
   extract_text demo_world "two.pdf" = Ok ("a" +:+ newline +:+ "b") ∧
   extract_text demo_world "two.pdf" ≠ Ok ("a" +:+ "b")) ∧
  (PdfReader_pages demo_world "bad.pdf"
     = Ok [Ok (Some "a"); Raise (Exn "PdfReadError" "broken stream")] ∧
   extract_text demo_world "bad.pdf"
     = Raise (Exn "ValueError"
                  "Unsupported file type or extraction error: broken stream")).
Proof.
  split_and!; try (vm_compute; reflexivity).
  vm_compute. intros [=].
Qed.

Lemma extract_text_pdf_witness :
  path_exists demo_world "two.pdf" = true ∧
  magic_from_file demo_world "two.pdf" = Ok "application/pdf" ∧
  PdfReader_pages demo_world "two.pdf" = Ok (map Ok [Some "a"; Some "b"]) ∧
  extract_text demo_world "two.pdf"
    = Ok (String.concat newline (map or_empty [Some "a"; Some "b"])).
Proof.
  assert (path_exists demo_world "two.pdf" = true) as Hex
    by (vm_compute; reflexivity).
  assert (magic_from_file demo_world "two.pdf" = Ok "application/pdf") as Hmime
    by (vm_compute; reflexivity).
  assert (PdfReader_pages demo_world "two.pdf"
          = Ok (map Ok [Some "a"; Some "b"])) as Hpages
    by (vm_compute; reflexivity).
  split_and!; [done..|].
  destruct (extract_text_pdf demo_world "two.pdf" _ Hex Hmime Hpages)
    as (Hjoin & _ & _).
  by apply Hjoin.
Defined.

(** ** Provisioning the collection *)

Section Provisioning.
Context (w : World).

Lemma client_get_collections_run s :
  client_get_collections w s =
  (match qdrant_fault w (clock s) GetCollections with
   | Some e => Raise e
   | None => Ok (elements (dom (qdrant s)))
   end, sent s GetCollections).
Proof.
  unfold client_get_collections. rewrite bind_run, request_run.
  by destruct (qdrant_fault w (clock s) _).
Qed.

Lemma client_create_collection_run name size distance s :
  client_create_collection w name size distance s =
  match qdrant_fault w (clock s) (CreateCollection name size distance),
        qdrant s !! name with
  | Some e, _ => (Raise e, sent s (CreateCollection name size distance))
  | None, Some _ =>
      (Raise (Exn "UnexpectedResponse"
                  ("Conflict: Collection `" +:+ name +:+ "` already exists!")),
       sent s (CreateCollection name size distance))
  | None, None =>
      (Ok tt,
       with_store (sent s (CreateCollection name size distance))
         (<[name := new_collection size distance]> (qdrant s)))
  end.
Proof.
  unfold client_create_collection. rewrite bind_run, request_run.
  destruct (qdrant_fault w (clock s) _); [done|].
  unfold get_store. rewrite bind_run. simpl.
  by destruct (qdrant s !! name).
Qed.

Lemma client_get_collection_run name s :
  client_get_collection w name s =
  (match qdrant_fault w (clock s) (GetCollection name), qdrant s !! name with
   | Some e, _ => Raise e
   | None, Some c => Ok c
   | None, None =>
       Raise (Exn "UnexpectedResponse"
                  ("Not found: Collection `" +:+ name +:+ "` doesn't exist!"))
   end, sent s (GetCollection name)).
Proof.
  unfold client_get_collection. rewrite bind_run, request_run.
  destruct (qdrant_fault w (clock s) _); [done|].
  unfold get_store. rewrite bind_run. simpl.
  by destruct (qdrant s !! name).
Qed.

Lemma client_create_payload_index_run name field schema s :
  client_create_payload_index w name field schema s =
  match qdrant_fault w (clock s) (CreatePayloadIndex name field schema),
        qdrant s !! name with
  | Some e, _ => (Raise e, sent s (CreatePayloadIndex name field schema))
  | None, Some c =>
      (Ok tt,
       with_store (sent s (CreatePayloadIndex name field schema))
         (<[name := add_index c field schema]> (qdrant s)))
  | None, None =>
      (Raise (Exn "UnexpectedResponse"
                  ("Not found: Collection `" +:+ name +:+ "` doesn't exist!")),
       sent s (CreatePayloadIndex name field schema))
  end.
Proof.
  unfold client_create_payload_index. rewrite bind_run, request_run.
  destruct (qdrant_fault w (clock s) _); [done|].
  unfold get_store. rewrite bind_run. simpl.
  by destruct (qdrant s !! name).
Qed.

(** The [except] clause re-raises what it caught. *)
Lemma create_collection_run s :
  create_collection w s = create_collection_try w s.
Proof.
  unfold create_collection, try_except, raise.
  by destruct (create_collection_try w s) as [[[]|e] s'].
Qed.

Lemma listed_iff (q : gmap string Collection) name :
  bool_decide (name ∈ elements (dom q)) = bool_decide (is_Some (q !! name)).
Proof. apply bool_decide_ext. by rewrite elem_of_elements, elem_of_dom. Qed.

Ltac unprovisioned H :=
  let c := fresh "c" in
  let H1 := fresh "H" in
  let H2 := fresh "H" in
  destruct H as (c & H1 & H2); simplify_eq;
  match goal with
  | Hidx : payload_schema _ !! _ = None |- _ =>
      rewrite Hidx in H2; by destruct H2
  end.

Ltac one_of_events Hin :=
  repeat (apply elem_of_cons in Hin as [->|Hin]);
  try (by apply elem_of_nil in Hin).

Ltac nth_event i Hlook Hfault :=
  destruct i as [|[|[|[|i]]]]; simpl in Hlook; try discriminate Hlook;
  injection Hlook as <-;
  rewrite ?Nat.add_succ_r, ?Nat.add_0_r in Hfault;
  congruence.

Ltac leaf evs :=
  intros [= <- <-]; exists evs; split_and!;
  [ unfold issued; simpl; rewrite <- ?app_assoc; done
  | solve [intros ev Hin Hcr; one_of_events Hin; try discriminate Hcr;
    first [ left; done
          | right; split; [done|]; intros Hp; unprovisioned Hp
          | right; split; [done|]; intros (? & ? & ?); congruence ] ]
  | solve [ intros Hp; first [ split; [done|]; by (repeat constructor)
                     | unprovisioned Hp
                     | destruct Hp as (? & ? & ?); congruence ] ]
  | solve [ intros Hr;
    first [ discriminate Hr
          | split;
            [ eexists; split; [simpl; first [apply lookup_insert_eq|eassumption]|];
              simpl; rewrite ?lookup_insert_eq; eauto
            | intros ?; first [discriminate
                              | simpl; by rewrite ?insert_insert_eq, lookup_insert_eq ] ] ] ]
  | solve [ intros i req e Hlook Hfault; nth_event i Hlook Hfault ]
  | intros Hnone; first [ done
                        | match goal with
                          | H : qdrant_fault _ _ _ = Some _ |- _ =>
                              by rewrite Hnone in H
                          end ] ].

(** Every run of [create_collection], request by request. *)
Lemma create_collection_facts s r s' :
  create_collection w s = (r, s') →
  ∃ evs, issued s s' evs ∧
    (∀ ev, ev ∈ evs → is_create ev = true →
       (ev = Qdrant (CreateCollection (COLLECTION_NAME w) 768 COSINE) ∧
        qdrant s !! COLLECTION_NAME w = None) ∨
       (ev = Qdrant (CreatePayloadIndex (COLLECTION_NAME w) "file_path" KEYWORD) ∧
        ¬ provisioned w s)) ∧
    (provisioned w s →
       qdrant s' = qdrant s ∧ Forall (λ ev, is_create ev = false) evs) ∧
    (r = Ok tt →
       provisioned w s' ∧
       (qdrant s !! COLLECTION_NAME w = None →
        qdrant s' !! COLLECTION_NAME w
          = Some (add_index (new_collection 768 COSINE) "file_path" KEYWORD))) ∧
    (∀ i req e, evs !! i = Some (Qdrant req) →
                qdrant_fault w (clock s + i) req = Some e → r = Raise e) ∧
    ((∀ t req, qdrant_fault w t req = None) → r = Ok tt).
Proof.
  rewrite create_collection_run. unfold create_collection_try.
  rewrite bind_run, client_get_collections_run.
  destruct (qdrant_fault w (clock s) GetCollections) as [e1|] eqn:Hf1.
  { leaf constr:([Qdrant GetCollections]). }
  rewrite listed_iff, bind_run.
  destruct (qdrant s !! COLLECTION_NAME w) as [c|] eqn:Hc.
  - rewrite bool_decide_true by eauto. simpl.
    rewrite bind_run, client_get_collection_run. simpl. rewrite Hc.
    destruct (qdrant_fault w (S (clock s)) _) as [e2|] eqn:Hf2.
    { leaf constr:([Qdrant GetCollections; Qdrant (GetCollection (COLLECTION_NAME w))]). }
    destruct (payload_schema c !! "file_path") as [sch|] eqn:Hidx.
    + rewrite bool_decide_true by (apply elem_of_dom; eauto). simpl.
      leaf constr:([Qdrant GetCollections; Qdrant (GetCollection (COLLECTION_NAME w))]).
    + rewrite bool_decide_false by (rewrite elem_of_dom, Hidx; by intros [? ?]).
      simpl. rewrite client_create_payload_index_run. simpl. rewrite Hc.
      destruct (qdrant_fault w (S (S (clock s))) _) as [e3|] eqn:Hf3.
      * leaf constr:([Qdrant GetCollections; Qdrant (GetCollection (COLLECTION_NAME w));
              Qdrant (CreatePayloadIndex (COLLECTION_NAME w) "file_path" KEYWORD)]).
      * leaf constr:([Qdrant GetCollections; Qdrant (GetCollection (COLLECTION_NAME w));
              Qdrant (CreatePayloadIndex (COLLECTION_NAME w) "file_path" KEYWORD)]).
  - rewrite bool_decide_false by (by intros [? ?]). simpl.
    rewrite client_create_collection_run. simpl. rewrite Hc.
    destruct (qdrant_fault w (S (clock s)) _) as [e2|] eqn:Hf2.
    { leaf constr:([Qdrant GetCollections;
            Qdrant (CreateCollection (COLLECTION_NAME w) 768 COSINE)]). }
    rewrite bind_run, client_get_collection_run. simpl.
    rewrite lookup_insert_eq.
    destruct (qdrant_fault w (S (S (clock s))) _) as [e3|] eqn:Hf3.
    { leaf constr:([Qdrant GetCollections;
            Qdrant (CreateCollection (COLLECTION_NAME w) 768 COSINE);
            Qdrant (GetCollection (COLLECTION_NAME w))]). }
    rewrite bool_decide_false by (simpl; set_solver). simpl.
    rewrite client_create_payload_index_run. simpl. rewrite lookup_insert_eq.
    destruct (qdrant_fault w (S (S (S (clock s)))) _) as [e4|] eqn:Hf4.
    + leaf constr:([Qdrant GetCollections;
            Qdrant (CreateCollection (COLLECTION_NAME w) 768 COSINE);
            Qdrant (GetCollection (COLLECTION_NAME w));
            Qdrant (CreatePayloadIndex (COLLECTION_NAME w) "file_path" KEYWORD)]).
    + leaf constr:([Qdrant GetCollections;
            Qdrant (CreateCollection (COLLECTION_NAME w) 768 COSINE);
            Qdrant (GetCollection (COLLECTION_NAME w));
            Qdrant (CreatePayloadIndex (COLLECTION_NAME w) "file_path" KEYWORD)]).
Qed.

(** C7: [create_collection] sends a create-collection request only when
    no collection of the configured name exists, and then with size 768
    and cosine distance; it sends a create-index request, for a keyword
    index on [file_path], only when collection and index are not both
    there; when both are there it sends no create request and leaves the
    store as it is; a run that returns has collection and index in
    place, so a second run creates nothing and changes nothing; whatever
    the store raises on a request reaches the caller as it is; and when
    the store raises nothing the call returns. *)
Theorem create_collection_idempotent s r s' :
  create_collection w s = (r, s') →
  ∃ evs, issued s s' evs ∧
    (∀ ev, ev ∈ evs → is_create ev = true →
       (ev = Qdrant (CreateCollection (COLLECTION_NAME w) 768 COSINE) ∧
        qdrant s !! COLLECTION_NAME w = None) ∨
       (ev = Qdrant (CreatePayloadIndex (COLLECTION_NAME w) "file_path" KEYWORD) ∧
        ¬ provisioned w s)) ∧
    (provisioned w s →
       qdrant s' = qdrant s ∧ Forall (λ ev, is_create ev = false) evs) ∧
    (r = Ok tt →
       provisioned w s' ∧
       (qdrant s !! COLLECTION_NAME w = None →
        qdrant s' !! COLLECTION_NAME w
          = Some (add_index (new_collection 768 COSINE) "file_path" KEYWORD)) ∧
       ∀ r2 s2, create_collection w s' = (r2, s2) →
         qdrant s2 = qdrant s' ∧
         ∃ evs2, issued s' s2 evs2 ∧
                 Forall (λ ev, is_create ev = false) evs2) ∧
    (∀ i req e, evs !! i = Some (Qdrant req) →
                qdrant_fault w (clock s + i) req = Some e → r = Raise e) ∧
    ((∀ t req, qdrant_fault w t req = None) → r = Ok tt).
Proof.
  intros Hrun.
  destruct (create_collection_facts _ _ _ Hrun)
    as (evs & Hiss & Hcreate & Hthere & Hok & Hfault & Hquiet).
  exists evs. split_and!; [done..| |done|done].
  intros Hr. destruct (Hok Hr) as [Hprov Hnew]. split_and!; [done..|].
  intros r2 s2 Hrun2.
  destruct (create_collection_facts _ _ _ Hrun2)
    as (evs2 & Hiss2 & _ & Hthere2 & _).
  destruct (Hthere2 Hprov) as [Hq Hnone]. eauto.
Qed.

End Provisioning.

Lemma create_collection_idempotent_witness :
  ∃ s' s2,
    create_collection demo_world empty_state = (Ok tt, s') ∧
    provisioned demo_world s' ∧
    create_collection demo_world s' = (Ok tt, s2) ∧
    qdrant s2 = qdrant s'.
Proof.
  set (run := create_collection demo_world empty_state).
  assert (run = (Ok tt, run.2)) as Hrun by (vm_compute; reflexivity).
  set (run2 := create_collection demo_world run.2).
  assert (run2 = (Ok tt, run2.2)) as Hrun2 by (vm_compute; reflexivity).
  destruct (create_collection_idempotent demo_world empty_state _ _ Hrun)
    as (evs & _ & _ & _ & Hok & _).
  destruct (Hok eq_refl) as (Hprov & _ & Hagain).
  destruct (Hagain _ _ Hrun2) as [Hsame _].
  exists run.2, run2.2. split_and!; [exact Hrun|exact Hprov|exact Hrun2|exact Hsame].
Defined.

(** * Further properties of the pipeline *)
Section SearchMore.
Context (w : World).

Lemma client_query_points_run name query limit s :
  client_query_points w name query limit s =
  (match qdrant_fault w (clock s) (QueryPoints name query limit),
         qdrant s !! name with
   | Some e, _ => Raise e
   | None, Some c => Ok (nearest w (clock s) (points c) query limit)
   | None, None =>
       Raise (Exn "UnexpectedResponse"
                  ("Not found: Collection `" +:+ name +:+ "` doesn't exist!"))
   end, sent s (QueryPoints name query limit)).
Proof.
  unfold client_query_points. rewrite bind_run, request_run.
  destruct (qdrant_fault w (clock s) _); [done|].
  unfold get_store. rewrite bind_run. simpl.
  by destruct (qdrant s !! name).
Qed.

Lemma retrieved_entries_run results s :
  mapM retrieved_entry results s =
  (if bool_decide (Forall (λ p, is_Some (sp_payload p)) results)
   then Ok (map entry_of results)
   else Raise (Exn "AttributeError" "'NoneType' object has no attribute 'get'"),
   s).
Proof.
  induction results as [|p results IH]; [done|].
  simpl. rewrite bind_run. unfold retrieved_entry at 1.
  destruct (sp_payload p) as [payload|] eqn:Hp; simpl.
  - rewrite bind_run, IH.
    destruct (bool_decide (Forall _ results)) eqn:Hall.
    + apply bool_decide_eq_true in Hall.
      rewrite bool_decide_true; [|constructor; [by rewrite Hp|done]].
      unfold entry_of at 2. by rewrite Hp.
    + apply bool_decide_eq_false in Hall.
      rewrite bool_decide_false; [done|]. by intros [_ ?]%Forall_cons.
  - rewrite bool_decide_false; [done|].
    intros [[? Hs] _]%Forall_cons. by rewrite Hp in Hs.
Qed.

(** The whole of [qdrant_search], case by case. *)

Lemma qdrant_search_cases query top_k s :
  let s1 := {| qdrant := qdrant s; clock := S (clock s);
               trace := trace s ++ [Embed (EMBED_MODEL w) query
                                          (Some "SEMANTIC_SIMILARITY")] |} in
  qdrant_search w query top_k s =
  match embed_content w (clock s) (EMBED_MODEL w) query
                      (Some "SEMANTIC_SIMILARITY") with
  | Raise e => (Ok (search_error e), s1)
  | Ok resp =>
      match resp !! "embedding" with
      | None => (Ok (search_error (Exn "KeyError" "'embedding'")), s1)
      | Some v =>
          (match qdrant_fault w (S (clock s))
                   (QueryPoints (COLLECTION_NAME w) v top_k),
                 qdrant s !! COLLECTION_NAME w with
           | Some e, _ => Ok (search_error e)
           | None, None =>
               Ok (search_error
                     (Exn "UnexpectedResponse"
                        ("Not found: Collection `" +:+ COLLECTION_NAME w
                         +:+ "` doesn't exist!")))
           | None, Some c =>
               let results := nearest w (S (clock s)) (points c) v top_k in
               if bool_decide (Forall (λ p, is_Some (sp_payload p)) results)
               then Ok (map entry_of results)
               else Ok (search_error
                          (Exn "AttributeError"
                               "'NoneType' object has no attribute 'get'"))
           end,
           sent s1 (QueryPoints (COLLECTION_NAME w) v top_k))
      end
  end.
Proof.
  intros s1. rewrite qdrant_search_run. unfold qdrant_search_try.
  rewrite bind_run, genai_embed_content_run. fold s1.
  destruct (embed_content w _ _ _ _) as [resp|e]; [|done].
  rewrite bind_run. unfold getitem.
  destruct (resp !! "embedding") as [v|]; [|done]. simpl.
  rewrite bind_run, client_query_points_run. simpl.
  destruct (qdrant_fault w _ _) as [e|]; [done|].
  destruct (qdrant s !! COLLECTION_NAME w) as [c|]; [|done].
  rewrite bind_run, retrieved_entries_run.
  by destruct (bool_decide _).
Qed.

End SearchMore.

Section SearchTheorems.
Context (w : World).

(** X7: [qdrant_search] only reads.  It leaves the store as it is, calls
    the embedding service once, and queries the index at most once: only
    when the service answered with an "embedding", and then with exactly
    that vector and the caller's [top_k]. *)
Theorem qdrant_search_read_only query top_k s r s' :
  qdrant_search w query top_k s = (r, s') →
  qdrant s' = qdrant s ∧
  ∃ evs, issued s s' evs ∧
    (evs = [Embed (EMBED_MODEL w) query (Some "SEMANTIC_SIMILARITY")] ∨
     ∃ resp v,
       embed_content w (clock s) (EMBED_MODEL w) query
                     (Some "SEMANTIC_SIMILARITY") = Ok resp ∧
       resp !! "embedding" = Some v ∧
       evs = [Embed (EMBED_MODEL w) query (Some "SEMANTIC_SIMILARITY");
              Qdrant (QueryPoints (COLLECTION_NAME w) v top_k)]).
Proof.
  pose proof (qdrant_search_cases w query top_k s) as Hrun. simpl in Hrun.
  rewrite Hrun. clear Hrun.
  destruct (embed_content w _ _ _ _) as [resp|e] eqn:Hresp.
  - destruct (resp !! "embedding") as [v|] eqn:Hv.
    + intros [= <- <-]. split; [done|]. eexists. split; [|right; eauto].
      unfold issued. simpl. by rewrite <- app_assoc.
    + intros [= <- <-]. split; [done|]. eexists. split; [|by left]. done.
  - intros [= <- <-]. split; [done|]. eexists. split; [|by left]. done.
Qed.

(** X8: when embedding and index query go through, [qdrant_search]
    returns one dictionary per retrieved point, in ranking order, each
    holding the point's "text" or the empty string when the payload has
    no such key; but a single retrieved point without any payload turns
    the whole answer into the one-entry error list. *)
Theorem qdrant_search_results query top_k s resp v c :
  embed_content w (clock s) (EMBED_MODEL w) query (Some "SEMANTIC_SIMILARITY")
    = Ok resp →
  resp !! "embedding" = Some v →
  qdrant_fault w (S (clock s)) (QueryPoints (COLLECTION_NAME w) v top_k) = None →
  qdrant s !! COLLECTION_NAME w = Some c →
  let results := nearest w (S (clock s)) (points c) v top_k in
  (Forall (λ p, is_Some (sp_payload p)) results →
   ∃ res, (qdrant_search w query top_k s).1 = Ok res ∧
     length res = length results ∧
     ∀ i p, results !! i = Some p →
       ∃ payload, sp_payload p = Some payload ∧
         res !! i = Some {[ "text" := default "" (payload !! "text") ]}) ∧
  (Exists (λ p, sp_payload p = None) results →
   (qdrant_search w query top_k s).1
     = Ok (search_error
             (Exn "AttributeError" "'NoneType' object has no attribute 'get'"))).
Proof.
  intros Hresp Hv Hfault Hc results.
  pose proof (qdrant_search_cases w query top_k s) as Hrun. simpl in Hrun.
  rewrite Hresp, Hv, Hfault, Hc in Hrun. fold results in Hrun.
  rewrite Hrun. clear Hrun. simpl. split.
  - intros Hall. rewrite bool_decide_true by done.
    exists (map entry_of results). split_and!; [done|by rewrite length_map|].
    intros i p Hp. eapply Forall_lookup_1 in Hall as [payload Hpay]; [|done].
    exists payload. split; [done|].
    rewrite list_lookup_fmap, Hp. simpl. unfold entry_of. by rewrite Hpay.
  - intros Hex. rewrite bool_decide_false; [done|].
    intros Hall. apply Exists_exists in Hex as (p & Hin & Hnone).
    eapply Forall_forall in Hall as [? Hs]; [|done]. by rewrite Hnone in Hs.
Qed.

(** X9: while the collection does not exist, [qdrant_search] returns
    the one-entry error list, whatever the services answer, and the
    store stays without the collection. *)
Theorem qdrant_search_missing_collection query top_k s r s' :
  qdrant s !! COLLECTION_NAME w = None →
  qdrant_search w query top_k s = (r, s') →
  (∃ e, r = Ok (search_error e)) ∧ qdrant s' !! COLLECTION_NAME w = None.
Proof.
  intros Hc.
  pose proof (qdrant_search_cases w query top_k s) as Hrun. simpl in Hrun.
  rewrite Hrun. clear Hrun.
  destruct (embed_content w _ _ _ _) as [resp|e].
  - destruct (resp !! "embedding") as [v|].
    + rewrite Hc. intros [= <- <-]. split; [|done].
      destruct (qdrant_fault w _ _); eauto.
    + intros [= <- <-]. eauto.
  - intros [= <- <-]. eauto.
Qed.

End SearchTheorems.



Section IngestMore.
Context (w : World).

Lemma ingest_steps_unfold file_path s :
  ingest_steps w file_path s =
  match extract_text w file_path with
  | Raise e => (Raise e, s)
  | Ok text =>
      if decide (strip text = "")
      then (Ok (error_result "No text extracted from the file"), s)
      else
        match split_text w (CHUNK_SIZE w) (CHUNK_OVERLAP w) text with
        | Raise e => (Raise e, split_state s text)
        | Ok chunks =>
            match mapM (make_point w file_path) chunks (split_state s text) with
            | (Raise e, s1) => (Raise e, s1)
            | (Ok pts, s1) =>
                match client_upsert w (COLLECTION_NAME w) pts s1 with
                | (Raise e, s2) => (Raise e, s2)
                | (Ok _, s2) => (Ok (success_result (length pts)), s2)
                end
            end
        end
  end.
Proof.
  unfold ingest_steps, lift. rewrite bind_run.
  destruct (extract_text w file_path) as [text|e]; [|done].
  case_decide; [done|].
  rewrite bind_run. unfold emit at 1. simpl. fold (split_state s text).
  rewrite bind_run.
  destruct (split_text w _ _ text) as [chunks|e]; [|done].
  rewrite bind_run.
  destruct (mapM (make_point w file_path) chunks (split_state s text))
    as [[pts|e] s1]; [|done].
  rewrite bind_run.
  by destruct (client_upsert w _ pts s1) as [[[]|e] s2].
Qed.

(** The list comprehension, chunk by chunk, when every chunk is embedded. *)

Lemma make_points_detail file_path chunks s pts s' :
  mapM (make_point w file_path) chunks s = (Ok pts, s') →
  issued s s' (map (embed_event w) chunks) ∧
  ∀ i chunk, chunks !! i = Some chunk →
    ∃ p resp,
      pts !! i = Some p ∧
      pt_id p = uuid4 w (clock s + 2 * i) ∧
      embed_content w (S (clock s + 2 * i)) (EMBED_MODEL w) chunk None
        = Ok resp ∧
      resp !! "embedding" = Some (pt_vector p) ∧
      pt_payload p = chunk_payload file_path chunk.
Proof.
  revert s pts s'. induction chunks as [|chunk chunks IH]; intros s pts s' Hrun.
  - injection Hrun as <- <-. split; [unfold issued; by rewrite app_nil_r|].
    intros i chunk Hi. by rewrite lookup_nil in Hi.
  - simpl in Hrun. rewrite bind_run, make_point_run in Hrun.
    destruct (embed_content w (S (clock s)) _ chunk None) as [resp|e] eqn:Hresp;
      [|done].
    destruct (resp !! "embedding") as [v|] eqn:Hv; [|done].
    rewrite bind_run in Hrun.
    destruct (mapM (make_point w file_path) chunks _) as [[k|e] s2] eqn:Hrest;
      [|done].
    injection Hrun as <- <-.
    apply IH in Hrest as [Hiss Hpts]. simpl in Hpts. split.
    + unfold issued in *. rewrite Hiss. simpl. by rewrite <- app_assoc.
    + intros [|i] chunk' Hi; simpl in Hi.
      * injection Hi as <-. eexists _, resp.
        replace (clock s + 2 * 0) with (clock s) by lia. by split_and!.
      * destruct (Hpts i chunk' Hi) as (p & resp' & Hp & Hid & Hemb & Hvec & Hpay).
        exists p, resp'.
        replace (clock s + 2 * S i) with (S (S (clock s)) + 2 * i) by lia.
        by split_and!.
Qed.

(** ... and when one is not: the loop stops at the first chunk whose
    embedding fails. *)

Lemma make_points_failure file_path chunks s e s' :
  mapM (make_point w file_path) chunks s = (Raise e, s') →
  qdrant s' = qdrant s ∧
  ∃ k chunk,
    chunks !! k = Some chunk ∧
    issued s s' (map (embed_event w) (take (S k) chunks)) ∧
    match embed_content w (S (clock s + 2 * k)) (EMBED_MODEL w) chunk None with
    | Raise e' => e = e'
    | Ok resp => resp !! "embedding" = None ∧ e = Exn "KeyError" "'embedding'"
    end.
Proof.
  revert s e s'. induction chunks as [|chunk chunks IH]; intros s e s' Hrun.
  { done. }
  simpl in Hrun. rewrite bind_run, make_point_run in Hrun.
  destruct (embed_content w (S (clock s)) _ chunk None) as [resp|e0] eqn:Hresp.
  - destruct (resp !! "embedding") as [v|] eqn:Hv.
    + rewrite bind_run in Hrun.
      destruct (mapM (make_point w file_path) chunks _) as [[k|e1] s2] eqn:Hrest;
        [done|].
      injection Hrun as <- <-.
      apply IH in Hrest as (Hq & k & chunk' & Hk & Hiss & Hfail).
      split; [done|]. exists (S k), chunk'. split_and!; [done| |].
      * unfold issued in *. rewrite Hiss. simpl. by rewrite <- app_assoc.
      * simpl in Hfail.
        by replace (clock s + 2 * S k) with (S (S (clock s)) + 2 * k) by lia.
    + injection Hrun as <- <-. split; [done|]. exists 0, chunk.
      split_and!; [done|done|].
      replace (clock s + 2 * 0) with (clock s) by lia. by rewrite Hresp.
  - injection Hrun as <- <-. split; [done|]. exists 0, chunk.
    split_and!; [done|done|].
    replace (clock s + 2 * 0) with (clock s) by lia. by rewrite Hresp.
Qed.

End IngestMore.

Section IngestTheorems.
Context (w : World).

Lemma scoped_delete_ok file_path overwrite s s1 :
  scoped_delete w file_path overwrite s = (Ok tt, s1) →
  clock s1 = clock s + (if overwrite then 1 else 0) ∧
  issued s s1 (delete_prefix w file_path overwrite) ∧
  points_of w s1 = kept_points file_path overwrite (points_of w s) ∧
  (∀ name, name ≠ COLLECTION_NAME w → qdrant s1 !! name = qdrant s !! name) ∧
  (overwrite = true → is_Some (qdrant s !! COLLECTION_NAME w)).
Proof.
  unfold scoped_delete, delete_prefix, kept_points. destruct overwrite.
  - rewrite client_delete_run.
    destruct (qdrant_fault w _ _); [done|].
    destruct (qdrant s !! COLLECTION_NAME w) as [c|] eqn:Hc; [|done].
    intros [= <-]. split_and!; [simpl; lia|done| | |eauto].
    + unfold points_of at 1. simpl. rewrite lookup_insert_eq. simpl.
      by rewrite (points_of_lookup w _ _ Hc).
    + intros name Hne. simpl. by rewrite lookup_insert_ne.
  - intros [= <-]. split_and!; [lia| |done..|done].
    unfold issued. by rewrite app_nil_r.
Qed.

Lemma scoped_delete_raise file_path overwrite s e s1 :
  scoped_delete w file_path overwrite s = (Raise e, s1) →
  overwrite = true ∧ qdrant s1 = qdrant s ∧
  issued s s1 (delete_prefix w file_path overwrite).
Proof.
  unfold scoped_delete, delete_prefix. destruct overwrite; [|done].
  rewrite client_delete_run.
  destruct (qdrant_fault w _ _).
  - by intros [= <- <-].
  - destruct (qdrant s !! COLLECTION_NAME w); [done|]. by intros [= <- <-].
Qed.

Lemma client_upsert_ok pts s s2 :
  client_upsert w (COLLECTION_NAME w) pts s = (Ok tt, s2) →
  clock s2 = S (clock s) ∧
  issued s s2 [Qdrant (Upsert (COLLECTION_NAME w) pts)] ∧
  is_Some (qdrant s !! COLLECTION_NAME w) ∧
  points_of w s2 = upsert_points pts (points_of w s) ∧
  (∀ name, name ≠ COLLECTION_NAME w → qdrant s2 !! name = qdrant s !! name).
Proof.
  rewrite client_upsert_run.
  destruct (qdrant_fault w _ _); [done|].
  destruct (qdrant s !! COLLECTION_NAME w) as [c|] eqn:Hc; [|done].
  intros [= <-]. split_and!; [done|done|by eauto| |].
  - unfold points_of at 1. simpl. rewrite lookup_insert_eq. simpl.
    by rewrite (points_of_lookup w _ _ Hc).
  - intros name Hne. simpl. by rewrite lookup_insert_ne.
Qed.

Lemma client_upsert_raise pts s e s2 :
  client_upsert w (COLLECTION_NAME w) pts s = (Raise e, s2) →
  qdrant s2 = qdrant s ∧
  issued s s2 [Qdrant (Upsert (COLLECTION_NAME w) pts)].
Proof.
  rewrite client_upsert_run.
  destruct (qdrant_fault w _ _).
  - by intros [= <- <-].
  - destruct (qdrant s !! COLLECTION_NAME w); [done|]. by intros [= <- <-].
Qed.

(** A successful ingestion, request by request. *)
Lemma create_embeddings_success_facts file_path overwrite s d s' :
  create_embeddings w file_path overwrite s = (Ok d, s') →
  d !! "status" = Some "success" →
  ∃ text chunks pts,
    extract_text w file_path = Ok text ∧
    split_text w (CHUNK_SIZE w) (CHUNK_OVERLAP w) text = Ok chunks ∧
    length pts = length chunks ∧
    d = success_result (length chunks) ∧
    issued s s'
      (delete_prefix w file_path overwrite ++
       Split text :: map (embed_event w) chunks ++
       [Qdrant (Upsert (COLLECTION_NAME w) pts)]) ∧
    points_of w s'
      = upsert_points pts (kept_points file_path overwrite (points_of w s)) ∧
    clock s'
      = S (clock s + (if overwrite then 1 else 0) + 2 * length chunks) ∧
    ∀ i chunk, chunks !! i = Some chunk →
      ∃ p resp,
        pts !! i = Some p ∧
        pt_id p = uuid4 w (clock s + (if overwrite then 1 else 0) + 2 * i) ∧
        embed_content w (S (clock s + (if overwrite then 1 else 0) + 2 * i))
                      (EMBED_MODEL w) chunk None = Ok resp ∧
        resp !! "embedding" = Some (pt_vector p) ∧
        pt_payload p = {[ "text" := chunk; "file_path" := file_path ]}.
Proof.
  intros Hrun Hstatus.
  destruct (path_exists w file_path) eqn:Hex; cycle 1.
  { unfold create_embeddings in Hrun. rewrite Hex in Hrun.
    injection Hrun as <- <-. by rewrite error_result_status in Hstatus. }
  rewrite create_embeddings_run in Hrun by done.
  destruct (scoped_delete w file_path overwrite s) as [[[]|e] s1] eqn:Hdel;
    cycle 1.
  { injection Hrun as <- <-. by rewrite error_result_status in Hstatus. }
  apply scoped_delete_ok in Hdel as (Hclk1 & Hiss1 & Hpts1 & _ & _).
  rewrite ingest_steps_unfold in Hrun.
  destruct (extract_text w file_path) as [text|e] eqn:Htext; cycle 1.
  { injection Hrun as <- <-. by rewrite error_result_status in Hstatus. }
  case_decide.
  { injection Hrun as <- <-. by rewrite error_result_status in Hstatus. }
  destruct (split_text w _ _ text) as [chunks|e] eqn:Hsplit; cycle 1.
  { injection Hrun as <- <-. by rewrite error_result_status in Hstatus. }
  destruct (mapM (make_point w file_path) chunks (split_state s1 text))
    as [[pts|e] s2] eqn:Hloop; cycle 1.
  { injection Hrun as <- <-. by rewrite error_result_status in Hstatus. }
  destruct (client_upsert w (COLLECTION_NAME w) pts s2) as [[[]|e] s3] eqn:Hup;
    cycle 1.
  { injection Hrun as <- <-. by rewrite error_result_status in Hstatus. }
  injection Hrun as <- <-.
  pose proof (make_points_run w _ _ _ _ _ Hloop) as (Hq2 & _ & _ & Hok).
  destruct (Hok pts eq_refl) as (Hclk2 & Hpay & _).
  apply Forall2_length in Hpay.
  apply make_points_detail in Hloop as [Hiss2 Hdetail].
  apply client_upsert_ok in Hup as (Hclk3 & Hiss3 & _ & Hpts3 & _).
  exists text, chunks, pts.
  split_and!; [done|done|by symmetry|by rewrite Hpay| | | |].
  - assert (issued s1 (split_state s1 text) [Split text]) as Hiss0 by done.
    pose proof (issued_trans _ _ _ _ _
                  (issued_trans _ _ _ _ _
                     (issued_trans _ _ _ _ _ Hiss1 Hiss0) Hiss2) Hiss3) as Hall.
    by rewrite <- !app_assoc in Hall.
  - rewrite Hpts3, (points_of_same w _ _ Hq2). simpl.
    change (points_of w (split_state s1 text)) with (points_of w s1).
    by rewrite Hpts1.
  - rewrite Hclk3, Hclk2. simpl. by rewrite Hclk1.
  - intros i chunk Hi.
    destruct (Hdetail i chunk Hi) as (p & resp & Hp & Hid & Hemb & Hvec & Hpl).
    simpl in Hid, Hemb. rewrite Hclk1 in Hid, Hemb. by exists p, resp.
Qed.

(** X2: a successful ingestion, request by request: the delete if asked
    for, the splitter, one embedding per chunk in chunk order, one upsert;
    the store then holds what the delete left plus the new points; and
    the point made for chunk [i] carries that chunk's text, the path, and
    the vector the service returned for that very chunk. *)
Theorem create_embeddings_success_detail file_path overwrite s d s' :
  create_embeddings w file_path overwrite s = (Ok d, s') →
  d !! "status" = Some "success" →
  ∃ text chunks pts,
    extract_text w file_path = Ok text ∧
    split_text w (CHUNK_SIZE w) (CHUNK_OVERLAP w) text = Ok chunks ∧
    length pts = length chunks ∧
    d = success_result (length chunks) ∧
    issued s s'
      (delete_prefix w file_path overwrite ++
       Split text :: map (embed_event w) chunks ++
       [Qdrant (Upsert (COLLECTION_NAME w) pts)]) ∧
    points_of w s'
      = upsert_points pts (kept_points file_path overwrite (points_of w s)) ∧
    clock s'
      = S (clock s + (if overwrite then 1 else 0) + 2 * length chunks) ∧
    ∀ i chunk, chunks !! i = Some chunk →
      ∃ p resp,
        pts !! i = Some p ∧
        pt_id p = uuid4 w (clock s + (if overwrite then 1 else 0) + 2 * i) ∧
        embed_content w (S (clock s + (if overwrite then 1 else 0) + 2 * i))
                      (EMBED_MODEL w) chunk None = Ok resp ∧
        resp !! "embedding" = Some (pt_vector p) ∧
        pt_payload p = {[ "text" := chunk; "file_path" := file_path ]}.
Proof.
  intros Hrun Hstatus.
  destruct (path_exists w file_path) eqn:Hex; cycle 1.
  { unfold create_embeddings in Hrun. rewrite Hex in Hrun.
    injection Hrun as <- <-. by rewrite error_result_status in Hstatus. }
  rewrite create_embeddings_run in Hrun by done.
  destruct (scoped_delete w file_path overwrite s) as [[[]|e] s1] eqn:Hdel;
    cycle 1.
  { injection Hrun as <- <-. by rewrite error_result_status in Hstatus. }
  apply scoped_delete_ok in Hdel as (Hclk1 & Hiss1 & Hpts1 & _ & _).
  rewrite ingest_steps_unfold in Hrun.
  destruct (extract_text w file_path) as [text|e] eqn:Htext; cycle 1.
  { injection Hrun as <- <-. by rewrite error_result_status in Hstatus. }
  case_decide.
  { injection Hrun as <- <-. by rewrite error_result_status in Hstatus. }
  destruct (split_text w _ _ text) as [chunks|e] eqn:Hsplit; cycle 1.
  { injection Hrun as <- <-. by rewrite error_result_status in Hstatus. }
  destruct (mapM (make_point w file_path) chunks (split_state s1 text))
    as [[pts|e] s2] eqn:Hloop; cycle 1.
  { injection Hrun as <- <-. by rewrite error_result_status in Hstatus. }
  destruct (client_upsert w (COLLECTION_NAME w) pts s2) as [[[]|e] s3] eqn:Hup;
    cycle 1.
  { injection Hrun as <- <-. by rewrite error_result_status in Hstatus. }
  injection Hrun as <- <-.
  pose proof (make_points_run w _ _ _ _ _ Hloop) as (Hq2 & _ & _ & Hok).
  destruct (Hok pts eq_refl) as (Hclk2 & Hpay & _).
  apply Forall2_length in Hpay.
  apply make_points_detail in Hloop as [Hiss2 Hdetail].
  apply client_upsert_ok in Hup as (Hclk3 & Hiss3 & _ & Hpts3 & _).
  exists text, chunks, pts.
  split_and!; [done|done|by symmetry|by rewrite Hpay| | | |].
  - assert (issued s1 (split_state s1 text) [Split text]) as Hiss0 by done.
    pose proof (issued_trans _ _ _ _ _
                  (issued_trans _ _ _ _ _
                     (issued_trans _ _ _ _ _ Hiss1 Hiss0) Hiss2) Hiss3) as Hall.
    by rewrite <- !app_assoc in Hall.
  - rewrite Hpts3, (points_of_same w _ _ Hq2). simpl.
    change (points_of w (split_state s1 text)) with (points_of w s1).
    by rewrite Hpts1.
  - rewrite Hclk3, Hclk2. simpl. by rewrite Hclk1.
  - intros i chunk Hi.
    destruct (Hdetail i chunk Hi) as (p & resp & Hp & Hid & Hemb & Hvec & Hpl).
    simpl in Hid, Hemb. rewrite Hclk1 in Hid, Hemb. by exists p, resp.
Qed.

End IngestTheorems.

Section IngestOutcomes.
Context (w : World).

(** Walk through [create_embeddings] on an existing path: one goal per
    place where the call can end. *)

Ltac walk Hrun :=
  rewrite create_embeddings_run in Hrun by done;
  let Hdel := fresh "Hdel" in
  destruct (scoped_delete w _ _ _) as [[[]|?e] ?s1] eqn:Hdel;
  [ rewrite ingest_steps_unfold in Hrun;
    let Htext := fresh "Htext" in
    destruct (extract_text w _) as [?text|?e] eqn:Htext;
    [ let Hblank := fresh "Hblank" in
      destruct (decide (strip _ = "")) as [Hblank|Hblank];
      [ | let Hsplit := fresh "Hsplit" in
          destruct (split_text w _ _ _) as [?chunks|?e] eqn:Hsplit;
          [ let Hloop := fresh "Hloop" in
            destruct (mapM (make_point w _) _ (split_state _ _))
              as [[?pts|?e] ?s2] eqn:Hloop;
            [ let Hup := fresh "Hup" in
              destruct (client_upsert w (COLLECTION_NAME w) _ _)
                as [[[]|?e] ?s3] eqn:Hup
            | ]
          | ] ]
    | ]
  | ];
  injection Hrun as <- <-.

Lemma dom_result (status message : string) :
  dom ({[ "status" := status; "message" := message ]} : dict)
  = {[ "status"; "message" ]}.
Proof. by rewrite dom_insert_L, dom_singleton_L. Qed.

(** X5: [create_embeddings] never raises: it always hands back a
    dictionary with exactly the two keys "status" and "message", the
    status being "success" or "error". *)
Theorem create_embeddings_result_shape file_path overwrite s :
  ∃ d s',
    create_embeddings w file_path overwrite s = (Ok d, s') ∧
    dom d = {[ "status"; "message" ]} ∧
    (d !! "status" = Some "success" ∨ d !! "status" = Some "error").
Proof.
  destruct (create_embeddings w file_path overwrite s) as [r s'] eqn:Hrun.
  destruct (path_exists w file_path) eqn:Hex; cycle 1.
  { unfold create_embeddings in Hrun. rewrite Hex in Hrun.
    injection Hrun as <- <-. eexists _, _. split; [done|].
    split; [apply dom_result|right; apply error_result_status]. }
  walk Hrun; eexists _, _; (split; [done|]);
    (split; [apply dom_result|]);
    first [ right; apply error_result_status
          | left; apply success_result_status ].
Qed.

(** X4: a call that reports an error has written nothing: the stored
    points are those from before, less, with [overwrite], the ones the
    scoped delete removed. *)
Theorem create_embeddings_error_writes_nothing file_path overwrite s d s' :
  create_embeddings w file_path overwrite s = (Ok d, s') →
  d !! "status" = Some "error" →
  (points_of w s' = points_of w s ∨
   overwrite = true ∧
   points_of w s' = delete_points "file_path" file_path (points_of w s)) ∧
  ∀ id p, points_of w s' !! id = Some p → points_of w s !! id = Some p.
Proof.
  intros Hrun Hstatus.
  assert (points_of w s' = points_of w s ∨
          overwrite = true ∧
          points_of w s' = delete_points "file_path" file_path (points_of w s))
    as Hcases.
  { destruct (path_exists w file_path) eqn:Hex; cycle 1.
    { unfold create_embeddings in Hrun. rewrite Hex in Hrun.
      injection Hrun as <- <-. by left. }
    assert (∀ s1, points_of w s1
                  = kept_points file_path overwrite (points_of w s) →
            points_of w s1 = points_of w s ∨
            overwrite = true ∧
            points_of w s1
              = delete_points "file_path" file_path (points_of w s))
      as Hkept.
    { intros s0 ->. destruct overwrite; [right|left]; done. }
    walk Hrun.
    - apply scoped_delete_ok in Hdel as (_ & _ & Hpts & _). by apply Hkept.
    - by rewrite success_result_status in Hstatus.
    - apply scoped_delete_ok in Hdel as (_ & _ & Hpts & _).
      apply client_upsert_raise in Hup as [Hq3 _].
      apply make_points_run in Hloop as (Hq2 & _).
      apply Hkept. by rewrite (points_of_same w _ _ Hq3), (points_of_same w _ _ Hq2).
    - apply scoped_delete_ok in Hdel as (_ & _ & Hpts & _).
      apply make_points_run in Hloop as (Hq2 & _).
      apply Hkept. by rewrite (points_of_same w _ _ Hq2).
    - apply scoped_delete_ok in Hdel as (_ & _ & Hpts & _). by apply Hkept.
    - apply scoped_delete_ok in Hdel as (_ & _ & Hpts & _). by apply Hkept.
    - apply scoped_delete_raise in Hdel as (_ & Hq & _).
      left. by apply points_of_same. }
  split; [done|]. intros id p.
  destruct Hcases as [->|[_ ->]]; [done|].
  rewrite delete_points_lookup. destruct (points_of w s !! id); [|done].
  by case_decide.
Qed.

(** X3: the requests of one call come in a fixed order: the delete if
    asked for, then the splitter, then the embeddings chunk by chunk up
    to the first one that fails, then, only if every chunk was embedded,
    one upsert, which is the last request. *)
Theorem create_embeddings_request_order file_path overwrite s r s' :
  path_exists w file_path = true →
  create_embeddings w file_path overwrite s = (r, s') →
  ∃ tail,
    issued s s' (delete_prefix w file_path overwrite ++ tail) ∧
    (tail = [] ∨
     ∃ text,
       extract_text w file_path = Ok text ∧
       (tail = [Split text] ∨
        ∃ chunks,
          split_text w (CHUNK_SIZE w) (CHUNK_OVERLAP w) text = Ok chunks ∧
          ((∃ k, k < length chunks ∧
                 tail = Split text :: map (embed_event w) (take (S k) chunks)) ∨
           (∃ pts, length pts = length chunks ∧
                   tail = Split text :: map (embed_event w) chunks ++
                          [Qdrant (Upsert (COLLECTION_NAME w) pts)])))).
Proof.
  intros Hex Hrun.
  assert (∀ s1 text, issued s1 (split_state s1 text) [Split text]) as Hiss0
    by done.
  assert (∀ s1 s2 chunks pts,
            mapM (make_point w file_path) chunks s1 = (Ok pts, s2) →
            length pts = length chunks) as Hlen.
  { intros s1 s2 chunks pts Hloop.
    apply make_points_run in Hloop as (_ & _ & _ & Hok).
    destruct (Hok pts eq_refl) as (_ & Hpay & _).
    symmetry. by eapply Forall2_length. }
  walk Hrun.
  - apply scoped_delete_ok in Hdel as (_ & Hiss1 & _).
    exists []. rewrite app_nil_r. split; [done|by left].
  - apply scoped_delete_ok in Hdel as (_ & Hiss1 & _).
    pose proof (Hlen _ _ _ _ Hloop) as Hl.
    apply make_points_detail in Hloop as [Hiss2 _].
    apply client_upsert_ok in Hup as (_ & Hiss3 & _).
    eexists. split.
    + pose proof (issued_trans _ _ _ _ _
                    (issued_trans _ _ _ _ _
                       (issued_trans _ _ _ _ _ Hiss1 (Hiss0 _ text)) Hiss2) Hiss3)
        as Hall.
      rewrite <- !app_assoc in Hall. exact Hall.
    + right. exists text. split; [done|]. right. exists chunks.
      split; [done|]. right. by exists pts.
  - apply scoped_delete_ok in Hdel as (_ & Hiss1 & _).
    pose proof (Hlen _ _ _ _ Hloop) as Hl.
    apply make_points_detail in Hloop as [Hiss2 _].
    apply client_upsert_raise in Hup as [_ Hiss3].
    eexists. split.
    + pose proof (issued_trans _ _ _ _ _
                    (issued_trans _ _ _ _ _
                       (issued_trans _ _ _ _ _ Hiss1 (Hiss0 _ text)) Hiss2) Hiss3)
        as Hall.
      rewrite <- !app_assoc in Hall. exact Hall.
    + right. exists text. split; [done|]. right. exists chunks.
      split; [done|]. right. by exists pts.
  - apply scoped_delete_ok in Hdel as (_ & Hiss1 & _).
    apply make_points_failure in Hloop as (_ & k & chunk & Hk & Hiss2 & _).
    eexists. split.
    + pose proof (issued_trans _ _ _ _ _
                    (issued_trans _ _ _ _ _ Hiss1 (Hiss0 _ text)) Hiss2) as Hall.
      rewrite <- !app_assoc in Hall. exact Hall.
    + right. exists text. split; [done|]. right. exists chunks.
      split; [done|]. left. exists k. split; [|done].
      by eapply lookup_lt_Some.
  - apply scoped_delete_ok in Hdel as (_ & Hiss1 & _).
    eexists. split; [exact (issued_trans _ _ _ _ _ Hiss1 (Hiss0 _ text))|].
    right. exists text. split; [done|]. by left.
  - apply scoped_delete_ok in Hdel as (_ & Hiss1 & _).
    exists []. rewrite app_nil_r. split; [done|by left].
  - apply scoped_delete_raise in Hdel as (_ & _ & Hiss1).
    exists []. rewrite app_nil_r. split; [done|by left].
Qed.

(** X6: ingestion changes nothing of the store but the points of its own
    collection: every other collection, and the size, distance and
    payload indexes of its own, stay as they are; it never creates the
    collection, and without it every call reports an error. *)
Theorem create_embeddings_keeps_collections file_path overwrite s r s' :
  create_embeddings w file_path overwrite s = (r, s') →
  (∀ name, name ≠ COLLECTION_NAME w → qdrant s' !! name = qdrant s !! name) ∧
  match qdrant s !! COLLECTION_NAME w with
  | Some c => ∃ m, qdrant s' !! COLLECTION_NAME w = Some (set_points c m)
  | None =>
      qdrant s' = qdrant s ∧
      ∃ d, r = Ok d ∧ d !! "status" = Some "error"
  end.
Proof.
  intros Hrun.
  assert (∀ c, set_points c (points c) = c) as Hid by (by intros []).
  assert (qdrant s' = qdrant s →
          (∃ d, r = Ok d ∧ d !! "status" = Some "error") →
          (∀ name, name ≠ COLLECTION_NAME w → qdrant s' !! name = qdrant s !! name) ∧
          match qdrant s !! COLLECTION_NAME w with
          | Some c => ∃ m, qdrant s' !! COLLECTION_NAME w = Some (set_points c m)
          | None => qdrant s' = qdrant s ∧
                    ∃ d, r = Ok d ∧ d !! "status" = Some "error"
          end) as Hsame.
  { intros Hq Herr. rewrite Hq. split; [done|].
    destruct (qdrant s !! COLLECTION_NAME w) as [c|]; [|done].
    exists (points c). by rewrite Hid. }
  assert (∀ msg, ∃ d, Ok (error_result msg) = Ok d ∧ d !! "status" = Some "error")
    as Herr.
  { intros msg. eexists. split; [done|]. apply error_result_status. }
  destruct (path_exists w file_path) eqn:Hex; cycle 1.
  { unfold create_embeddings in Hrun. rewrite Hex in Hrun.
    injection Hrun as <- <-. by apply Hsame. }
  rewrite create_embeddings_run in Hrun by done.
  destruct (scoped_delete w file_path overwrite s) as [[[]|e] s1] eqn:Hdel;
    cycle 1.
  { injection Hrun as <- <-. apply scoped_delete_raise in Hdel as (_ & Hq & _).
    by apply Hsame. }
  destruct (ingest_steps w file_path s1) as [r1 s2] eqn:Hsteps.
  assert (s' = s2 ∧ r = Ok (match r1 with
                            | Ok d => d
                            | Raise e => error_result (exn_str e)
                            end)) as [-> ->].
  { destruct r1; by injection Hrun as <- <-. }
  clear Hrun.
  apply ingest_steps_run in Hsteps as (_ & _ & Hcases).
  unfold scoped_delete in Hdel. destruct overwrite.
  - rewrite client_delete_run in Hdel.
    destruct (qdrant_fault w _ _); [done|].
    destruct (qdrant s !! COLLECTION_NAME w) as [c|] eqn:Hc; [|done].
    injection Hdel as <-.
    destruct Hcases as [(Hq & _)|Hok].
    + rewrite Hq. simpl. split.
      * intros name Hne. by rewrite lookup_insert_ne.
      * eexists. by rewrite lookup_insert_eq.
    + destruct Hok as (? & ? & pts & c1 & ? & _ & _ & _ & _ & _ & Hc1 & Hq & _).
      simpl in Hc1, Hq. rewrite lookup_insert_eq in Hc1. injection Hc1 as <-.
      rewrite Hq, insert_insert_eq. split.
      * intros name Hne. by rewrite lookup_insert_ne.
      * eexists. rewrite lookup_insert_eq. done.
  - injection Hdel as <-.
    destruct Hcases as [(Hq & Hfail)|Hok].
    + apply Hsame; [done|].
      destruct Hfail as [[e ->]|(text & _ & _ & -> & _)]; apply Herr.
    + destruct Hok as (? & ? & pts & c1 & ? & _ & _ & _ & _ & _ & Hc1 & Hq & _).
      rewrite Hc1, Hq. split.
      * intros name Hne. by rewrite lookup_insert_ne.
      * eexists. by rewrite lookup_insert_eq.
Qed.

Lemma kept_points_lookup file_path overwrite (m : gmap string Point) id p :
  kept_points file_path overwrite m !! id = Some p → m !! id = Some p.
Proof.
  unfold kept_points. destruct overwrite; [|done].
  rewrite delete_points_lookup. destruct (m !! id); [|done]. by case_decide.
Qed.

Lemma kept_points_fresh file_path overwrite (m : gmap string Point) id :
  m !! id = None → kept_points file_path overwrite m !! id = None.
Proof.
  intros Hm. destruct (kept_points _ _ _ !! id) as [p|] eqn:Hp; [|done].
  apply kept_points_lookup in Hp. congruence.
Qed.


(** The points a successful call made, read by position: the point at
    place [i] exists for every chunk, carries the identifier drawn for
    it and belongs to the path. *)
Lemma new_points_at file_path (chunks : list string) (pts : list Point) c0 :
  length pts = length chunks →
  (∀ i chunk, chunks !! i = Some chunk →
     ∃ p resp,
       pts !! i = Some p ∧
       pt_id p = uuid4 w (c0 + 2 * i) ∧
       embed_content w (S (c0 + 2 * i)) (EMBED_MODEL w) chunk None = Ok resp ∧
       resp !! "embedding" = Some (pt_vector p) ∧
       pt_payload p = {[ "text" := chunk; "file_path" := file_path ]}) →
  ∀ i p, pts !! i = Some p →
    i < length chunks ∧ pt_id p = uuid4 w (c0 + 2 * i) ∧
    matches "file_path" file_path p ∧
    ∃ chunk, chunks !! i = Some chunk ∧
             pt_payload p = chunk_payload file_path chunk.
Proof.
  intros Hlen Hdetail i p Hp.
  assert (i < length chunks) as Hi.
  { rewrite <- Hlen. by eapply lookup_lt_Some. }
  destruct (lookup_lt_is_Some_2 chunks i Hi) as [chunk Hchunk].
  destruct (Hdetail i chunk Hchunk) as (p' & resp & Hp' & Hid & _ & _ & Hpay).
  rewrite Hp in Hp'. injection Hp' as <-. split_and!; [done..| |by eauto].
  unfold matches. rewrite Hpay. by simplify_map_eq.
Qed.

(** Identifiers being fresh and never repeated, the new points are
    pairwise distinct, none of them replaces a stored one, and the
    identifiers still to come are fresh again. *)
Lemma new_points_fresh file_path (chunks : list string) (pts : list Point) c0
    (m : gmap string Point) :
  (∀ i p, pts !! i = Some p →
     i < length chunks ∧ pt_id p = uuid4 w (c0 + 2 * i) ∧
     matches "file_path" file_path p ∧
     ∃ chunk, chunks !! i = Some chunk ∧
              pt_payload p = chunk_payload file_path chunk) →
  distinct_ids w →
  (∀ t, c0 ≤ t → m !! uuid4 w t = None) →
  NoDup (map pt_id pts) ∧
  Forall (λ p, m !! pt_id p = None) pts ∧
  Forall (λ p, matches "file_path" file_path p) pts ∧
  ∀ t, c0 + 2 * length chunks ≤ t → upsert_points pts m !! uuid4 w t = None.
Proof.
  intros Hat Hinj Hfresh. split_and!.
  - apply NoDup_alt. intros i j id Hi Hj.
    rewrite list_lookup_fmap in Hi, Hj.
    destruct (pts !! i) as [p|] eqn:Hp; [|done].
    destruct (pts !! j) as [q|] eqn:Hq; [|done].
    simpl in Hi, Hj. injection Hi as Hi. injection Hj as Hj.
    destruct (Hat _ _ Hp) as (_ & Hpi & _).
    destruct (Hat _ _ Hq) as (_ & Hqj & _).
    assert (c0 + 2 * i = c0 + 2 * j) as Heq by (apply Hinj; congruence).
    lia.
  - apply Forall_lookup. intros i p Hp.
    destruct (Hat _ _ Hp) as (_ & -> & _). apply Hfresh. lia.
  - apply Forall_lookup. intros i p Hp.
    by destruct (Hat _ _ Hp) as (_ & _ & ? & _).
  - intros t Ht. rewrite upsert_points_lookup_ne.
    + apply Hfresh. lia.
    + intros (p & Hid & Hin)%list_elem_of_fmap.
      apply list_elem_of_lookup in Hin as [i Hp].
      destruct (Hat _ _ Hp) as (Hi & Hpi & _).
      assert (t = c0 + 2 * i) as -> by (apply Hinj; congruence).
      lia.
Qed.



(** X1: re-ingestion is idempotent.  A successful call with [overwrite]
    set sends the scoped delete, splits the extracted text, embeds every
    chunk and sends one upsert with one point per chunk, each carrying
    its chunk and the path.  Identifiers being fresh and never repeated,
    the index then holds for the path exactly these points, whatever it
    held before; and a second successful call on the same file reports
    the same count and again leaves exactly one point per chunk, with
    the same payloads. *)
Theorem create_embeddings_reingest_idempotent file_path s d s' :
  fresh_ids w s → distinct_ids w →
  create_embeddings w file_path true s = (Ok d, s') →
  d !! "status" = Some "success" →
  ∃ text chunks pts,
    extract_text w file_path = Ok text ∧
    split_text w (CHUNK_SIZE w) (CHUNK_OVERLAP w) text = Ok chunks ∧
    d = success_result (length chunks) ∧
    issued s s'
      (Qdrant (Delete (COLLECTION_NAME w) "file_path" file_path) ::
       Split text :: map (embed_event w) chunks ++
       [Qdrant (Upsert (COLLECTION_NAME w) pts)]) ∧
    map pt_payload pts = map (chunk_payload file_path) chunks ∧
    (∀ id p, points_for w file_path s' !! id = Some p ↔
             p ∈ pts ∧ pt_id p = id) ∧
    size (points_for w file_path s') = length chunks ∧
    ∀ d2 s2,
      create_embeddings w file_path true s' = (Ok d2, s2) →
      d2 !! "status" = Some "success" →
      d2 = d ∧
      ∃ pts2,
        map pt_payload pts2 = map pt_payload pts ∧
        (∀ id p, points_for w file_path s2 !! id = Some p ↔
                 p ∈ pts2 ∧ pt_id p = id) ∧
        size (points_for w file_path s2) = length chunks.
Proof.
  intros Hfresh Hinj Hrun Hstatus.
  assert (∀ s0 d0 s1,
            fresh_ids w s0 →
            create_embeddings w file_path true s0 = (Ok d0, s1) →
            d0 !! "status" = Some "success" →
            ∃ text chunks pts,
              extract_text w file_path = Ok text ∧
              split_text w (CHUNK_SIZE w) (CHUNK_OVERLAP w) text = Ok chunks ∧
              d0 = success_result (length chunks) ∧
              issued s0 s1
                (Qdrant (Delete (COLLECTION_NAME w) "file_path" file_path) ::
                 Split text :: map (embed_event w) chunks ++
                 [Qdrant (Upsert (COLLECTION_NAME w) pts)]) ∧
              map pt_payload pts = map (chunk_payload file_path) chunks ∧
              (∀ id p, points_for w file_path s1 !! id = Some p ↔
                       p ∈ pts ∧ pt_id p = id) ∧
              size (points_for w file_path s1) = length chunks ∧
              fresh_ids w s1) as Hone.
  { intros s0 d0 s1 Hf0 Hrun0 Hst0.
    destruct (create_embeddings_success_facts w _ _ _ _ _ Hrun0 Hst0)
      as (text & chunks & pts & Htext & Hsplit & Hlen & Hd & Hiss & Hpts
          & Hclk & Hdetail).
    pose proof (new_points_at file_path chunks pts (clock s0 + 1) Hlen Hdetail)
      as Hat.
    destruct (new_points_fresh file_path chunks pts (clock s0 + 1)
                (kept_points file_path true (points_of w s0)) Hat Hinj)
      as (Hnd & Hnew & Hmatch & Hnext).
    { intros t Ht. apply kept_points_fresh, Hf0. lia. }
    exists text, chunks, pts. split_and!; [done..| | | |].
    - apply list_eq. intros i. rewrite !list_lookup_fmap.
      destruct (pts !! i) as [p|] eqn:Hp; simpl.
      + destruct (Hat i p Hp) as (_ & _ & _ & chunk & -> & ->). done.
      + apply lookup_ge_None in Hp. rewrite Hlen in Hp.
        apply lookup_ge_None in Hp. by rewrite Hp.
    - intros id p. unfold points_for. rewrite map_lookup_filter_Some, Hpts.
      simpl. split.
      + intros [Hp Hm].
        destruct (decide (id ∈ map pt_id pts)) as [Hin|Hout].
        * apply list_elem_of_fmap in Hin as (q & -> & Hq).
          rewrite (upsert_points_lookup_in _ _ _ Hnd Hq) in Hp.
          by injection Hp as <-.
        * rewrite upsert_points_lookup_ne in Hp by done.
          unfold kept_points in Hp. rewrite delete_points_lookup in Hp.
          destruct (points_of w s0 !! id); [|done].
          case_decide; [done|]. by injection Hp as <-.
      + intros [Hin <-]. split.
        * by apply upsert_points_lookup_in.
        * by eapply Forall_forall in Hmatch.
    - unfold points_for. rewrite Hpts.
      rewrite (upsert_points_filter_size
                 (λ kv, matches "file_path" file_path kv.2)) by done.
      unfold kept_points. by rewrite matching_after_delete, map_size_empty.
    - intros t Ht. rewrite Hpts. apply Hnext. lia. }
  destruct (Hone _ _ _ Hfresh Hrun Hstatus)
    as (text & chunks & pts & Htext & Hsplit & -> & Hiss & Hpay & Hexact
        & Hsize & Hf1).
  exists text, chunks, pts. split_and!; [done..|].
  intros d2 s2 Hrun2 Hstatus2.
  destruct (Hone _ _ _ Hf1 Hrun2 Hstatus2)
    as (text2 & chunks2 & pts2 & Htext2 & Hsplit2 & -> & _ & Hpay2 & Hexact2
        & Hsize2 & _).
  rewrite Htext in Htext2. injection Htext2 as <-.
  rewrite Hsplit in Hsplit2. injection Hsplit2 as <-.
  split; [done|]. exists pts2. split_and!; [congruence|done|done].
Qed.

End IngestOutcomes.



Section ExtractMore.
Context (w : World).

Lemma pdf_text_raise_inv pages e :
  pdf_text pages = Raise e →
  ∃ before after, pages = map Ok before ++ Raise e :: after.
Proof.
  unfold pdf_text.
  destruct (mapM _ pages) as [texts|e'] eqn:Hm; [done|]. intros [= ->].
  revert Hm. induction pages as [|[t|e0] pages IH]; intros Hm; [done| |].
  - simpl in Hm.
    destruct (mapM _ pages) as [texts|e'] eqn:Hrest; [done|].
    injection Hm as ->. destruct (IH eq_refl) as (before & after & ->).
    by exists (t :: before), after.
  - injection Hm as ->. by exists [], pages.
Qed.

(** X10: [extract_text] raises in exactly three ways: [FileNotFoundError]
    with "File not found: " and the path when the path does not exist;
    whatever [magic.from_file] raises, unchanged; and, when the back end
    chosen by the MIME type raises (for a PDF: the reader or any page),
    [ValueError] with "Unsupported file type or extraction error: "
    followed by the text of that exception. *)
Theorem extract_text_errors file_path e :
  extract_text w file_path = Raise e ↔
  (path_exists w file_path = false ∧
   e = Exn "FileNotFoundError" ("File not found: " +:+ file_path)) ∨
  (path_exists w file_path = true ∧ magic_from_file w file_path = Raise e) ∨
  (path_exists w file_path = true ∧
   ∃ mime e0,
     magic_from_file w file_path = Ok mime ∧
     backend_raises w file_path mime e0 ∧
     e = Exn "ValueError"
             ("Unsupported file type or extraction error: " +:+ exn_str e0)).
Proof.
  unfold extract_text, backend_raises.
  destruct (path_exists w file_path); simpl; cycle 1.
  { split.
    - intros [= <-]. by left.
    - intros [[_ ->]|[[? _]|[? _]]]; done. }
  destruct (magic_from_file w file_path) as [mime|e1]; simpl; cycle 1.
  { split.
    - intros [= <-]. right; left. done.
    - intros [[? _]|[[_ [= ->]]|(_ & ? & ? & ? & _)]]; done. }
  assert (∀ (r : result string) (P : exn → Prop),
            (∀ e0, r = Raise e0 ↔ P e0) →
            result_try r
              (λ e, Raise (Exn "ValueError"
                 ("Unsupported file type or extraction error: " +:+ exn_str e)))
            = Raise e ↔
            ∃ e0, P e0 ∧
              e = Exn "ValueError"
                    ("Unsupported file type or extraction error: "
                     +:+ exn_str e0)) as Hwrap.
  { intros r P HP. destruct r as [t|e0]; simpl.
    - split; [done|]. intros (e0 & He0%HP & _). done.
    - split.
      + intros [= <-]. exists e0. split; [by apply HP|done].
      + intros (e1 & [= ->]%HP & ->). done. }
  destruct (bool_decide (mime = "application/pdf")) eqn:Hpdf.
  - rewrite (Hwrap _ (λ e0, PdfReader_pages w file_path = Raise e0 ∨
                        ∃ before after,
                          PdfReader_pages w file_path
                          = Ok (map Ok before ++ Raise e0 :: after))).
    + split.
      * intros (e0 & He0 & ->). right; right. split; [done|].
        exists mime, e0. by rewrite Hpdf.
      * intros [[[=] _]|[[_ [=]]|(_ & mime0 & e0 & [= <-] & He0 & ->)]].
        rewrite Hpdf in He0. by exists e0.
    + intros e0. destruct (PdfReader_pages w file_path) as [pages|e1]; simpl.
      * split.
        -- intros (before & after & ->)%pdf_text_raise_inv. right. eauto.
        -- intros [[=]|(before & after & [= ->])]. apply pdf_text_raising.
      * split; [intros [= ->]; by left|].
        intros [[= ->]|(? & ? & [=])]. done.
  - destruct (bool_decide (mime ∈ word_mimes)) eqn:Hword;
      [|destruct (String.prefix "image/" mime) eqn:Himg].
    + rewrite (Hwrap _ (λ e0, docx2txt_process w file_path = Raise e0)) by done.
      split.
      * intros (e0 & He0 & ->). right; right. split; [done|].
        exists mime, e0. by rewrite Hpdf, Hword.
      * intros [[[=] _]|[[_ [=]]|(_ & mime0 & e0 & [= <-] & He0 & ->)]].
        rewrite Hpdf, Hword in He0. by exists e0.
    + rewrite (Hwrap _ (λ e0, image_to_string w file_path = Raise e0)) by done.
      split.
      * intros (e0 & He0 & ->). right; right. split; [done|].
        exists mime, e0. by rewrite Hpdf, Hword, Himg.
      * intros [[[=] _]|[[_ [=]]|(_ & mime0 & e0 & [= <-] & He0 & ->)]].
        rewrite Hpdf, Hword, Himg in He0. by exists e0.
    + rewrite (Hwrap _ (λ e0, textract_process w file_path = Raise e0)).
      * split.
        -- intros (e0 & He0 & ->). right; right. split; [done|].
           exists mime, e0. by rewrite Hpdf, Hword, Himg.
        -- intros [[[=] _]|[[_ [=]]|(_ & mime0 & e0 & [= <-] & He0 & ->)]].
           rewrite Hpdf, Hword, Himg in He0. by exists e0.
      * intros e0. unfold mbind, result_bind.
        destruct (textract_process w file_path); [split; intros [=]|].
        split; by intros [= ->].
Qed.

End ExtractMore.

Section ProvisioningMore.
Context (w : World).

Ltac kept_leaf :=
  intros [= <- <-]; simpl;
  rewrite ?insert_insert_eq;
  split;
  [ intros name Hne; by rewrite ?lookup_insert_ne
  | split;
    [ intros c0 Hc0; simplify_eq;
      first [ eexists; split; [eassumption|]; by split_and!
            | eexists; split; [apply lookup_insert_eq|]; simpl;
              split_and!; [done..| |];
              [ intros field Hne; by rewrite lookup_insert_ne
              | intros sch Hsch; congruence ] ]
    | unfold points_of; simpl;
      rewrite ?lookup_insert_eq; by simplify_option_eq ] ].

(** X11: [create_collection] only ever adds: it leaves every other
    collection alone, and of an existing collection of its name it keeps
    the points, the vector size and distance (whatever they are), every
    payload index, and an existing index on [file_path] of whatever
    type; the stored points are the same before and after. *)
Theorem create_collection_preserves s r s' :
  create_collection w s = (r, s') →
  (∀ name, name ≠ COLLECTION_NAME w → qdrant s' !! name = qdrant s !! name) ∧
  (∀ c, qdrant s !! COLLECTION_NAME w = Some c →
     ∃ c', qdrant s' !! COLLECTION_NAME w = Some c' ∧
       points c' = points c ∧
       vec_size c' = vec_size c ∧
       vec_distance c' = vec_distance c ∧
       (∀ field, field ≠ "file_path" →
                 payload_schema c' !! field = payload_schema c !! field) ∧
       (∀ schema, payload_schema c !! "file_path" = Some schema →
                  payload_schema c' !! "file_path" = Some schema)) ∧
  points_of w s' = points_of w s.
Proof.
  rewrite create_collection_run. unfold create_collection_try.
  rewrite bind_run, client_get_collections_run.
  destruct (qdrant_fault w (clock s) GetCollections) as [e1|] eqn:Hf1.
  { kept_leaf. }
  rewrite listed_iff, bind_run.
  destruct (qdrant s !! COLLECTION_NAME w) as [c|] eqn:Hc.
  - rewrite bool_decide_true by eauto. simpl.
    rewrite bind_run, client_get_collection_run. simpl. rewrite Hc.
    destruct (qdrant_fault w (S (clock s)) _) as [e2|] eqn:Hf2.
    { kept_leaf. }
    destruct (payload_schema c !! "file_path") as [sch|] eqn:Hidx.
    + rewrite bool_decide_true by (apply elem_of_dom; eauto). simpl.
      kept_leaf.
    + rewrite bool_decide_false by (rewrite elem_of_dom, Hidx; by intros [? ?]).
      simpl. rewrite client_create_payload_index_run. simpl. rewrite Hc.
      destruct (qdrant_fault w (S (S (clock s))) _) as [e3|] eqn:Hf3.
      * kept_leaf.
      * kept_leaf.
  - rewrite bool_decide_false by (by intros [? ?]). simpl.
    rewrite client_create_collection_run. simpl. rewrite Hc.
    destruct (qdrant_fault w (S (clock s)) _) as [e2|] eqn:Hf2.
    { kept_leaf. }
    rewrite bind_run, client_get_collection_run. simpl.
    rewrite lookup_insert_eq.
    destruct (qdrant_fault w (S (S (clock s))) _) as [e3|] eqn:Hf3.
    { kept_leaf. }
    rewrite bool_decide_false by (simpl; set_solver). simpl.
    rewrite client_create_payload_index_run. simpl. rewrite lookup_insert_eq.
    destruct (qdrant_fault w (S (S (S (clock s)))) _) as [e4|] eqn:Hf4.
    + kept_leaf.
    + kept_leaf.
Qed.

End ProvisioningMore.

(** ** The further properties at work on the small worlds *)


Lemma create_embeddings_reingest_idempotent_witness :
  fresh_ids demo_world demo_state ∧ distinct_ids demo_world ∧
  ∃ s' chunks (pts : list Point),
    create_embeddings demo_world "a.txt" true demo_state
      = (Ok (success_result (length chunks)), s') ∧
    map pt_payload pts = map (chunk_payload "a.txt") chunks ∧
    (∀ id p, points_for demo_world "a.txt" s' !! id = Some p ↔
             p ∈ pts ∧ pt_id p = id) ∧
    size (points_for demo_world "a.txt" s') = length chunks.
Proof.
  split; [exact demo_fresh_ids|]. split; [exact demo_distinct_ids|].
  set (run := create_embeddings demo_world "a.txt" true demo_state).
  assert (run = (Ok (success_result 1), run.2)) as Hrun
    by (vm_compute; reflexivity).
  destruct (create_embeddings_reingest_idempotent demo_world "a.txt" demo_state
              _ _ demo_fresh_ids demo_distinct_ids Hrun (success_result_status 1))
    as (text & chunks & pts & _ & _ & Hd & _ & Hpay & Hexact & Hsize & _).
  exists run.2, chunks, pts.
  split; [rewrite <- Hd; exact Hrun|].
  split; [exact Hpay|split; [exact Hexact|exact Hsize]].
Defined.

Lemma create_embeddings_success_detail_witness :
  ∃ s' text chunks (pts : list Point),
    create_embeddings demo_world "a.txt" true demo_state
      = (Ok (success_result 1), s') ∧
    extract_text demo_world "a.txt" = Ok text ∧
    length pts = length chunks ∧
    issued demo_state s'
      (delete_prefix demo_world "a.txt" true ++
       Split text :: map (embed_event demo_world) chunks ++
       [Qdrant (Upsert (COLLECTION_NAME demo_world) pts)]).
Proof.
  set (run := create_embeddings demo_world "a.txt" true demo_state).
  assert (run = (Ok (success_result 1), run.2)) as Hrun
    by (vm_compute; reflexivity).
  destruct (create_embeddings_success_detail demo_world "a.txt" true demo_state
              _ _ Hrun (success_result_status 1))
    as (text & chunks & pts & Htext & _ & Hlen & _ & Hiss & _).
  exists run.2, text, chunks, pts.
  split; [exact Hrun|]. split; [exact Htext|]. split; [exact Hlen|exact Hiss].
Defined.

Lemma create_embeddings_request_order_witness :
  path_exists store_down_world "a.txt" = true ∧
  ∃ tail,
    issued demo_state
      (create_embeddings store_down_world "a.txt" true demo_state).2
      (delete_prefix store_down_world "a.txt" true ++ tail).
Proof.
  assert (path_exists store_down_world "a.txt" = true) as Hex
    by (vm_compute; reflexivity).
  split; [exact Hex|].
  destruct (create_embeddings_request_order store_down_world "a.txt" true
              demo_state _ _ Hex
              (surjective_pairing
                 (create_embeddings store_down_world "a.txt" true demo_state)))
    as (tail & Hiss & _).
  exists tail. exact Hiss.
Defined.

Lemma create_embeddings_error_writes_nothing_witness :
  ∃ s',
    create_embeddings store_down_world "a.txt" true demo_state
      = (Ok (error_result "timed out"), s') ∧
    error_result "timed out" !! "status" = Some "error" ∧
    ∀ id p, points_of store_down_world s' !! id = Some p →
            points_of store_down_world demo_state !! id = Some p.
Proof.
  set (run := create_embeddings store_down_world "a.txt" true demo_state).
  assert (run = (Ok (error_result "timed out"), run.2)) as Hrun
    by (vm_compute; reflexivity).
  destruct (create_embeddings_error_writes_nothing store_down_world "a.txt" true
              demo_state _ _ Hrun (error_result_status "timed out"))
    as [_ Hsub].
  exists run.2. split; [exact Hrun|].
  split; [exact (error_result_status "timed out")|exact Hsub].
Defined.

Lemma create_embeddings_keeps_collections_witness :
  qdrant (create_embeddings demo_world "a.txt" true demo_state).2
    !! "another-collection"
  = qdrant demo_state !! "another-collection".
Proof.
  destruct (create_embeddings_keeps_collections demo_world "a.txt" true
              demo_state _ _
              (surjective_pairing
                 (create_embeddings demo_world "a.txt" true demo_state)))
    as [Hother _].
  apply Hother. intros [=].
Defined.

Lemma qdrant_search_read_only_witness :
  qdrant (qdrant_search demo_world "alpha" 5 demo_state).2 = qdrant demo_state.
Proof.
  destruct (qdrant_search_read_only demo_world "alpha" 5 demo_state _ _
              (surjective_pairing (qdrant_search demo_world "alpha" 5 demo_state)))
    as [Hq _].
  exact Hq.
Defined.

Lemma qdrant_search_results_witness :
  embed_content ranked_world (clock demo_state) (EMBED_MODEL ranked_world)
    "alpha" (Some "SEMANTIC_SIMILARITY") = Ok {[ "embedding" := [1%Z; 2%Z] ]} ∧
  qdrant demo_state !! COLLECTION_NAME ranked_world = Some demo_collection ∧
  ∃ res, (qdrant_search ranked_world "alpha" 5 demo_state).1 = Ok res ∧
         length res = 2 ∧
         res !! 1 = Some {[ "text" := "" ]}.
Proof.
  assert (embed_content ranked_world (clock demo_state)
            (EMBED_MODEL ranked_world) "alpha" (Some "SEMANTIC_SIMILARITY")
          = Ok {[ "embedding" := [1%Z; 2%Z] ]}) as Hresp by reflexivity.
  assert (qdrant demo_state !! COLLECTION_NAME ranked_world
          = Some demo_collection) as Hc by (vm_compute; reflexivity).
  split; [exact Hresp|]. split; [exact Hc|].
  destruct (qdrant_search_results ranked_world "alpha" 5 demo_state
              {[ "embedding" := [1%Z; 2%Z] ]} [1%Z; 2%Z] demo_collection
              Hresp ltac:(vm_compute; reflexivity) eq_refl Hc)
    as [Hall _].
  destruct Hall as (res & Hres & Hlen & Hat).
  { repeat constructor; simpl; eauto. }
  exists res. split; [exact Hres|]. split; [exact Hlen|].
  destruct (Hat 1 {| sp_id := "id-x";
                     sp_payload := Some {[ "file_path" := "x.txt" ]} |} eq_refl)
    as (payload & Hpay & Hentry).
  injection Hpay as <-. exact Hentry.
Defined.

Lemma qdrant_search_missing_collection_witness :
  qdrant empty_state !! COLLECTION_NAME demo_world = None ∧
  ∃ e, (qdrant_search demo_world "alpha" 5 empty_state).1 = Ok (search_error e).
Proof.
  assert (qdrant empty_state !! COLLECTION_NAME demo_world = None) as Hc
    by reflexivity.
  split; [exact Hc|].
  destruct (qdrant_search_missing_collection demo_world "alpha" 5 empty_state
              _ _ Hc
              (surjective_pairing (qdrant_search demo_world "alpha" 5 empty_state)))
    as [[e He] _].
  exists e. exact He.
Defined.

Lemma extract_text_errors_witness :
  path_exists demo_world "/no/such/file" = false ∧
  extract_text demo_world "/no/such/file"
    = Raise (Exn "FileNotFoundError" "File not found: /no/such/file").
Proof.
  assert (path_exists demo_world "/no/such/file" = false) as Hex
    by (vm_compute; reflexivity).
  split; [exact Hex|].
  apply (extract_text_errors demo_world "/no/such/file"). left.
  split; [exact Hex|reflexivity].
Defined.

Lemma create_collection_preserves_witness :
  points_of demo_world (create_collection demo_world demo_state).2
  = points_of demo_world demo_state.
Proof.
  destruct (create_collection_preserves demo_world demo_state _ _
              (surjective_pairing (create_collection demo_world demo_state)))
    as (_ & _ & Hpts).
  exact Hpts.
Defined.

(** * The profile tools, the web search and the chat handlers *)

(** ** The profile tools *)

Section Profile.
Import main_py.
Context (repr : string → string).

Lemma run_calls_snoc cs c u :
  run_calls repr (cs ++ [c]) u = (call repr c (run_calls repr cs u)).2.
Proof. unfold run_calls. by rewrite foldl_app. Qed.

Lemma getitem_setitem key value d key' :
  getitem key' (setitem key value d) =
  if decide (key = key') then Some value else getitem key' d.
Proof.
  induction d as [|[k v] d IH]; simpl.
  - done.
  - destruct (decide (k = key)) as [->|Hne]; simpl.
    + by destruct (decide (key = key')).
    + rewrite IH. destruct (decide (k = key')), (decide (key = key'));
        simplify_eq; done.
Qed.

Lemma keys_setitem key value d :
  map fst (setitem key value d) =
  if decide (key ∈ map fst d) then map fst d else map fst d ++ [key].
Proof.
  induction d as [|[k v] d IH]; simpl.
  - destruct (decide (key ∈ [])) as [Hin|]; [|done]. by apply elem_of_nil in Hin.
  - destruct (decide (k = key)) as [->|Hne]; simpl.
    + destruct (decide (key ∈ key :: map fst d)) as [|Hout]; [done|].
      destruct Hout. by left.
    + rewrite IH.
      destruct (decide (key ∈ map fst d)) as [Hin|Hout],
               (decide (key ∈ k :: map fst d)) as [Hin'|Hout']; try done.
      * destruct Hout'. by right.
      * apply elem_of_cons in Hin' as [?|?]; congruence.
Qed.

(** X12: after any run of tool calls on one profile, name, age and
    location are those of the last call that set them (or the old ones);
    the interests are the old ones followed by every interest added, in
    call order, repeats included; [get_user_info] changes nothing. *)
Theorem profile_after_calls cs u :
  name (run_calls repr cs u) = default (name u) (last (names_set cs)) ∧
  age (run_calls repr cs u) = default (age u) (last (ages_set cs)) ∧
  location (run_calls repr cs u)
    = default (location u) (last (locations_set cs)) ∧
  interests (run_calls repr cs u) = interests u ++ interests_added cs.
Proof.
  induction cs as [|c cs IH] using rev_ind.
  { simpl. by rewrite app_nil_r. }
  destruct IH as (Hn & Ha & Hl & Hi).
  rewrite run_calls_snoc.
  unfold names_set, ages_set, locations_set, interests_added in *.
  rewrite !omap_app.
  destruct c; simpl; rewrite ?app_nil_r, ?last_snoc; simpl;
    rewrite ?Hi, ?app_assoc; done.
Qed.

(** X13: after any run of tool calls, each preference holds the value
    of the last call that set its key, or its old value when no call
    did; keys stay unique, and the keys known before keep their places
    at the front, new ones being added after them. *)
Theorem preferences_after_calls cs u :
  (∀ key, getitem key (preferences (run_calls repr cs u))
          = match last (values_set key cs) with
            | Some v => Some v
            | None => getitem key (preferences u)
            end) ∧
  (NoDup (map fst (preferences u)) →
   NoDup (map fst (preferences (run_calls repr cs u)))) ∧
  map fst (preferences u) `prefix_of`
    map fst (preferences (run_calls repr cs u)).
Proof.
  induction cs as [|c cs IH] using rev_ind.
  { split_and!; [done..|]. done. }
  destruct IH as (Hget & Hnd & Hpre).
  rewrite run_calls_snoc. unfold values_set in *.
  destruct c; simpl;
    try (split_and!; [|done..]; intros key; rewrite omap_app; simpl;
         by rewrite app_nil_r).
  split_and!.
  - intros key'. rewrite omap_app, getitem_setitem. simpl.
    destruct (decide (key = key')) as [->|Hne].
    + by rewrite last_snoc.
    + rewrite app_nil_r. apply Hget.
  - intros Hu. specialize (Hnd Hu). rewrite keys_setitem.
    case_decide; [done|]. apply NoDup_app. split_and!; [done| |].
    + intros k Hk ->%list_elem_of_singleton. done.
    + apply NoDup_singleton.
  - rewrite keys_setitem. case_decide; [done|].
    etrans; [exact Hpre|]. by apply prefix_app_r.
Qed.

End Profile.

(** ** The web search *)

(** X14: [search_everything] cannot run: tools.py never imports [time],
    so the first statement of the body raises [NameError] for every
    query, before the API key is read or any request is sent, whatever
    the environment and the network are. *)
Theorem search_everything_name_error net query :
  search_everything net query
  = Raise (Exn "NameError" "name 'time' is not defined").
Proof. reflexivity. Qed.

(** ** The chat handlers *)

Section Desk.
Import ui_py.
Context (w : World) (d : Desk).

Lemma ui_bind_run {A B} (m : UI A) (f : A → UI B) c :
  bind m f c =
  match m c with
  | (Ok a, c') => f a c'
  | (Raise e, c') => (Raise e, c')
  end.
Proof. reflexivity. Qed.

Lemma send_run text c :
  send d text c =
  match transport d (ticks c) with
  | Some e =>
      (Raise e,
       {| chat_history := chat_history c; user_info := user_info c;
          screen := screen c; ticks := S (ticks c); store := store c |})
  | None =>
      (Ok (length (screen c)),
       {| chat_history := chat_history c; user_info := user_info c;
          screen := screen c ++ [text]; ticks := S (ticks c);
          store := store c |})
  end.
Proof.
  unfold send. rewrite ui_bind_run. simpl.
  by destruct (transport d (ticks c)).
Qed.

Lemma update_run msg text c :
  update d msg text c =
  match transport d (ticks c) with
  | Some e =>
      (Raise e,
       {| chat_history := chat_history c; user_info := user_info c;
          screen := screen c; ticks := S (ticks c); store := store c |})
  | None =>
      (Ok tt,
       {| chat_history := chat_history c; user_info := user_info c;
          screen := <[msg := text]> (screen c); ticks := S (ticks c);
          store := store c |})
  end.
Proof.
  unfold update. rewrite ui_bind_run. simpl.
  by destruct (transport d (ticks c)).
Qed.

Lemma string_app_nil_r (x : string) : x +:+ "" = x.
Proof.
  induction x as [|a x IH]; [done|].
  change (String a (x +:+ "") = String a x). by rewrite IH.
Qed.

Lemma string_app_assoc (x y z : string) : (x +:+ y) +:+ z = x +:+ y +:+ z.
Proof.
  induction x as [|a x IH]; [done|].
  change (String a ((x +:+ y) +:+ z) = String a (x +:+ y +:+ z)).
  by rewrite IH.
Qed.

Lemma concat_empty_cons (x : string) (l : list string) :
  String.concat "" (x :: l) = x +:+ String.concat "" l.
Proof. destruct l; simpl; [by rewrite string_app_nil_r|done]. Qed.

Lemma full_response_deltas events :
  full_response events = String.concat "" (deltas events).
Proof.
  unfold full_response, deltas.
  assert (∀ acc,
            foldl (λ acc event,
                     if bool_decide (ev_type event = "raw_response_event")
                     then match ev_delta event with
                          | Some delta => acc +:+ delta
                          | None => acc
                          end
                     else acc) acc events
            = acc +:+ String.concat ""
                (omap (λ event,
                         if bool_decide (ev_type event = "raw_response_event")
                         then ev_delta event else None) events)) as Hgen.
  { induction events as [|event events IH]; intros acc.
    - simpl. by rewrite string_app_nil_r.
    - cbn [foldl omap list_omap]. rewrite IH.
      destruct (bool_decide _); [|done].
      destruct (ev_delta event) as [delta|]; [|done].
      by rewrite concat_empty_cons, string_app_assoc. }
  by rewrite Hgen.
Qed.

(** The attachments: they touch neither history, profile nor store. *)
Lemma save_elements_run els full c r c' :
  save_elements d (temp_dir d) els full c = (r, c') →
  chat_history c' = chat_history c ∧ user_info c' = user_info c ∧
  store c' = store c ∧ ticks c ≤ ticks c' ∧
  match r with
  | Ok (inr full') =>
      screen c' = screen c ∧ full' = full +:+ attachment_markers d els
  | Ok (inl _) =>
      ∃ element e, element ∈ els ∧ is_File element = true ∧
        screen c' = screen c ++ ["Error saving file " +:+ el_name element +:+ ": "
                                 +:+ exn_str e]
  | Raise _ => screen c' = screen c
  end.
Proof.
  pose proof string_app_assoc as Hassoc.
  pose proof string_app_nil_r as Hnil.
  revert full c. induction els as [|element els IH]; intros full c Hrun.
  - injection Hrun as <- <-. split_and!; try done.
    all: unfold attachment_markers; simpl; by rewrite Hnil.
  - simpl in Hrun. destruct (is_File element) eqn:Hfile.
    + rewrite ui_bind_run in Hrun. simpl in Hrun.
      destruct (save_upload d (ticks c) _ element) as [e|].
      * rewrite ui_bind_run, send_run in Hrun. simpl in Hrun.
        destruct (transport d (S (ticks c))) as [e'|].
        -- injection Hrun as <- <-. split_and!; simpl; [done..|lia|done].
        -- injection Hrun as <- <-. split_and!; simpl; [done..|lia|].
           exists element, e. split_and!; [by left|done|done].
      * apply IH in Hrun as (Hh & Hu & Hs & Ht & Hr). simpl in *.
        split_and!; [done..|lia|].
        destruct r as [[[]|full']|e].
        -- destruct Hr as (el & e & Hin & Hf & Hscr).
           exists el, e. split_and!; [by right|done|done].
        -- destruct Hr as [Hscr ->]. split; [done|].
           unfold attachment_markers. rewrite filter_cons_True by done.
           rewrite fmap_cons, concat_empty_cons. by rewrite Hassoc.
        -- done.
    + apply IH in Hrun as (Hh & Hu & Hs & Ht & Hr).
      split_and!; [done..|].
      destruct r as [[[]|full']|e]; [| |done].
      * destruct Hr as (el & e & Hin & Hf & Hscr).
        exists el, e. split_and!; [by right|done|done].
      * destruct Hr as [Hscr ->]. split; [done|].
        unfold attachment_markers. rewrite filter_cons_False; [done|].
        by rewrite Hfile.
Qed.

Lemma uploads_run message c r c' :
  uploads d message c = (r, c') →
  chat_history c' = chat_history c ∧ user_info c' = user_info c ∧
  store c' = store c ∧ ticks c ≤ ticks c' ∧
  match r with
  | Ok (inr full') =>
      screen c' = screen c ∧
      full' = content message +:+ attachment_markers d (elements message)
  | Ok (inl _) =>
      ∃ element e, element ∈ elements message ∧ is_File element = true ∧
        screen c' = screen c ++ ["Error saving file " +:+ el_name element +:+ ": "
                                 +:+ exn_str e]
  | Raise _ => screen c' = screen c
  end.
Proof.
  unfold uploads. destruct (elements message) as [|element els] eqn:Hels.
  - intros [= <- <-]. split_and!; try done.
    all: unfold attachment_markers; simpl; by rewrite string_app_nil_r.
  - rewrite ui_bind_run. unfold tick_ui. cbv beta match.
    destruct (makedirs d (ticks c) (temp_dir d)) as [e|].
    + intros [= <- <-]. split_and!; simpl; [done..|lia|done].
    + intros Hrun. apply save_elements_run in Hrun as (? & ? & ? & ? & ?).
      simpl in *. split_and!; [done..|lia|done].
Qed.

Lemma insert_last {A} (l : list A) (x y : A) :
  <[length l := y]> (l ++ [x]) = l ++ [y].
Proof. induction l as [|a l IH]; simpl; [done|]. by rewrite IH. Qed.

Lemma apologise_run msg e c :
  apologise d msg e c =
  match update d msg (apology d e) c with
  | (Ok _, c') => (Ok (apology d e), c')
  | (Raise e', c') => (Raise e', c')
  end.
Proof.
  unfold apologise, apology.
  destruct (isinstance d e "litellm.exceptions.InternalServerError");
    [|destruct (isinstance d e "ModelBehaviorError")];
    rewrite ui_bind_run; by destruct (update d msg _ c) as [[[]|?] ?].
Qed.

Lemma agentic_system_run s :
  agentic_system w s =
  match create_collection w s with
  | (Ok _, s1) =>
      (Ok (OrchestrationAssistant, main_py.default_user_info,
           RagAssistant, LiveSearchAssistant), s1)
  | (Raise e, s1) => (Raise e, s1)
  end.
Proof.
  unfold agentic_system. rewrite bind_run.
  by destruct (create_collection w s) as [[[]|e] s1].
Qed.

#[local] Arguments send : simpl never.
#[local] Arguments update : simpl never.
#[local] Arguments apologise : simpl never.
#[local] Arguments respond : simpl never.
#[local] Arguments try_ : simpl never.
#[local] Arguments on_store : simpl never.
#[local] Arguments agentic_system : simpl never.
#[local] Arguments create_collection : simpl never.

Ltac step_ui :=
  repeat (first [ rewrite ui_bind_run
                | rewrite send_run
                | rewrite update_run
                | rewrite apologise_run
                | rewrite agentic_system_run
                | progress unfold try_, respond, on_store
                | match goal with
                  | H : ∀ t, transport d t = None |- _ => rewrite H
                  end ];
          simpl).

(** The handler on a message whose attachments were saved, the
    transport being up: the whole of lines 52-100. *)
Lemma main_run message c full c1 :
  (∀ t, transport d t = None) →
  uploads d message c = (Ok (inr full), c1) →
  let h1 := default [] (chat_history c)
            ++ [ ({[ "role" := "user"; "content" := full ]} : dict) ] in
  let outcome :=
    match create_collection w (store c) with
    | (Raise e, s1) => (apology d e, s1)
    | (Ok _, s1) =>
        match run_streamed d (S (ticks c1)) OrchestrationAssistant h1
                           main_py.default_user_info s1 with
        | (Ok events, s2) => (full_response events, s2)
        | (Raise e, s2) => (apology d e, s2)
        end
    end in
  ∃ n,
    main w d message c =
    (Ok tt,
     {| chat_history :=
          Some (h1 ++ [ {[ "role" := "assistant"; "content" := outcome.1 ]} ]);
        user_info := user_info c;
        screen := screen c ++ [outcome.1];
        ticks := n;
        store := outcome.2 |}).
Proof.
  intros Hup Hsaved h1 outcome.
  pose proof (uploads_run _ _ _ _ Hsaved) as (Hh & Hu & Hs & _ & Hscr & _).
  unfold main. rewrite ui_bind_run, Hsaved.
  subst outcome h1. rewrite <- Hs.
  destruct c1 as [hist1 user1 screen1 ticks1 store1]. simpl in *. subst.
  destruct c as [hist user scr tks st]. simpl in *.
  destruct hist as [hist|]; simpl.
  -
    step_ui.
    destruct (create_collection w st) as [[[]|e] s1]; step_ui.
    + destruct (run_streamed d (S ticks1) OrchestrationAssistant _
                  main_py.default_user_info s1) as [[events|e] s2]; step_ui;
        rewrite insert_last; eauto.
    + rewrite insert_last. eauto.
  -
    step_ui.
    destruct (create_collection w st) as [[[]|e] s1]; step_ui.
    + destruct (run_streamed d (S ticks1) OrchestrationAssistant _
                  main_py.default_user_info s1) as [[events|e] s2]; step_ui;
        rewrite insert_last; eauto.
    + rewrite insert_last. eauto.
Qed.


Lemma save_elements_saved els full c :
  (∀ t p element, save_upload d t p element = None) →
  save_elements d (temp_dir d) els full c =
  (Ok (inr (full +:+ attachment_markers d els)),
   {| chat_history := chat_history c; user_info := user_info c;
      screen := screen c; ticks := ticks c + length (files els);
      store := store c |}).
Proof.
  intros Hsave. revert full c.
  induction els as [|element els IH]; intros full c.
  - unfold attachment_markers. simpl.
    rewrite string_app_nil_r, Nat.add_0_r. by destruct c.
  - simpl. destruct (is_File element) eqn:Hfile.
    + rewrite ui_bind_run. simpl. rewrite Hsave, IH. simpl.
      unfold attachment_markers, files. rewrite !filter_cons_True by done.
      rewrite fmap_cons, concat_empty_cons, !string_app_assoc. simpl.
      by rewrite Nat.add_succ_r.
    + rewrite IH. unfold attachment_markers, files.
      rewrite !filter_cons_False; [done|by rewrite Hfile..].
Qed.

Lemma uploads_saved message c :
  (∀ t, makedirs d t (temp_dir d) = None) →
  (∀ t p element, save_upload d t p element = None) →
  uploads d message c =
  (Ok (inr (content message +:+ attachment_markers d (elements message))),
   {| chat_history := chat_history c; user_info := user_info c;
      screen := screen c; ticks := ticks c + upload_ticks message;
      store := store c |}).
Proof.
  intros Hmk Hsave. unfold uploads, upload_ticks.
  destruct (elements message) as [|element els].
  - unfold attachment_markers. simpl.
    rewrite string_app_nil_r, Nat.add_0_r. by destruct c.
  - rewrite ui_bind_run. unfold tick_ui. cbv beta match.
    rewrite Hmk, save_elements_saved by done. simpl.
    by rewrite Nat.add_succ_r.
Qed.

(** The handler when the transport is up and every attachment is
    saved. *)
Lemma main_saved message c :
  (∀ t, transport d t = None) →
  (∀ t, makedirs d t (temp_dir d) = None) →
  (∀ t p element, save_upload d t p element = None) →
  let full := content message +:+ attachment_markers d (elements message) in
  let h1 := default [] (chat_history c) ++ [chat_entry "user" full] in
  let outcome :=
    match create_collection w (store c) with
    | (Raise e, s1) => (apology d e, s1)
    | (Ok _, s1) =>
        match run_streamed d (S (ticks c + upload_ticks message))
                           OrchestrationAssistant h1
                           main_py.default_user_info s1 with
        | (Ok events, s2) => (full_response events, s2)
        | (Raise e, s2) => (apology d e, s2)
        end
    end in
  ∃ n,
    main w d message c =
    (Ok tt,
     {| chat_history := Some (h1 ++ [chat_entry "assistant" outcome.1]);
        user_info := user_info c;
        screen := screen c ++ [outcome.1];
        ticks := n;
        store := outcome.2 |}).
Proof.
  intros Hup Hmk Hsave.
  exact (main_run message c _ _ Hup (uploads_saved message c Hmk Hsave)).
Qed.


(** *** The profile of the session *)

Local Abbreviation blind m :=
  (∀ u c, m (put_profile u c) = ((m c).1, put_profile u (m c).2)).

Lemma blind_bind {A B} (m : UI A) (f : A → UI B) :
  blind m → (∀ a, blind (f a)) → blind (bind m f).
Proof.
  intros Hm Hf u c. rewrite !ui_bind_run, Hm.
  destruct (m c) as [[a|e] c']; simpl; [apply Hf|done].
Qed.

Lemma blind_try {A} (m : UI A) (h : exn → UI A) :
  blind m → (∀ e, blind (h e)) → blind (try_ m h).
Proof.
  intros Hm Hh u c. unfold try_. rewrite Hm.
  destruct (m c) as [[a|e] c']; simpl; [done|apply Hh].
Qed.

Lemma blind_ret {A} (a : A) : blind (ret a).
Proof. done. Qed.

Lemma blind_fail {A} (e : exn) : blind (@fail A e).
Proof. done. Qed.

Lemma blind_tick : blind tick_ui.
Proof. done. Qed.

Lemma blind_on_store {A} (m : M A) : blind (on_store m).
Proof. intros u c. unfold on_store. simpl. by destruct (m (store c)). Qed.

Lemma blind_set_chat_history h : blind (set_chat_history h).
Proof. done. Qed.

Lemma blind_send text : blind (send d text).
Proof.
  intros u c. rewrite !send_run. simpl.
  by destruct (transport d (ticks c)).
Qed.

Lemma blind_update msg text : blind (update d msg text).
Proof.
  intros u c. rewrite !update_run. simpl.
  by destruct (transport d (ticks c)).
Qed.

Lemma blind_append_history aliased history entry :
  blind (append_history aliased history entry).
Proof. by destruct aliased. Qed.

Lemma blind_save_elements temp els full :
  blind (save_elements d temp els full).
Proof.
  revert full. induction els as [|element els IH]; intros full; [done|].
  simpl. destruct (is_File element); [|apply IH].
  apply blind_bind; [apply blind_tick|]. intros t.
  destruct (save_upload d t _ element); [|apply IH].
  apply blind_bind; [apply blind_send|]. intros _. apply blind_ret.
Qed.

Lemma blind_uploads message : blind (uploads d message).
Proof.
  unfold uploads. destruct (elements message); [apply blind_ret|].
  apply blind_bind; [apply blind_tick|]. intros t.
  destruct (makedirs d t (temp_dir d)); [apply blind_fail|].
  apply blind_save_elements.
Qed.

Lemma blind_respond msg history session_profile :
  blind (respond w d msg history session_profile).
Proof.
  unfold respond. apply blind_bind; [apply blind_on_store|].
  intros [[[agent profile] rag] live].
  apply blind_bind; [apply blind_tick|]. intros t.
  apply blind_bind; [apply blind_on_store|]. intros events.
  apply blind_bind; [apply blind_update|]. intros _. apply blind_ret.
Qed.

Lemma blind_apologise msg e : blind (apologise d msg e).
Proof.
  unfold apologise.
  destruct (isinstance d e "litellm.exceptions.InternalServerError");
    [|destruct (isinstance d e "ModelBehaviorError")];
    (apply blind_bind; [apply blind_update|]; intros _; apply blind_ret).
Qed.

Lemma blind_main message : blind (main w d message).
Proof.
  intros u c. unfold main. cbn [put_profile chat_history].
  generalize (bool_decide (is_Some (chat_history c))) as aliased.
  generalize (default [] (chat_history c)) as history.
  intros history aliased.
  apply blind_bind; [apply blind_uploads|].
  intros [[]|full]; [apply blind_ret|].
  apply blind_bind; [apply blind_append_history|]. intros h1.
  apply blind_bind; [apply blind_send|]. intros msg.
  apply blind_bind;
    [apply blind_try; [apply blind_respond|apply blind_apologise]|].
  intros reply.
  apply blind_bind; [apply blind_append_history|]. intros h2.
  apply blind_set_chat_history.
Qed.


(** *** Another runner *)

Lemma save_elements_with_runner run temp els full c :
  save_elements (with_runner run d) temp els full c
  = save_elements d temp els full c.
Proof.
  revert full c. induction els as [|element els IH]; intros full c; [done|].
  simpl. destruct (is_File element); [|apply IH].
  rewrite !ui_bind_run. simpl.
  destruct (save_upload d (ticks c) _ element); [done|apply IH].
Qed.

Lemma uploads_with_runner run message c :
  uploads (with_runner run d) message c = uploads d message c.
Proof.
  unfold uploads. destruct (elements message); [done|].
  rewrite !ui_bind_run. unfold tick_ui. cbv beta match.
  change (makedirs (with_runner run d)) with (makedirs d).
  change (temp_dir (with_runner run d)) with (temp_dir d).
  destruct (makedirs d (ticks c) (temp_dir d)); [done|].
  apply save_elements_with_runner.
Qed.

Lemma send_with_runner run text : send (with_runner run d) text = send d text.
Proof. reflexivity. Qed.

Lemma apologise_with_runner run msg e :
  apologise (with_runner run d) msg e = apologise d msg e.
Proof. reflexivity. Qed.

Lemma append_history_store aliased history entry c r c' :
  append_history aliased history entry c = (r, c') → store c' = store c.
Proof. destruct aliased; by intros [= <- <-]. Qed.

Lemma send_store text c r c' :
  send d text c = (r, c') → store c' = store c.
Proof.
  rewrite send_run. destruct (transport d (ticks c)); by intros [= <- <-].
Qed.

(** The handler with another runner, when the two runners do the same
    on every state the handler can reach them in. *)
Lemma main_with_runner run message c :
  (∀ msg h u c2, store c2 = store c →
     respond w (with_runner run d) msg h u c2 = respond w d msg h u c2) →
  main w (with_runner run d) message c = main w d message c.
Proof.
  intros Hsame. unfold main.
  generalize (bool_decide (is_Some (chat_history c))) as aliased.
  generalize (default [] (chat_history c)) as history.
  intros history aliased.
  rewrite !ui_bind_run, uploads_with_runner.
  destruct (uploads d message c) as [[[[]|full]|e] c1] eqn:Hup; [done| |done].
  apply uploads_run in Hup as (_ & _ & Hs1 & _).
  rewrite !ui_bind_run.
  destruct (append_history aliased history _ c1) as [[h1|e] c2] eqn:Happ;
    [|done].
  apply append_history_store in Happ.
  rewrite !ui_bind_run, send_with_runner.
  destruct (send d _ c2) as [[msg|e] c3] eqn:Hsend; [|done].
  apply send_store in Hsend.
  rewrite !ui_bind_run. unfold try_.
  rewrite Hsame by congruence.
  by destruct (respond w d msg h1 (user_info c) c3) as [[reply|e] c4].
Qed.

Lemma respond_default_context msg h u c :
  respond w (with_default_context d) msg h u c = respond w d msg h u c.
Proof.
  unfold respond. rewrite !ui_bind_run. unfold on_store.
  rewrite agentic_system_run.
  by destruct (create_collection w (store c)) as [[[]|e] s1].
Qed.

Lemma respond_bootstrap_fails run msg h u c e s1 :
  create_collection w (store c) = (Raise e, s1) →
  respond w (with_runner run d) msg h u c = respond w d msg h u c.
Proof.
  intros Hcc. unfold respond. rewrite !ui_bind_run. unfold on_store.
  by rewrite agentic_system_run, Hcc.
Qed.


(** *** Failures on the way *)


Lemma save_elements_fails pre element post e full c :
  is_File element = true →
  (∀ t el, el ∈ pre → is_File el = true →
     save_upload d t (path_join d (temp_dir d) (el_name el)) el = None) →
  (∀ t, save_upload d t (path_join d (temp_dir d) (el_name element)) element
        = Some e) →
  (∀ t, transport d t = None) →
  ∃ n,
    save_elements d (temp_dir d) (pre ++ element :: post) full c =
    (Ok (inl tt),
     {| chat_history := chat_history c; user_info := user_info c;
        screen := screen c ++ ["Error saving file " +:+ el_name element
                               +:+ ": " +:+ exn_str e];
        ticks := n; store := store c |}).
Proof.
  intros Hfile Hpre Hfail Hup. revert full c.
  induction pre as [|el pre IH]; intros full c.
  - cbn [app save_elements]. rewrite Hfile, ui_bind_run.
    unfold tick_ui. cbv beta match. rewrite Hfail, ui_bind_run, send_run.
    cbn [ticks]. rewrite Hup. simpl. eauto.
  - cbn [app save_elements]. destruct (is_File el) eqn:Hel.
    + rewrite ui_bind_run. unfold tick_ui. cbv beta match.
      rewrite Hpre by (done || by left).
      assert (∀ t el', el' ∈ pre → is_File el' = true →
                save_upload d t (path_join d (temp_dir d) (el_name el')) el'
                = None) as Hpre'.
      { intros t el' Hin. apply Hpre. by right. }
      destruct (IH Hpre'
                   (full +:+ " [Attachment: '"
                    +:+ path_join d (temp_dir d) (el_name el) +:+ "']")
                   {| chat_history := chat_history c; user_info := user_info c;
                      screen := screen c; ticks := S (ticks c);
                      store := store c |}) as [n Hn].
      exists n. exact Hn.
    + apply IH. intros t el' Hin. apply Hpre. by right.
Qed.


Ltac cases_ui :=
  repeat first
    [ rewrite ui_bind_run
    | rewrite send_run
    | rewrite update_run
    | rewrite apologise_run
    | rewrite agentic_system_run
    | progress unfold try_, respond, on_store
    | progress simpl
    | match goal with
      | |- context [match transport d ?t with _ => _ end] =>
          destruct (transport d t)
      | |- context [match create_collection w ?s with _ => _ end] =>
          destruct (create_collection w s) as [[[]|?] ?]
      | |- context [match run_streamed d ?t ?a ?h ?u ?s with _ => _ end] =>
          destruct (run_streamed d t a h u s) as [[?|?] ?]
      end ].

(** X20: whatever the desk does, a turn only adds: the profile of the
    session is the same afterwards, the history before is a prefix of
    the history after and at most two entries longer, and the screen
    before is a prefix of the screen after and at most one message
    longer.  Nothing said earlier is rewritten or dropped, also when the
    handler raises half-way. *)
Theorem main_never_rewrites message c :
  let c' := (main w d message c).2 in
  user_info c' = user_info c ∧
  default [] (chat_history c) `prefix_of` default [] (chat_history c') ∧
  length (default [] (chat_history c'))
    ≤ length (default [] (chat_history c)) + 2 ∧
  screen c `prefix_of` screen c' ∧
  length (screen c') ≤ S (length (screen c)).
Proof.
  cbv zeta. unfold main. rewrite ui_bind_run.
  destruct (uploads d message c) as [[[[]|full]|e] c1] eqn:Hrun;
    apply uploads_run in Hrun as (Hh & Hu & Hs & _ & Hscr).
  - destruct Hscr as (element & e & _ & _ & Hscr). cbn [ret snd].
    rewrite Hh, Hu, Hscr, length_app. simpl.
    split_and!; [done|done|lia|by apply prefix_app_r|lia].
  - destruct Hscr as [Hscr _].
    destruct c1 as [hist1 user1 screen1 ticks1 store1]. simpl in *. subst.
    destruct c as [hist user scr tks st]. simpl in *.
    destruct hist as [hist|]; cases_ui.
    all: rewrite ?insert_last, ?length_app; simpl.
    all: split_and!;
      [done
      |first [done|by apply prefix_app_r|by apply prefix_nil
             |rewrite <- app_assoc; by apply prefix_app_r]
      |lia
      |first [done|by apply prefix_app_r]
      |lia].
  - cbn [snd]. rewrite Hh, Hu, Hscr. split_and!; [done|done|lia|done|lia].
Qed.



(** X16: when the transport is up (every message can be sent and
    updated), the upload directory can be made and every attachment is
    saved, and the collection is provisioned and the run succeeds, the
    reply is the concatenation, in stream order, of the deltas of the
    events of type raw_response_event that carry one; the other events
    add nothing.  The run was given the orchestration agent, the history
    with the new user entry at its end, and the default profile; the
    store is left as the run left it. *)
Theorem main_reply_streamed message c s1 events s2 :
  (∀ t, transport d t = None) →
  (∀ t, makedirs d t (temp_dir d) = None) →
  (∀ t p element, save_upload d t p element = None) →
  let full := content message +:+ attachment_markers d (elements message) in
  let h1 := default [] (chat_history c) ++ [chat_entry "user" full] in
  create_collection w (store c) = (Ok tt, s1) →
  run_streamed d (S (ticks c + upload_ticks message)) OrchestrationAssistant
               h1 main_py.default_user_info s1 = (Ok events, s2) →
  ∃ n,
    main w d message c =
    (Ok tt,
     {| chat_history :=
          Some (h1 ++ [chat_entry "assistant"
                         (String.concat "" (deltas events))]);
        user_info := user_info c;
        screen := screen c ++ [String.concat "" (deltas events)];
        ticks := n;
        store := s2 |}).
Proof.
  intros Hup Hmk Hsave full h1 Hcc Hrun.
  destruct (main_saved message c Hup Hmk Hsave) as [n Hn].
  exists n. rewrite Hn. fold full h1. rewrite Hcc, Hrun. simpl.
  by rewrite full_response_deltas.
Qed.

(** X17: when the transport is up (every message can be sent and
    updated), the upload directory can be made and every attachment is
    saved, and the collection is provisioned but the run raises, the
    turn still ends normally: the reply is the apology the class of the
    exception selects (never the text of the exception), it is recorded
    as the assistant's entry, and what the run had written to the store
    before failing stays. *)
Theorem main_runner_failure message c s1 e s2 :
  (∀ t, transport d t = None) →
  (∀ t, makedirs d t (temp_dir d) = None) →
  (∀ t p element, save_upload d t p element = None) →
  let full := content message +:+ attachment_markers d (elements message) in
  let h1 := default [] (chat_history c) ++ [chat_entry "user" full] in
  create_collection w (store c) = (Ok tt, s1) →
  run_streamed d (S (ticks c + upload_ticks message)) OrchestrationAssistant
               h1 main_py.default_user_info s1 = (Raise e, s2) →
  apology d e ∈ [sorry_connection; sorry_rephrase; sorry_generic] ∧
  ∃ n,
    main w d message c =
    (Ok tt,
     {| chat_history := Some (h1 ++ [chat_entry "assistant" (apology d e)]);
        user_info := user_info c;
        screen := screen c ++ [apology d e];
        ticks := n;
        store := s2 |}).
Proof.
  intros Hup Hmk Hsave full h1 Hcc Hrun. split.
  - unfold apology.
    destruct (isinstance d e "litellm.exceptions.InternalServerError");
      [|destruct (isinstance d e "ModelBehaviorError")];
      set_solver.
  - destruct (main_saved message c Hup Hmk Hsave) as [n Hn].
    exists n. rewrite Hn. fold full h1. by rewrite Hcc, Hrun.
Qed.

(** X18: when the collection cannot be provisioned, no agent is run:
    the handler behaves the same with any runner in place of the desk's.
    With the transport up and the attachments saved, the user is shown
    the apology for the exception of [create_collection], the exchange
    is recorded with it, and the store is as the failed provisioning
    left it. *)
Theorem main_bootstrap_failure message c e s1 :
  create_collection w (store c) = (Raise e, s1) →
  (∀ run, main w (with_runner run d) message c = main w d message c) ∧
  ((∀ t, transport d t = None) →
   (∀ t, makedirs d t (temp_dir d) = None) →
   (∀ t p element, save_upload d t p element = None) →
   ∃ n,
     main w d message c =
     (Ok tt,
      {| chat_history :=
           Some (default [] (chat_history c)
                 ++ [ chat_entry "user"
                        (content message
                         +:+ attachment_markers d (elements message));
                      chat_entry "assistant" (apology d e) ]);
         user_info := user_info c;
         screen := screen c ++ [apology d e];
         ticks := n;
         store := s1 |})).
Proof.
  intros Hcc. split.
  - intros run. apply main_with_runner. intros msg h u c2 Hs.
    apply (respond_bootstrap_fails run msg h u c2 e s1). by rewrite Hs.
  - intros Hup Hmk Hsave.
    destruct (main_saved message c Hup Hmk Hsave) as [n Hn].
    exists n. rewrite Hn, Hcc. simpl. by rewrite <- app_assoc.
Qed.

(** X19: the handler neither reads nor writes the profile kept in the
    session: with another profile there it returns the same, and leaves
    the same session but for that profile; and what the runner is given
    is always the orchestration agent with the default profile, so the
    handler is the same on a desk whose runner ignores what it is
    passed for them. *)
Theorem main_ignores_profile message c u :
  main w d message (put_profile u c)
  = ((main w d message c).1, put_profile u (main w d message c).2) ∧
  main w (with_default_context d) message c = main w d message c.
Proof.
  split; [apply blind_main|].
  apply main_with_runner. intros msg h u' c2 _.
  apply respond_default_context.
Qed.

(** X21: when an attachment cannot be saved, the files before it having
    been saved, the turn ends there: the user is told which file failed
    and why, nothing is added to the history, the store is not touched
    (no collection is provisioned, no agent is run), and the attachments
    after it are not looked at. *)
Theorem main_upload_failure message c pre element post e :
  elements message = pre ++ element :: post →
  is_File element = true →
  (∀ t, makedirs d t (temp_dir d) = None) →
  (∀ t el, el ∈ pre → is_File el = true →
     save_upload d t (path_join d (temp_dir d) (el_name el)) el = None) →
  (∀ t, save_upload d t (path_join d (temp_dir d) (el_name element)) element
        = Some e) →
  (∀ t, transport d t = None) →
  ∃ n,
    main w d message c =
    (Ok tt,
     {| chat_history := chat_history c; user_info := user_info c;
        screen := screen c ++ ["Error saving file " +:+ el_name element
                               +:+ ": " +:+ exn_str e];
        ticks := n; store := store c |}).
Proof.
  intros Hels Hfile Hmk Hpre Hfail Hup.
  destruct (save_elements_fails pre element post e (content message)
              {| chat_history := chat_history c; user_info := user_info c;
                 screen := screen c; ticks := S (ticks c); store := store c |}
              Hfile Hpre Hfail Hup) as [n Hn].
  exists n. unfold main. rewrite ui_bind_run.
  assert (uploads d message c
          = save_elements d (temp_dir d) (pre ++ element :: post)
              (content message)
              {| chat_history := chat_history c; user_info := user_info c;
                 screen := screen c; ticks := S (ticks c);
                 store := store c |}) as ->.
  { unfold uploads. rewrite Hels.
    destruct (pre ++ element :: post) as [|el els] eqn:Hl.
    - by destruct pre.
    - rewrite ui_bind_run. unfold tick_ui. cbv beta match. by rewrite Hmk. }
  by rewrite Hn.
Qed.

(** X22: when the placeholder cannot be sent, the handler raises with
    the screen and the store untouched, but a history that came out of
    the session has already grown by the user's entry, which stays there
    without a reply: the list is the session's own.  A session without
    a history stays without one. *)
Theorem main_placeholder_failure message c e :
  (∀ t, makedirs d t (temp_dir d) = None) →
  (∀ t p element, save_upload d t p element = None) →
  transport d (ticks c + upload_ticks message) = Some e →
  main w d message c =
  (Raise e,
   {| chat_history :=
        match chat_history c with
        | Some h =>
            Some (h ++ [chat_entry "user"
                          (content message
                           +:+ attachment_markers d (elements message))])
        | None => None
        end;
      user_info := user_info c;
      screen := screen c;
      ticks := S (ticks c + upload_ticks message);
      store := store c |}).
Proof.
  intros Hmk Hsave Hdown. unfold main.
  rewrite ui_bind_run, uploads_saved by done.
  destruct c as [[hist|] user scr tks st]; simpl in *;
    rewrite !ui_bind_run; simpl; rewrite ui_bind_run, send_run; simpl;
    by rewrite Hdown.
Qed.


End Desk.

(** ** The handlers at work on the small desks *)


Lemma main_reply_streamed_witness :
  ∃ n,
    ui_py.main demo_world ui_py.demo_desk ui_py.demo_message ui_py.demo_chat =
    (Ok tt,
     {| ui_py.chat_history :=
          Some [ ui_py.chat_entry "user" "Hi";
                 ui_py.chat_entry "assistant" "Hello!";
                 ui_py.chat_entry "user"
                   "What does the report say? [Attachment: 'C:\temp_uploads\report.pdf']";
                 ui_py.chat_entry "assistant" "The report is short." ];
        ui_py.user_info := ui_py.user_info ui_py.demo_chat;
        ui_py.screen :=
          ui_py.screen ui_py.demo_chat ++ ["The report is short."];
        ui_py.ticks := n;
        ui_py.store := (create_collection demo_world empty_state).2 |}).
Proof.
  set (run := create_collection demo_world empty_state).
  assert (run = (Ok tt, run.2)) as Hrun by (vm_compute; reflexivity).
  exact (main_reply_streamed demo_world ui_py.demo_desk ui_py.demo_message
           ui_py.demo_chat run.2 ui_py.demo_events run.2
           (λ _, eq_refl) (λ _, eq_refl) (λ _ _ _, eq_refl) Hrun eq_refl).
Defined.

Lemma main_runner_failure_witness :
  ∃ n,
    ui_py.main demo_world ui_py.failing_desk ui_py.demo_message ui_py.demo_chat =
    (Ok tt,
     {| ui_py.chat_history :=
          Some [ ui_py.chat_entry "user" "Hi";
                 ui_py.chat_entry "assistant" "Hello!";
                 ui_py.chat_entry "user"
                   "What does the report say? [Attachment: 'C:\temp_uploads\report.pdf']";
                 ui_py.chat_entry "assistant" ui_py.sorry_rephrase ];
        ui_py.user_info := ui_py.user_info ui_py.demo_chat;
        ui_py.screen := ui_py.screen ui_py.demo_chat ++ [ui_py.sorry_rephrase];
        ui_py.ticks := n;
        ui_py.store := (create_collection demo_world empty_state).2 |}).
Proof.
  set (run := create_collection demo_world empty_state).
  assert (run = (Ok tt, run.2)) as Hrun by (vm_compute; reflexivity).
  exact (proj2
           (main_runner_failure demo_world ui_py.failing_desk
              ui_py.demo_message ui_py.demo_chat run.2
              (Exn "ModelBehaviorError" "Tool not found") run.2
              (λ _, eq_refl) (λ _, eq_refl) (λ _ _ _, eq_refl) Hrun eq_refl)).
Defined.

Lemma main_bootstrap_failure_witness :
  ui_py.main unreachable_world ui_py.failing_desk ui_py.demo_message
             ui_py.demo_chat
  = ui_py.main unreachable_world ui_py.demo_desk ui_py.demo_message
               ui_py.demo_chat.
Proof.
  set (run := create_collection unreachable_world empty_state).
  assert (run = (Raise (Exn "ResponseHandlingException" "connection refused"),
                 run.2)) as Hrun by (vm_compute; reflexivity).
  exact (proj1
           (main_bootstrap_failure unreachable_world ui_py.demo_desk
              ui_py.demo_message ui_py.demo_chat _ _ Hrun) _).
Defined.

Lemma main_upload_failure_witness :
  ∃ n,
    ui_py.main demo_world ui_py.locked_desk ui_py.locked_message ui_py.demo_chat =
    (Ok tt,
     {| ui_py.chat_history := ui_py.chat_history ui_py.demo_chat;
        ui_py.user_info := ui_py.user_info ui_py.demo_chat;
        ui_py.screen :=
          ui_py.screen ui_py.demo_chat
          ++ ["Error saving file locked.pdf: [Errno 13] Permission denied"];
        ui_py.ticks := n;
        ui_py.store := empty_state |}).
Proof.
  apply (main_upload_failure demo_world ui_py.locked_desk ui_py.locked_message
           ui_py.demo_chat [ui_py.file_element "report.pdf"]
           (ui_py.file_element "locked.pdf") [ui_py.file_element "notes.txt"]
           (Exn "PermissionError" "[Errno 13] Permission denied")).
  - reflexivity.
  - reflexivity.
  - intros t. reflexivity.
  - intros t el Hin _. apply list_elem_of_singleton in Hin. rewrite Hin.
    reflexivity.
  - intros t. reflexivity.
  - intros t. reflexivity.
Defined.

Lemma main_placeholder_failure_witness :
  ui_py.main demo_world ui_py.offline_desk ui_py.demo_message ui_py.demo_chat =
  (Raise (Exn "ConnectionError" "connection lost"),
   {| ui_py.chat_history :=
        Some [ ui_py.chat_entry "user" "Hi";
               ui_py.chat_entry "assistant" "Hello!";
               ui_py.chat_entry "user"
                 "What does the report say? [Attachment: 'C:\temp_uploads\report.pdf']" ];
      ui_py.user_info := ui_py.user_info ui_py.demo_chat;
      ui_py.screen := ui_py.screen ui_py.demo_chat;
      ui_py.ticks := 7;
      ui_py.store := empty_state |}).
Proof.
  exact (main_placeholder_failure demo_world ui_py.offline_desk
           ui_py.demo_message ui_py.demo_chat
           (Exn "ConnectionError" "connection lost")
           (λ _, eq_refl) (λ _ _ _, eq_refl) eq_refl).
Defined.

